(** * React-admin console: REST adapter, session store and access policy

    A shallow embedding of [frontend/src/api/apiService.js] and
    [frontend/src/authProvider.js] (which also holds the data provider),
    followed by the properties of the specification that concern them.

    Conventions of the embedding.
    - A JavaScript string is a Rocq [string]; every [ascii] stands for the
      UTF-16 code unit of the same number, so the strings covered are those
      whose code units lie in U+0000..U+00FF.  All built-in string
      operations below are exact on that range.
    - A JavaScript value is a [Val].  Numbers are integers (status codes,
      page numbers, identifiers): [VNum n] stands for the number [n] when
      [n] lies between -(2^53 - 1) and 2^53 - 1, and on that range
      rendering, comparison and truthiness are exact.  Larger numbers, which
      JavaScript rounds and renders in exponent form from 10^21 on, are
      outside the embedding.
    - A promise is identified with its settlement, a [Completion]; a
      [throw] inside an [async] function and a rejected [await] are both
      [Rejected].
    - [localStorage] is a finite map from keys to strings, threaded
      explicitly through the operations that write it.
    - The network ([fetch]), [JSON.parse], [JSON.stringify] and the
      environment variable are not part of the program; they are variables
      of the sections that use them. *)

From Stdlib Require Import ZArith NArith String Ascii List Bool Lia DecimalString.
From stdpp Require Import base option strings gmap.
Import ListNotations.

Set Warnings "-register-all".
Local Open Scope string_scope.
Local Open Scope Z_scope.

(** ** JavaScript values *)

Module Js.

Inductive Val : Type :=
| VUndefined
| VNull
| VBool (b : bool)
| VNum (n : Z)
| VStr (s : string)
| VArr (xs : list Val)
| VObj (fields : list (string * Val))   (* own enumerable properties, in enumeration order *)
| VError (name message : string).       (* an instance of Error or of a subclass *)

(** The settlement of a promise, or the outcome of a block that may throw. *)
Inductive Completion (A : Type) : Type :=
| Resolved (a : A)
| Rejected (reason : Val).
Arguments Resolved {A} a.
Arguments Rejected {A} reason.

#[global] Instance Completion_ret : MRet Completion := fun _ a => Resolved a.
#[global] Instance Completion_bind : MBind Completion := fun _ _ f c =>
  match c with
  | Resolved a => f a
  | Rejected e => Rejected e
  end.

(** [try { c } catch (error) { h error }] *)
Definition try_catch {A} (c : Completion A) (h : Val -> Completion A) : Completion A :=
  match c with
  | Resolved a => Resolved a
  | Rejected e => h e
  end.

(** *** Code units *)

Definition code (c : ascii) : N := N_of_ascii c.

Definition in_range (lo hi : N) (c : ascii) : bool :=
  ((lo <=? code c) && (code c <=? hi))%N.

Definition is_alnum (c : ascii) : bool :=
  in_range 48 57 c || in_range 65 90 c || in_range 97 122 c.

Fixpoint mem_ascii (c : ascii) (s : string) : bool :=
  match s with
  | EmptyString => false
  | String d t => Ascii.eqb c d || mem_ascii c t
  end.

(** *** Built-in string methods *)

(** [s.includes(needle)] *)
Fixpoint includes (needle s : string) : bool :=
  String.prefix needle s ||
  match s with
  | EmptyString => false
  | String _ t => includes needle t
  end.

(** [String.prototype.toLowerCase] on U+0000..U+00FF: the letters A-Z and
    the Latin-1 capitals U+00C0..U+00DE other than the multiplication sign
    U+00D7 move up by 32. *)
Definition lower_unit (c : ascii) : ascii :=
  if in_range 65 90 c || in_range 192 214 c || in_range 216 222 c
  then ascii_of_N (code c + 32)
  else c.

Fixpoint toLowerCase (s : string) : string :=
  match s with
  | EmptyString => EmptyString
  | String c t => String (lower_unit c) (toLowerCase t)
  end.

(** White space and line terminators of ECMAScript below U+0100:
    TAB, LF, VT, FF, CR, SP and NBSP. *)
Definition is_space (c : ascii) : bool :=
  in_range 9 13 c || (code c =? 32)%N || (code c =? 160)%N.

Fixpoint trimStart (s : string) : string :=
  match s with
  | EmptyString => EmptyString
  | String c t => if is_space c then trimStart t else s
  end.

Fixpoint trimEnd (s : string) : string :=
  match s with
  | EmptyString => EmptyString
  | String c t =>
      match trimEnd t with
      | EmptyString => if is_space c then EmptyString else String c EmptyString
      | t' => String c t'
      end
  end.

Definition trim (s : string) : string := trimEnd (trimStart s).

(** [s.substring(0, n)] *)
Definition substring0 (n : nat) (s : string) : string := String.substring 0 n s.

Fixpoint join (sep : string) (l : list string) : string :=
  match l with
  | [] => ""
  | [x] => x
  | x :: rest => x ++ sep ++ join sep rest
  end.

(** *** Conversions and operators *)

(** Number::toString for the integers between -(2^53 - 1) and 2^53 - 1:
    the decimal digits, behind a minus sign for a negative number. *)
Definition Z_to_string (n : Z) : string := NilZero.string_of_int (Z.to_int n).

(** ToString.  An array element that is [null] or [undefined] renders as
    the empty string; a plain object renders as [[object Object]]; an error
    as [name: message]. *)
Fixpoint ToString (v : Val) : string :=
  match v with
  | VUndefined => "undefined"
  | VNull => "null"
  | VBool true => "true"
  | VBool false => "false"
  | VNum n => Z_to_string n
  | VStr s => s
  | VArr xs =>
      join "," (List.map (fun x => match x with
                                   | VUndefined | VNull => ""
                                   | _ => ToString x
                                   end) xs)
  | VObj _ => "[object Object]"
  | VError name message =>
      if String.eqb message "" then name
      else if String.eqb name "" then message
      else name ++ ": " ++ message
  end.

(** ToBoolean *)
Definition truthy (v : Val) : bool :=
  match v with
  | VUndefined | VNull => false
  | VBool b => b
  | VNum n => negb (n =? 0)
  | VStr s => negb (String.eqb s "")
  | VArr _ | VObj _ | VError _ _ => true
  end.

(** [a || b] *)
Definition or_else (a b : Val) : Val := if truthy a then a else b.

(** [v === undefined], [v === null], [v == null], [v === "s"], [v === n] *)
Definition is_undefined (v : Val) : bool :=
  match v with VUndefined => true | _ => false end.
Definition is_null (v : Val) : bool :=
  match v with VNull => true | _ => false end.
Definition is_nullish (v : Val) : bool := is_undefined v || is_null v.
Definition is_string (s : string) (v : Val) : bool :=
  match v with VStr t => String.eqb t s | _ => false end.
Definition is_number (n : Z) (v : Val) : bool :=
  match v with VNum m => m =? n | _ => false end.

(** *** Objects *)

Fixpoint lookup_field (k : string) (fs : list (string * Val)) : Val :=
  match fs with
  | [] => VUndefined
  | (k', v) :: rest => if String.eqb k' k then v else lookup_field k rest
  end.

(** The array index that a property name denotes, if it denotes one: the
    name is then the decimal numeral, without sign or leading zero, of an
    integer from 0 to 2^32 - 2. *)
Fixpoint digits_value (acc : N) (s : string) : option N :=
  match s with
  | EmptyString => Some acc
  | String c t =>
      if in_range 48 57 c then digits_value (10 * acc + (code c - 48))%N t else None
  end.

Definition array_index (k : string) : option N :=
  match k with
  | EmptyString => None
  | String c t =>
      if (code c =? 48)%N && negb (String.eqb t "") then None
      else match digits_value 0 k with
           | Some n => if (n <? 4294967295)%N then Some n else None
           | None => None
           end
  end.

Definition has_field (k : string) (fs : list (string * Val)) : bool :=
  existsb (fun kv => String.eqb (fst kv) k) fs.

(** The first property named [k] gets the value [v]. *)
Fixpoint replace_field (k : string) (v : Val) (fs : list (string * Val))
  : list (string * Val) :=
  match fs with
  | [] => []
  | (k', v') :: rest =>
      if String.eqb k' k then (k, v) :: rest else (k', v') :: replace_field k v rest
  end.

(** A new property whose name is the array index [n] goes behind the
    indices below [n]: the indices are enumerated first, in ascending
    order. *)
Fixpoint insert_index (n : N) (k : string) (v : Val) (fs : list (string * Val))
  : list (string * Val) :=
  match fs with
  | [] => [(k, v)]
  | (k', v') :: rest =>
      match array_index k' with
      | Some m => if (m <? n)%N then (k', v') :: insert_index n k v rest
                  else (k, v) :: fs
      | None => (k, v) :: fs
      end
  end.

(** [o[k] = v] on an object's property list: an existing property keeps its
    place; a new one goes last, unless its name is an array index. *)
Definition set_field (k : string) (v : Val) (fs : list (string * Val)) : list (string * Val) :=
  if has_field k fs then replace_field k v fs
  else match array_index k with
       | Some n => insert_index n k v fs
       | None => (fs ++ [(k, v)])%list
       end.

(** [{...a, ...b}] on property lists *)
Definition spread_over (a b : list (string * Val)) : list (string * Val) :=
  fold_left (fun acc kv => set_field (fst kv) (snd kv) acc) b a.

Definition indexed {A} (f : A -> Val) (l : list A) : list (string * Val) :=
  List.map (fun iv => (Z_to_string (Z.of_nat (fst iv)), f (snd iv)))
           (combine (seq 0 (length l)) l).

(** The own enumerable properties: those of an object, the elements of an
    array, the code units of a string; primitives and errors have none. *)
Definition own_fields (v : Val) : list (string * Val) :=
  match v with
  | VObj fs => fs
  | VArr xs => indexed (fun x => x) xs
  | VStr s => indexed (fun c => VStr (String c "")) (list_ascii_of_string s)
  | _ => []
  end.

(** [Object.keys(v)] for a [v] that is neither [null] nor [undefined]. *)
Definition Object_keys (v : Val) : list string := List.map fst (own_fields v).

(** The TypeErrors raised by the engine, in V8's wording. *)
Definition TypeError_read (of_what prop : string) : Val :=
  VError "TypeError"
    ("Cannot read properties of " ++ of_what ++ " (reading '" ++ prop ++ "')").
Definition TypeError_destructure (of_what prop source : string) : Val :=
  VError "TypeError"
    ("Cannot destructure property '" ++ prop ++ "' of '" ++ source
     ++ "' as it is " ++ of_what ++ ".").
Definition TypeError_not_function (what : string) : Val :=
  VError "TypeError" (what ++ " is not a function").

(** [o.k].  Reading a property of [null] or [undefined] throws.  An error
    instance answers for [name] and [message]; arrays and strings answer
    for their elements and [length].  The property names the program reads
    are not inherited methods. *)
Definition get (o : Val) (k : string) : Completion Val :=
  match o with
  | VUndefined => Rejected (TypeError_read "undefined" k)
  | VNull => Rejected (TypeError_read "null" k)
  | VError name message =>
      Resolved (if String.eqb k "name" then VStr name
                else if String.eqb k "message" then VStr message
                else VUndefined)
  | VArr xs =>
      Resolved (if String.eqb k "length" then VNum (Z.of_nat (length xs))
                else lookup_field k (own_fields o))
  | VStr s =>
      Resolved (if String.eqb k "length" then VNum (Z.of_nat (String.length s))
                else lookup_field k (own_fields o))
  | _ => Resolved (lookup_field k (own_fields o))
  end.

(** [o?.k], and [o[k]] for an [o] known not to be [null] or [undefined] *)
Definition get_opt (o : Val) (k : string) : Val :=
  match get o k with
  | Resolved v => v
  | Rejected _ => VUndefined
  end.

(** [const { k } = o] for the variable or parameter named [source] *)
Definition destructure (source : string) (o : Val) (k : string) : Completion Val :=
  match o with
  | VUndefined => Rejected (TypeError_destructure "undefined" k source)
  | VNull => Rejected (TypeError_destructure "null" k source)
  | _ => get o k
  end.

(** [({ k }) => ...] applied to [o]: the destructuring of a parameter *)
Definition destructure_parameter (o : Val) (k : string) : Completion Val :=
  match o with
  | VUndefined => Rejected (TypeError_destructure "undefined" k "undefined")
  | VNull => Rejected (TypeError_destructure "null" k "object null")
  | _ => get o k
  end.

(** [new Error(message)] *)
Definition new_Error (message : Val) : Val :=
  VError "Error" (if is_undefined message then "" else ToString message).

(** *** Percent-encoding *)

Definition hex_digit (n : N) : ascii :=
  if (n <? 10)%N then ascii_of_N (48 + n) else ascii_of_N (55 + n).

(** [%XX] with upper-case digits, for a byte. *)
Definition pct (byte : N) : string :=
  String "%" (String (hex_digit (byte / 16)) (String (hex_digit (byte mod 16)) "")).

(** The UTF-8 bytes of a code unit below U+0100. *)
Definition utf8 (c : ascii) : list N :=
  if (code c <? 128)%N then [code c]
  else [(192 + code c / 64)%N; (128 + code c mod 64)%N].

Definition pct_utf8 (c : ascii) : string :=
  fold_right (fun b acc => pct b ++ acc) "" (utf8 c).

(** [encodeURIComponent]: everything is escaped except the letters, the
    digits and [- _ . ! ~ * ' ( )]. *)
Definition uri_unreserved (c : ascii) : bool :=
  is_alnum c || mem_ascii c "-_.!~*'()".

Fixpoint encodeURIComponent (s : string) : string :=
  match s with
  | EmptyString => EmptyString
  | String c t =>
      (if uri_unreserved c then String c "" else pct_utf8 c) ++ encodeURIComponent t
  end.

(** The application/x-www-form-urlencoded byte serializer of the URL
    standard: letters, digits and [* - . _] stay, a space becomes [+],
    every other byte is escaped. *)
Definition form_safe (c : ascii) : bool :=
  is_alnum c || mem_ascii c "*-._".

Fixpoint form_urlencode (s : string) : string :=
  match s with
  | EmptyString => EmptyString
  | String c t =>
      (if form_safe c then String c ""
       else if (code c =? 32)%N then "+"
       else pct_utf8 c) ++ form_urlencode t
  end.

(** *** URLSearchParams *)

(** The list of name-value pairs of a [URLSearchParams] object. *)
Definition URLSearchParams : Type := list (string * string).

(** [params.append(name, value)]: both arguments are converted to strings. *)
Definition append (name : string) (value : Val) (q : URLSearchParams) : URLSearchParams :=
  (q ++ [(name, ToString value)])%list.

(** [params.toString()] *)
Definition URLSearchParams_toString (q : URLSearchParams) : string :=
  join "&" (List.map (fun nv => form_urlencode (fst nv) ++ "=" ++ form_urlencode (snd nv)) q).

End Js.


(** ** [api/apiService.js] *)

Module ApiService.
Import Js.

(** *** The browser: storage and network *)

(** [localStorage.getItem(k)] is [null] for a missing key; [setItem]
    stores the string conversion of its argument. *)
Definition getItem (k : string) (store : gmap string string) : Val :=
  match store !! k with
  | Some s => VStr s
  | None => VNull
  end.

Definition setItem (k : string) (v : Val) (store : gmap string string) : gmap string string :=
  <[k := ToString v]> store.

Definition removeItem (k : string) (store : gmap string string) : gmap string string :=
  delete k store.

(** What [fetch] is called with. *)
Record Request := {
  req_url : string;
  req_method : option string;
  req_headers : list (string * Val);
  req_body : option string
}.

(** A received response.  [resp_headers] is keyed by lower-cased header
    name, as a [Headers] object is; [resp_body] is the payload, which
    [text()] yields as a string and [blob()] as a blob.  Reading the body
    of a received response is taken to succeed. *)
Record Response := {
  resp_status : Z;
  resp_statusText : string;
  resp_headers : gmap string string;
  resp_body : string
}.

(** [response.ok] *)
Definition ok (response : Response) : bool :=
  (200 <=? resp_status response) && (resp_status response <=? 299).

(** [response.headers.get(name)] *)
Definition headers_get (name : string) (response : Response) : Val :=
  match resp_headers response !! toLowerCase name with
  | Some v => VStr v
  | None => VNull
  end.

(** A blob, by its payload. *)
Record Blob := {
  blob_data : string
}.

(** [response.blob()] *)
Definition blob (response : Response) : Blob :=
  {| blob_data := resp_body response |}.

(** [fetch] either answers with a response or rejects with an error
    instance (a TypeError when the network fails). *)
Inductive FetchOutcome :=
| Responded (response : Response)
| Failed (name message : string).

(** The options object passed to [fetchJson]; [{}] is [no_options]. *)
Record Options := {
  opt_method : option string;
  opt_headers : list (string * Val);
  opt_body : option string
}.

Definition no_options : Options :=
  {| opt_method := None; opt_headers := []; opt_body := None |}.

(** What [fetchJson] resolves with. *)
Record JsonResponse := {
  status : Z;
  headers : gmap string string;
  json : Val
}.

(** *** Configuration and session storage *)

(** [process.env.REACT_APP_API_URL || 'http://localhost:8000'] *)
Definition API_URL (REACT_APP_API_URL : option string) : string :=
  match REACT_APP_API_URL with
  | Some s => if String.eqb s "" then "http://localhost:8000" else s
  | None => "http://localhost:8000"
  end.

(** [token ? `Bearer ${token}` : ''] *)
Definition bearer (token : Val) : Val :=
  if truthy token then VStr ("Bearer " ++ ToString token) else VStr "".

Definition getAuthHeaders (store : gmap string string) : list (string * Val) :=
  let token := getItem "token" store in
  [("Content-Type", VStr "application/json");
   ("Authorization", bearer token)].

Record StoredAuth := {
  token : Val;
  accountRole : Val
}.

Definition getStoredAuth (store : gmap string string) : StoredAuth :=
  let token := getItem "token" store in
  let accountRole := getItem "account_role" store in
  {| token := token; accountRole := accountRole |}.

Definition setStoredAuth (token accountRole : Val) (store : gmap string string)
  : gmap string string :=
  setItem "account_role" accountRole (setItem "token" token store).

Definition clearStoredAuth (store : gmap string string) : gmap string string :=
  removeItem "account_role" (removeItem "token" store).

Section Network.

Variable REACT_APP_API_URL : option string.
Variable fetch : Request -> FetchOutcome.
(** [JSON.parse]; a rejection is the SyntaxError it throws. *)
Variable JSON_parse : string -> Completion Val.
(** [JSON.stringify]; [None] is [undefined]. *)
Variable JSON_stringify : Val -> option string.

Definition await_fetch (request : Request) : Completion Response :=
  match fetch request with
  | Responded response => Resolved response
  | Failed name message => Rejected (VError name message)
  end.

(** *** [fetchJson] *)

(** The [try { json = text ? JSON.parse(text) : {} } catch (e) { ... }] block. *)
Definition parse_body (text : string) : Val :=
  match (if truthy (VStr text) then JSON_parse text else Resolved (VObj [])) with
  | Resolved json => json
  | Rejected _ =>
      VObj [("message", or_else (VStr text) (VStr "Invalid response format"));
            ("detail", or_else (VStr text) (VStr "Invalid response format"))]
  end.

(** [json.detail || json.message || fallback] *)
Definition detail_or_message (json : Val) (fallback : string) : Completion Val :=
  detail ← get json "detail";
  if truthy detail then Resolved detail
  else
    message ← get json "message";
    Resolved (or_else message (VStr fallback)).

Definition Array_isArray (v : Val) : bool :=
  match v with VArr _ => true | _ => false end.

(** The [switch (response.status)] that replaces [error.message]. *)
Definition status_message (response : Response) (json : Val)
    (error : list (string * Val)) : Completion (list (string * Val)) :=
  match resp_status response with
  | 400 =>
      m ← detail_or_message json "Bad request. Please check your input.";
      Resolved (set_field "message" m error)
  | 401 =>
      Resolved (set_field "message" (VStr "Authentication required. Please log in again.") error)
  | 403 =>
      m ← detail_or_message json "You do not have permission to perform this action.";
      Resolved (set_field "message" m error)
  | 404 =>
      m ← detail_or_message json "Resource not found.";
      Resolved (set_field "message" m error)
  | 422 =>
      m ← detail_or_message json "Validation error. Please check your input.";
      let error := set_field "message" m error in
      detail ← get json "detail";
      Resolved (if truthy detail && Array_isArray detail
                then set_field "validationErrors" detail error
                else error)
  | 500 =>
      m ← detail_or_message json "Internal server error. Please try again later.";
      Resolved (set_field "message" m error)
  | 503 =>
      Resolved (set_field "message" (VStr "Service unavailable. Please try again later.") error)
  | _ =>
      m ← detail_or_message json
            ("An error occurred (" ++ Z_to_string (resp_status response) ++ ")");
      Resolved (set_field "message" m error)
  end.

(** The callback given to [.then]. *)
Definition fetchJson_then (url : string) (response : Response) : Completion JsonResponse :=
  let text := resp_body response in
  let json := parse_body text in
  if negb (ok response) then
    message ← detail_or_message json ("HTTP Error " ++ Z_to_string (resp_status response));
    let error :=
      [("status", VNum (resp_status response));
       ("statusText", VStr (resp_statusText response));
       ("message", message);
       ("body", json);
       ("url", VStr url)] in
    error ← status_message response json error;
    Rejected (VObj error)
  else
    Resolved {| status := resp_status response;
                headers := resp_headers response;
                json := json |}.

(** [error.message.includes('fetch')] *)
Definition message_includes_fetch (error : Val) : Completion bool :=
  message ← get error "message";
  match message with
  | VStr s => Resolved (includes "fetch" s)
  | VArr xs => Resolved (existsb (is_string "fetch") xs)
  | VUndefined | VNull => Rejected (TypeError_read (ToString message) "includes")
  | _ => Rejected (TypeError_not_function "error.message.includes")
  end.

(** The callback given to [.catch]. *)
Definition fetchJson_catch {A} (url : string) (error : Val) : Completion A :=
  name ← get error "name";
  network ← (if is_string "TypeError" name then message_includes_fetch error
             else Resolved false);
  if network : bool then
    message ← get error "message";
    Rejected (VObj
      [("status", VNum 0);
       ("message", VStr "Network error. Please check your connection and try again.");
       ("body", VObj [("error", message)]);
       ("url", VStr url)])
  else
    status ← get error "status";
    if negb (is_undefined status) then Rejected error
    else
      message ← get error "message";
      Rejected (VObj
        [("status", VNum 0);
         ("message", or_else message (VStr "An unexpected error occurred"));
         ("body", VObj [("error", message)]);
         ("url", VStr url)]).

(** The request that [fetchJson] hands to [fetch]: the options, with the
    caller's headers spread over the authentication headers. *)
Definition fetchJson_request (store : gmap string string) (url : string)
    (options : Options) : Request :=
  {| req_url := url;
     req_method := opt_method options;
     req_headers := spread_over (getAuthHeaders store) (opt_headers options);
     req_body := opt_body options |}.

Definition fetchJson (store : gmap string string) (url : string) (options : Options)
  : Completion JsonResponse :=
  try_catch (response ← await_fetch (fetchJson_request store url options);
             fetchJson_then url response)
            (fetchJson_catch url).

(** *** [authAPI] *)

Definition authAPI_login (username password : Val) : Completion Val :=
  response ← await_fetch
    {| req_url := API_URL REACT_APP_API_URL ++ "/auth/login";
       req_method := Some "POST";
       req_headers := [("Content-Type", VStr "application/json")];
       req_body := JSON_stringify (VObj [("username", username); ("password", password)]) |};
  if negb (ok response) then Rejected (new_Error (VStr "Login failed"))
  else
    data ← JSON_parse (resp_body response);
    Resolved data.

(** *** [usersAPI.exportCSV] *)

Definition getStringValue (value : Val) : Val :=
  if is_nullish value then VNull
  else
    let str := trim (ToString value) in
    or_else (VStr str) VNull.

(** [if (value) params.append(name, value)] *)
Definition append_truthy (name : string) (value : Val) (params : URLSearchParams)
  : URLSearchParams :=
  if truthy value then append name value params else params.

(** The query parameters of the export, from the filters and the sort. *)
Definition exportCSV_params (filters sort : Val) : URLSearchParams :=
  let params := [] in
  let roleValue := getStringValue (get_opt filters "role") in
  let params := append_truthy "role" roleValue params in
  let statusValue := getStringValue (get_opt filters "status") in
  let params := append_truthy "status" statusValue params in
  let accountRoleValue := getStringValue (get_opt filters "account_role") in
  let params := append_truthy "account_role" accountRoleValue params in
  let searchValue := getStringValue (get_opt filters "search") in
  let params := append_truthy "search" searchValue params in
  let sortField := getStringValue (get_opt sort "field") in
  if truthy sortField then
    let params := append "sort_field" sortField params in
    let sortOrderRaw := or_else (get_opt sort "order") (VStr "DESC") in
    let sortOrder := toLowerCase (ToString sortOrderRaw) in
    if String.eqb sortOrder "asc" || String.eqb sortOrder "desc"
    then append "sort_order" (VStr sortOrder) params
    else append "sort_order" (VStr "desc") params
  else params.

(** [v.includes(needle)] for a header value [v], which is a string. *)
Definition includes_in (needle : string) (v : Val) : bool :=
  match v with
  | VStr s => includes needle s
  | _ => false
  end.

(** [`HTTP ${response.status}: ${response.statusText}`] *)
Definition http_line (response : Response) : string :=
  "HTTP " ++ Z_to_string (resp_status response) ++ ": " ++ resp_statusText response.

(** The message of the error thrown for a response that is not [ok]. *)
Definition export_errorMessage (response : Response) : Val :=
  let contentType := headers_get "content-type" response in
  if truthy contentType && includes_in "application/json" contentType then
    match (error ← JSON_parse (resp_body response);
           detail_or_message error (http_line response)) with
    | Resolved m => m
    | Rejected _ => VStr (http_line response)
    end
  else
    or_else (VStr (resp_body response)) (VStr (http_line response)).

(** The part of [exportCSV] that follows the [await fetch]. *)
Definition exportCSV_response (response : Response) : Completion Blob :=
  if negb (ok response) then
    Rejected (new_Error (export_errorMessage response))
  else
    let contentType := headers_get "content-type" response in
    if truthy contentType
       && negb (includes_in "text/csv" contentType)
       && negb (includes_in "application/octet-stream" contentType)
    then
      let text := resp_body response in
      Rejected (new_Error (VStr ("Unexpected response type: " ++ ToString contentType
                                 ++ ". Response: " ++ substring0 200 text)))
    else
      Resolved (blob response).

(** The request of [exportCSV(filters = {}, sort = {})]. *)
Definition exportCSV_request (store : gmap string string) (filters sort : Val) : Request :=
  let filters := if is_undefined filters then VObj [] else filters in
  let sort := if is_undefined sort then VObj [] else sort in
  let token := getItem "token" store in
  let params := exportCSV_params filters sort in
  let queryString := URLSearchParams_toString params in
  let url := API_URL REACT_APP_API_URL ++ "/users/export-csv"
             ++ (if truthy (VStr queryString) then "?" ++ queryString else "") in
  {| req_url := url;
     req_method := Some "GET";
     req_headers := [("Authorization", bearer token)];
     req_body := None |}.

Definition exportCSV (store : gmap string string) (filters sort : Val) : Completion Blob :=
  response ← await_fetch (exportCSV_request store filters sort);
  exportCSV_response response.

End Network.

End ApiService.

(** ** [authProvider.js]: the auth provider *)

Module AuthProvider.
Import Js ApiService.

(** The Capability Set resolved by [getPermissions]. *)
Record Permissions := {
  canCreate : bool;
  canEdit : bool;
  canDelete : bool;
  canExport : bool;
  canImport : bool
}.

(** Each operation returns the settlement of its promise and the storage
    it leaves behind. *)

Section Provider.

Variable REACT_APP_API_URL : option string.
Variable fetch : Request -> FetchOutcome.
Variable JSON_parse : string -> Completion Val.
Variable JSON_stringify : Val -> option string.

(** The [try] block of [login] up to the call of [setStoredAuth]. *)
Definition login_try (username password : Val) : Completion (Val * Val) :=
  data ← authAPI_login REACT_APP_API_URL fetch JSON_parse JSON_stringify
           username password;
  token ← destructure "data" data "token";
  account_role ← destructure "data" data "account_role";
  Resolved (token, account_role).

(** [login({ username, password })].  The parameter is taken apart before
    the [try] block is entered. *)
Definition login (credentials : Val) (store : gmap string string)
  : Completion unit * gmap string string :=
  match (username ← destructure_parameter credentials "username";
         password ← destructure_parameter credentials "password";
         Resolved (username, password)) with
  | Rejected error => (Rejected error, store)
  | Resolved (username, password) =>
      match login_try username password with
      | Resolved (token, account_role) =>
          (Resolved (), setStoredAuth token account_role store)
      | Rejected error =>
          (Rejected error, store)
      end
  end.

End Provider.

Definition logout (store : gmap string string) : Completion unit * gmap string string :=
  (Resolved (), clearStoredAuth store).

Definition checkAuth (store : gmap string string) : Completion unit :=
  let token := token (getStoredAuth store) in
  if truthy token then Resolved () else Rejected VUndefined.

(** [checkError] is not [async]: for an [error] that is [null] or
    [undefined] the TypeError of [error.status] is thrown to the caller. *)
Definition checkError (error : Val) (store : gmap string string)
  : Completion unit * gmap string string :=
  match get error "status" with
  | Rejected e => (Rejected e, store)
  | Resolved status =>
      if is_number 401 status || is_number 403 status then
        (Rejected VUndefined, clearStoredAuth store)
      else
        (Resolved (), store)
  end.

Definition getIdentity (store : gmap string string) : Completion Val :=
  let auth := getStoredAuth store in
  if truthy (token auth) then
    Resolved (VObj [("id", VStr "user");
                    ("fullName", or_else (accountRole auth) (VStr "User"));
                    ("role", accountRole auth)])
  else Rejected VUndefined.

Definition getPermissions (store : gmap string string) : Completion Permissions :=
  let accountRole := accountRole (getStoredAuth store) in
  if is_string "admin" accountRole then
    Resolved {| canCreate := true;
                canEdit := true;
                canDelete := true;
                canExport := true;
                canImport := true |}
  else if is_string "corporate_admin" accountRole then
    Resolved {| canCreate := false;
                canEdit := true;
                canDelete := false;
                canExport := false;
                canImport := false |}
  else
    Resolved {| canCreate := false;
                canEdit := false;
                canDelete := false;
                canExport := false;
                canImport := false |}.

End AuthProvider.

(** ** [authProvider.js]: the data provider *)

Module DataProvider.
Import Js ApiService.

(** *** [buildQueryParams] *)

Definition dquote : string := String (ascii_of_N 34) "".

(** [v.toLowerCase()] for the value of [sort.order || 'ASC']; only strings
    have the method. *)
Definition order_toLowerCase (v : Val) : Completion string :=
  match v with
  | VStr s => Resolved (toLowerCase s)
  | _ => Rejected (TypeError_not_function
                     ("(sort.order || " ++ dquote ++ "ASC" ++ dquote ++ ").toLowerCase"))
  end.

(** [if (pagination) { ... }] *)
Definition add_pagination (pagination : Val) (queryParams : URLSearchParams)
  : URLSearchParams :=
  if truthy pagination then
    let queryParams := append "page" (or_else (get_opt pagination "page") (VNum 1)) queryParams in
    append "page_size" (or_else (get_opt pagination "perPage") (VNum 10)) queryParams
  else queryParams.

(** [if (sort && sort.field) { ... }] *)
Definition add_sort (sort : Val) (queryParams : URLSearchParams)
  : Completion URLSearchParams :=
  if truthy sort && truthy (get_opt sort "field") then
    let queryParams := append "sort_field" (get_opt sort "field") queryParams in
    sortOrder ← order_toLowerCase (or_else (get_opt sort "order") (VStr "ASC"));
    Resolved (append "sort_order" (VStr sortOrder) queryParams)
  else Resolved queryParams.

(** The body of the [forEach] over [Object.keys(filter)]. *)
Definition add_filter_key (filter : Val) (queryParams : URLSearchParams) (key : string)
  : URLSearchParams :=
  let value := get_opt filter key in
  if negb (is_null value) && negb (is_undefined value) && negb (is_string "" value)
  then append key (VStr (encodeURIComponent (ToString value))) queryParams
  else queryParams.

(** [if (filter) { Object.keys(filter).forEach(...) }] *)
Definition add_filter (filter : Val) (queryParams : URLSearchParams) : URLSearchParams :=
  if truthy filter
  then fold_left (add_filter_key filter) (Object_keys filter) queryParams
  else queryParams.

(** The pairs held by [queryParams] when [buildQueryParams] returns. *)
Definition buildQueryParams_entries (params : Val) : Completion URLSearchParams :=
  pagination ← destructure "params" params "pagination";
  sort ← destructure "params" params "sort";
  filter ← destructure "params" params "filter";
  let queryParams := [] in
  let queryParams := add_pagination pagination queryParams in
  queryParams ← add_sort sort queryParams;
  let queryParams := add_filter filter queryParams in
  Resolved queryParams.

Definition buildQueryParams (params : Val) : Completion string :=
  queryParams ← buildQueryParams_entries params;
  Resolved (URLSearchParams_toString queryParams).

(** *** [Promise.all] *)

Fixpoint first_rejection {A} (promises : list (Completion A)) : option Val :=
  match promises with
  | [] => None
  | Rejected e :: _ => Some e
  | Resolved _ :: rest => first_rejection rest
  end.

Fixpoint fulfilled {A} (promises : list (Completion A)) : list A :=
  match promises with
  | [] => []
  | Resolved a :: rest => a :: fulfilled rest
  | Rejected _ :: rest => fulfilled rest
  end.

(** [Promise.all(promises)] rejects with the reason of the promise that
    rejects first in time, and otherwise resolves with the values in the
    order of [promises].  [settled] lists the indices of the promises in
    the order in which they settle. *)
Definition Promise_all {A} (settled : list nat) (promises : list (Completion A))
  : Completion (list A) :=
  match first_rejection (omap (fun i => promises !! i) settled ++ promises) with
  | Some e => Rejected e
  | None => Resolved (fulfilled promises)
  end.

(** *** [dataProvider] *)

Section Provider.

Variable REACT_APP_API_URL : option string.
Variable fetch : Request -> FetchOutcome.
Variable JSON_parse : string -> Completion Val.
Variable JSON_stringify : Val -> option string.
(** The order in which the requests of a batch settle. *)
Variable settled : list nat.
Variable store : gmap string string.

Let API_URL : string := ApiService.API_URL REACT_APP_API_URL.
Let fetchJson : string -> Options -> Completion JsonResponse :=
  ApiService.fetchJson fetch JSON_parse store.

(** [`...: ${error.message}`] in a [catch (error)] block *)
Definition rethrow {A} (context : string) (error : Val) : Completion A :=
  message ← get error "message";
  Rejected (new_Error (VStr (context ++ ": " ++ ToString message))).

(** [params.ids.map(f)] *)
Definition ids_map {A} (params : Val) (f : Val -> A) : Completion (list A) :=
  ids ← get params "ids";
  match ids with
  | VArr xs => Resolved (List.map f xs)
  | VUndefined | VNull => Rejected (TypeError_read (ToString ids) "map")
  | _ => Rejected (TypeError_not_function "params.ids.map")
  end.

Definition getList (resource : string) (params : Val) : Completion Val :=
  try_catch
    (queryString ← buildQueryParams params;
     let url := API_URL ++ "/" ++ resource
                ++ (if truthy (VStr queryString) then "?" ++ queryString else "") in
     response ← fetchJson url no_options;
     let json := json response in
     items ← get json "items";
     total ← get json "total";
     Resolved (VObj [("data", or_else items (VArr []));
                     ("total", or_else total (VNum 0))]))
    (fun error => rethrow ("Failed to fetch " ++ resource ++ " list") error).


Definition getMany (resource : string) (params : Val) : Completion Val :=
  try_catch
    (promises ← ids_map params (fun id =>
        fetchJson (API_URL ++ "/" ++ resource ++ "/" ++ ToString id) no_options);
     responses ← Promise_all settled promises;
     Resolved (VObj [("data", VArr (List.map json responses))]))
    (fun error => rethrow ("Failed to fetch multiple " ++ resource) error).

(** The promise of [getList] is returned without [await], so its rejection
    does not pass through this function's [catch]. *)
Definition getManyReference (resource : string) (params : Val) : Completion Val :=
  match (filter ← get params "filter";
         target ← get params "target";
         id ← get params "id";
         Resolved (set_field (ToString target) id (own_fields filter))) with
  | Resolved filters =>
      getList resource (VObj (set_field "filter" (VObj filters) (own_fields params)))
  | Rejected error =>
      rethrow ("Failed to fetch " ++ resource ++ " references") error
  end.

Definition create (resource : string) (params : Val) : Completion Val :=
  try_catch
    (data ← get params "data";
     response ← fetchJson (API_URL ++ "/" ++ resource)
                  {| opt_method := Some "POST";
                     opt_headers := [];
                     opt_body := JSON_stringify data |};
     Resolved (VObj [("data", json response)]))
    (fun error =>
       status ← get error "status";
       if is_number 400 status || is_number 422 status
       then rethrow "Validation error" error
       else rethrow ("Failed to create " ++ resource) error).


Definition updateMany (resource : string) (params : Val) : Completion Val :=
  try_catch
    (promises ← ids_map params (fun id =>
        fetchJson (API_URL ++ "/" ++ resource ++ "/" ++ ToString id)
          {| opt_method := Some "PUT";
             opt_headers := [];
             opt_body := JSON_stringify (get_opt params "data") |});
     responses ← Promise_all settled promises;
     ids ← mapM (fun response =>
                   id ← get (json response) "id";
                   Resolved (or_else id (json response))) responses;
     Resolved (VObj [("data", VArr ids)]))
    (fun error => rethrow ("Failed to update multiple " ++ resource) error).

Definition delete (resource : string) (params : Val) : Completion Val :=
  try_catch
    (id ← get params "id";
     _ ← fetchJson (API_URL ++ "/" ++ resource ++ "/" ++ ToString id)
           {| opt_method := Some "DELETE";
              opt_headers := [];
              opt_body := None |};
     id ← get params "id";
     Resolved (VObj [("data", VObj [("id", id)])]))
    (fun error =>
       status ← get error "status";
       if is_number 403 status
       then rethrow "Permission denied" error
       else if is_number 404 status
       then rethrow "Resource not found" error
       else
         id ← get params "id";
         rethrow ("Failed to delete " ++ resource ++ " with id " ++ ToString id) error).

Definition deleteMany (resource : string) (params : Val) : Completion Val :=
  try_catch
    (promises ← ids_map params (fun id =>
        fetchJson (API_URL ++ "/" ++ resource ++ "/" ++ ToString id)
          {| opt_method := Some "DELETE";
             opt_headers := [];
             opt_body := None |});
     _ ← Promise_all settled promises;
     ids ← get params "ids";
     Resolved (VObj [("data", ids)]))
    (fun error => rethrow ("Failed to delete multiple " ++ resource) error).

End Provider.

End DataProvider.

(** ** [api/apiService.js]: [usersAPI.uploadCSV] *)

Module Upload.
Import Js ApiService.

(** A [File], by its name and its contents. *)
Record File := {
  file_name : string;
  file_content : string
}.

(** What [fetch] is called with by [uploadCSV]: the body is a [FormData]
    that holds the file under the field [file]. *)
Record FormRequest := {
  form_url : string;
  form_method : option string;
  form_headers : list (string * Val);
  form_file : File
}.

Section Network.

Variable REACT_APP_API_URL : option string.
(** [fetch] on a request with a form body. *)
Variable fetch : FormRequest -> FetchOutcome.
Variable JSON_parse : string -> Completion Val.

Definition uploadCSV_request (store : gmap string string) (file : File) : FormRequest :=
  let token := getItem "token" store in
  {| form_url := API_URL REACT_APP_API_URL ++ "/users/upload-csv";
     form_method := Some "POST";
     form_headers := [("Authorization", bearer token)];
     form_file := file |}.

(** [await response.json().catch(() => ({}))] *)
Definition json_or_empty (response : Response) : Val :=
  match JSON_parse (resp_body response) with
  | Resolved errorData => errorData
  | Rejected _ => VObj []
  end.

(** The part of [uploadCSV] that follows the [await fetch]. *)
Definition uploadCSV_response (response : Response) : Completion Val :=
  if negb (ok response) then
    let errorData := json_or_empty response in
    detail ← get errorData "detail";
    Rejected (new_Error (or_else detail (VStr "Upload failed")))
  else
    data ← JSON_parse (resp_body response);
    Resolved data.

Definition uploadCSV (store : gmap string string) (file : File) : Completion Val :=
  response ← match fetch (uploadCSV_request store file) with
             | Responded response => Resolved response
             | Failed name message => Rejected (VError name message)
             end;
  uploadCSV_response response.

End Network.

End Upload.

(** ** Regular expressions

    The patterns of the user forms use character classes, concatenation,
    [+] and [{2,}], between [^] and [$] and without flags: [test] asks
    whether the whole string matches.  Matching is by derivatives. *)

Module Regex.
Import Js.

Inductive regex : Type :=
| Void                                   (* matches nothing *)
| Eps                                    (* matches the empty string *)
| Class (member : ascii -> bool)         (* [...] and single characters *)
| Cat (r1 r2 : regex)
| Alt (r1 r2 : regex)
| Star (r : regex).

(** [r+] and [r{2,}] *)
Definition plus (r : regex) : regex := Cat r (Star r).
Definition two_or_more (r : regex) : regex := Cat r (Cat r (Star r)).

Definition char (c : ascii) : regex := Class (Ascii.eqb c).

Fixpoint nullable (r : regex) : bool :=
  match r with
  | Void => false
  | Eps => true
  | Class _ => false
  | Cat r1 r2 => nullable r1 && nullable r2
  | Alt r1 r2 => nullable r1 || nullable r2
  | Star _ => true
  end.

Fixpoint derivative (c : ascii) (r : regex) : regex :=
  match r with
  | Void => Void
  | Eps => Void
  | Class member => if member c then Eps else Void
  | Cat r1 r2 =>
      if nullable r1
      then Alt (Cat (derivative c r1) r2) (derivative c r2)
      else Cat (derivative c r1) r2
  | Alt r1 r2 => Alt (derivative c r1) (derivative c r2)
  | Star r => Cat (derivative c r) (Star r)
  end.

(** [/^r$/.test(s)] *)
Fixpoint test (r : regex) (s : string) : bool :=
  match s with
  | EmptyString => nullable r
  | String c t => test (derivative c r) t
  end.

(** The strings that a pattern denotes. *)
Inductive Matches : regex -> string -> Prop :=
| MEps : Matches Eps ""
| MClass member c : member c = true -> Matches (Class member) (String c "")
| MCat r1 r2 s1 s2 : Matches r1 s1 -> Matches r2 s2 -> Matches (Cat r1 r2) (s1 ++ s2)
| MAltL r1 r2 s : Matches r1 s -> Matches (Alt r1 r2) s
| MAltR r1 r2 s : Matches r2 s -> Matches (Alt r1 r2) s
| MStarNil r : Matches (Star r) ""
| MStarCons r s1 s2 :
    Matches r s1 -> Matches (Star r) s2 -> Matches (Star r) (s1 ++ s2).

End Regex.

(** ** The user forms: validators and the submission of a new user *)

Module Users.
Import Js Regex.

Definition is_letter (c : ascii) : bool := in_range 65 90 c || in_range 97 122 c.

(** [/^[a-zA-Z0-9\s\-_\.]+$/] *)
Definition namePattern : regex :=
  plus (Class (fun c => is_alnum c || is_space c || mem_ascii c "-_.")).

(** [/^[a-zA-Z0-9._%+-]+@[a-zA-Z0-9.-]+\.[a-zA-Z]{2,}$/] *)
Definition emailPattern : regex :=
  Cat (plus (Class (fun c => is_alnum c || mem_ascii c "._%+-")))
      (Cat (char "@")
           (Cat (plus (Class (fun c => is_alnum c || mem_ascii c ".-")))
                (Cat (char ".") (two_or_more (Class is_letter))))).

(** [v.trim()] for the value [v] of the expression [what]; only strings
    have the method. *)
Definition call_trim (what : string) (v : Val) : Completion string :=
  match v with
  | VStr s => Resolved (trim s)
  | VUndefined | VNull => Rejected (TypeError_read (ToString v) "trim")
  | _ => Rejected (TypeError_not_function (what ++ ".trim"))
  end.

(** The function at the end of [validateName]. *)
Definition validateName_characters (value : Val) : Completion Val :=
  if truthy value then
    trimmed ← call_trim "value" value;
    if negb (test namePattern trimmed)
    then Resolved (VStr "Name contains invalid characters")
    else Resolved VUndefined
  else Resolved VUndefined.

(** The function at the end of [validateEmail]. *)
Definition validateEmail_format (value : Val) : Completion Val :=
  if truthy value then
    trimmed ← call_trim "value" value;
    let trimmed := toLowerCase trimmed in
    if (100 <? String.length trimmed)%nat
    then Resolved (VStr "Email address is too long")
    else if negb (test emailPattern trimmed)
    then Resolved (VStr "Invalid email format")
    else Resolved VUndefined
  else Resolved VUndefined.

(** The function at the end of [validatePassword]. *)
Definition validatePassword_whitespace (value : Val) : Completion Val :=
  if truthy value then
    trimmed ← call_trim "value" value;
    if negb (is_string trimmed value)
    then Resolved (VStr "Password cannot have leading or trailing whitespace")
    else Resolved VUndefined
  else Resolved VUndefined.

(** [value.length] for a [value] that has been trimmed without an error,
    hence a string. *)
Definition string_length (value : Val) : nat :=
  match value with
  | VStr s => String.length s
  | _ => 0
  end.

Definition validatePasswordOptional (value : Val) : Completion Val :=
  empty ← (if negb (truthy value) then Resolved true
           else trimmed ← call_trim "value" value;
                Resolved (String.eqb trimmed ""));
  if empty : bool then Resolved VUndefined
  else if (string_length value <? 1)%nat
  then Resolved (VStr "Password must be at least 1 character")
  else Resolved VUndefined.

(** [format] and [parse] of the password input of the edit form. *)
Definition password_format (value : Val) : Val := or_else value (VStr "").

Definition password_parse (value : Val) : Completion Val :=
  if truthy value then
    trimmed ← call_trim "value" value;
    if negb (String.eqb trimmed "") then Resolved value else Resolved VUndefined
  else Resolved VUndefined.

(** The checks of [onSubmit] in the form of [UserCreate], each from the
    [errors] so far to the [errors] after it. *)
Definition check_name (data : Val) (errors : list (string * Val))
  : Completion (list (string * Val)) :=
  name ← get data "name";
  short ← (if negb (truthy name) then Resolved true
           else trimmed ← call_trim "data.name" name;
                Resolved (String.length trimmed <? 2)%nat);
  let errors := if short : bool
                then set_field "name" (VStr "Name must be at least 2 characters") errors
                else errors in
  long ← (if truthy name
          then trimmed ← call_trim "data.name" name;
               Resolved (100 <? String.length trimmed)%nat
          else Resolved false);
  Resolved (if long : bool
            then set_field "name" (VStr "Name must not exceed 100 characters") errors
            else errors).

Definition check_email (data : Val) (errors : list (string * Val))
  : Completion (list (string * Val)) :=
  email ← get data "email";
  missing ← (if negb (truthy email) then Resolved true
             else trimmed ← call_trim "data.email" email;
                  Resolved (negb (truthy (VStr trimmed))));
  if missing : bool then
    Resolved (set_field "email" (VStr "Email is required") errors)
  else
    trimmed ← call_trim "data.email" email;
    if negb (test emailPattern (toLowerCase trimmed))
    then Resolved (set_field "email" (VStr "Invalid email format") errors)
    else Resolved errors.

Definition check_password (data : Val) (errors : list (string * Val))
  : Completion (list (string * Val)) :=
  password ← get data "password";
  missing ← (if negb (truthy password) then Resolved true
             else trimmed ← call_trim "data.password" password;
                  Resolved (String.length trimmed <? 1)%nat);
  Resolved (if missing : bool
            then set_field "password" (VStr "Password is required") errors
            else errors).

(** [onSubmit] of the form of [UserCreate]: the errors are thrown as they
    are, an object and not an [Error]; otherwise the data are returned
    with the name, the email and the password normalized. *)
Definition UserCreate_onSubmit (data : Val) : Completion Val :=
  let errors := [] in
  errors ← check_name data errors;
  errors ← check_email data errors;
  errors ← check_password data errors;
  if (0 <? length (Object_keys (VObj errors)))%nat then Rejected (VObj errors)
  else
    name ← (name ← get data "name"; call_trim "data.name" name);
    email ← (email ← get data "email"; call_trim "data.email" email);
    password ← (password ← get data "password"; call_trim "data.password" password);
    Resolved (VObj (set_field "password" (VStr password)
                      (set_field "email" (VStr (toLowerCase email))
                         (set_field "name" (VStr name) (own_fields data))))).

End Users.

(** * Vocabulary of the statements

    The definitions below are not translated from the program: they are the
    specification's table, and the sample data at which the theorems with
    hypotheses are instantiated. *)

Module Samples.
Import Js ApiService AuthProvider.

(** The table of section 4.3 of the specification, by role; [None] is the
    absent role. *)
Definition capability_table (role : option string) : Permissions :=
  if decide (role = Some "admin") then
    {| canCreate := true; canEdit := true; canDelete := true;
       canExport := true; canImport := true |}
  else if decide (role = Some "corporate_admin") then
    {| canCreate := false; canEdit := true; canDelete := false;
       canExport := false; canImport := false |}
  else
    {| canCreate := false; canEdit := false; canDelete := false;
       canExport := false; canImport := false |}.

(** A session, and an error as [fetchJson] rejects with. *)
Definition admin_session : gmap string string :=
  {["token" := "abc"; "account_role" := "admin"]}.

Definition forbidden_error : Val :=
  VObj [("status", VNum 403); ("message", VStr "Forbidden")].

(** [JSON.parse] on the texts [null], [true], [false] and [{}]; it stands
    for [JSON.parse] where a theorem is instantiated, and no other text is
    parsed there. *)
Definition parse_literal (text : string) : Completion Val :=
  if String.eqb text "null" then Resolved VNull
  else if String.eqb text "true" then Resolved (VBool true)
  else if String.eqb text "false" then Resolved (VBool false)
  else if String.eqb text "{}" then Resolved (VObj [])
  else Rejected (VError "SyntaxError" "Unexpected token").

(** [JSON.stringify] on the empty object, on [null] and on [undefined]; it
    stands for [JSON.stringify] where a theorem is instantiated. *)
Definition stringify_literal (v : Val) : option string :=
  match v with
  | VObj [] => Some "{}"
  | VNull => Some "null"
  | _ => None
  end.

Definition respond (status : Z) (statusText : string)
    (headers : gmap string string) (body : string) : Response :=
  {| resp_status := status;
     resp_statusText := statusText;
     resp_headers := headers;
     resp_body := body |}.

(** The message that [fetchJson] sets for status 401. *)
Definition AUTH_REQUIRED : string := "Authentication required. Please log in again.".

(** A server that answers every request with the same response. *)
Definition always (response : Response) : Request -> FetchOutcome :=
  fun _ => Responded response.

End Samples.

(** The nine operations of the data provider, and the call
    [dataProvider[operation](resource, params)]. *)
Module Adapter.
Import Js ApiService.

Inductive Operation :=
| GetList | GetOne | GetMany | GetManyReference
| Create | Update | UpdateMany | Delete | DeleteMany.

Section Call.

Variable REACT_APP_API_URL : option string.
Variable fetch : Request -> FetchOutcome.
Variable JSON_parse : string -> Completion Val.
Variable JSON_stringify : Val -> option string.
Variable settled : list nat.
Variable store : gmap string string.


End Call.



(** The text before the colon in the message of a failed [update]. *)
Definition update_context (resource : string) (id status : Val) : string :=
  if is_number 400 status || is_number 422 status then "Validation error"
  else if is_number 403 status then "Permission denied"
  else "Failed to update " ++ resource ++ " with id " ++ ToString id.

(** The options of the request of [update]. *)
Definition put (body : option string) : Options :=
  {| opt_method := Some "PUT"; opt_headers := []; opt_body := body |}.

End Adapter.

(** Sample data for the data provider: a record to update, and the answer
    of a server that does not know it. *)
Module AdapterSamples.
Import Js ApiService Samples.

Definition not_found : Response := respond 404 "Not Found" ∅ "".


End AdapterSamples.

(** Vocabulary for the query string of [getList]. *)
Module Query.
Import Js.

(** The value of [sort_order] for a [sort.order] that is a string or is not
    given: the string in lower case, [asc] by default. *)
Definition lowered_order (order : Val) : string :=
  match order with
  | VStr s => if String.eqb s "" then "asc" else toLowerCase s
  | _ => "asc"
  end.

(** The filter values that the filter loop skips. *)
Definition skipped (value : Val) : Prop :=
  value = VNull \/ value = VUndefined \/ value = VStr "".

(** The parameter names written for the pagination and the sort. *)
Definition reserved_names : list string :=
  ["page"; "page_size"; "sort_field"; "sort_order"].

End Query.

(** Sample arguments of [getList]. *)
Module QuerySamples.
Import Js.

Definition by_name_asc : Val :=
  VObj [("sort", VObj [("field", VStr "name"); ("order", VStr "ASC")])].

Definition by_name_desc : Val :=
  VObj [("sort", VObj [("field", VStr "name"); ("order", VStr "DESC")])].

Definition by_name_sideways : Val :=
  VObj [("sort", VObj [("field", VStr "name"); ("order", VStr "sideways")])].

Definition search_two_words : Val :=
  VObj [("filter", VObj [("search", VStr "a b")])].

Definition empty_role_and_status : Val :=
  VObj [("filter", VObj [("role", VStr ""); ("status", VNull)])].

Definition second_page_of_search : Val :=
  VObj [("pagination", VObj [("page", VNum 2); ("perPage", VNum 10)]);
        ("filter", VObj [("role", VStr ""); ("status", VNull); ("search", VStr "ann")])].

End QuerySamples.

(** Sample responses of the export and login endpoints. *)
Module EndpointSamples.
Import Js ApiService Samples.

Definition plain_oops : Response :=
  respond 200 "OK" {["content-type" := "text/plain"]} "oops".

Definition empty_type_oops : Response :=
  respond 200 "OK" {["content-type" := ""]} "oops".

Definition untyped_csv : Response :=
  respond 200 "OK" ∅ "id,name".

(** The body [{"token":"t1","account_role":"admin"}] of a successful login,
    and [JSON.parse] on that text. *)
Definition login_body : string :=
  "{" ++ DataProvider.dquote ++ "token" ++ DataProvider.dquote ++ ":"
  ++ DataProvider.dquote ++ "t1" ++ DataProvider.dquote ++ ","
  ++ DataProvider.dquote ++ "account_role" ++ DataProvider.dquote ++ ":"
  ++ DataProvider.dquote ++ "admin" ++ DataProvider.dquote ++ "}".

Definition login_data : Val :=
  VObj [("token", VStr "t1"); ("account_role", VStr "admin")].

Definition parse_login (text : string) : Completion Val :=
  if String.eqb text login_body then Resolved login_data
  else Rejected (VError "SyntaxError" "Unexpected token").

Definition ann_secret : Val :=
  VObj [("username", VStr "ann@example.org"); ("password", VStr "secret")].

Definition login_ok : Response := respond 200 "OK" ∅ login_body.

Definition login_refused : Response := respond 401 "Unauthorized" ∅ "".

End EndpointSamples.

(** Vocabulary and sample data for the session store. *)
Module SessionSamples.
Import Js ApiService AuthProvider.

(** The Capability Set of a role without rights. *)
Definition no_permissions : Permissions :=
  {| canCreate := false; canEdit := false; canDelete := false;
     canExport := false; canImport := false |}.

(** A storage that holds something besides the session. *)
Definition themed_session : gmap string string :=
  {["token" := "abc"; "account_role" := "admin"; "theme" := "dark"]}.

(** An answer of the login endpoint without a token. *)
Definition tokenless_data : Val := VObj [("account_role", VStr "corporate_admin")].

End SessionSamples.

(** Sample data for the composition of the auth provider's operations. *)
Module LoginSamples.
Import Js ApiService Samples SessionSamples.

(** The body [{"account_role":"corporate_admin"}], and [JSON.parse] on it. *)
Definition tokenless_body : string :=
  "{" ++ DataProvider.dquote ++ "account_role" ++ DataProvider.dquote ++ ":"
  ++ DataProvider.dquote ++ "corporate_admin" ++ DataProvider.dquote ++ "}".

Definition parse_tokenless (text : string) : Completion Val :=
  if String.eqb text tokenless_body then Resolved tokenless_data
  else Rejected (VError "SyntaxError" "Unexpected token").

Definition tokenless_ok : Response := respond 200 "OK" ∅ tokenless_body.

Definition credentials : Val :=
  VObj [("username", VStr "bob@example.org"); ("password", VStr "hunter2")].

(** Options with a header of the caller's. *)
Definition with_accept : Options :=
  {| opt_method := None;
     opt_headers := [("Accept", VStr "text/csv"); ("Content-Type", VStr "text/plain")];
     opt_body := None |}.

End LoginSamples.

(** Sample data for the outcomes of [fetchJson]. *)
Module FetchSamples.
Import Js ApiService Samples.

(** A 422 answer whose body parses to an object with a sequence under
    [detail], and [JSON.parse] on that body. *)
Definition detail_list : Val :=
  VObj [("detail", VArr [VObj [("loc", VStr "email"); ("msg", VStr "taken")]])].

Definition parse_detail_list (text : string) : Completion Val :=
  if String.eqb text "<validation errors>" then Resolved detail_list
  else Rejected (VError "SyntaxError" "Unexpected token").

Definition unprocessable : Response :=
  respond 422 "Unprocessable Entity" ∅ "<validation errors>".

(** The text that [fetchJson] falls back on when the body of a response
    that is not [ok] has neither a [detail] nor a [message], by status
    (401 and 503 have a message of their own, whatever the body). *)
Definition fallback_text (status : Z) : string :=
  if status =? 400 then "Bad request. Please check your input."
  else if status =? 403 then "You do not have permission to perform this action."
  else if status =? 404 then "Resource not found."
  else if status =? 422 then "Validation error. Please check your input."
  else if status =? 500 then "Internal server error. Please try again later."
  else "An error occurred (" ++ Z_to_string status ++ ")".

(** A 500 answer with a body that is not JSON. *)
Definition server_error : Response := respond 500 "Internal Server Error" ∅ "boom".

(** A server that cannot be reached, in the wording of two browsers. *)
Definition unreachable : Request -> FetchOutcome :=
  fun _ => Failed "TypeError" "Failed to fetch".

Definition load_failed : Request -> FetchOutcome :=
  fun _ => Failed "TypeError" "Load failed".

End FetchSamples.

(** Vocabulary and sample data for the export and the upload. *)
Module TransferSamples.
Import Js ApiService Samples Upload.

(** A string that does not begin with white space. *)
Definition no_leading_space (s : string) : Prop :=
  match s with
  | EmptyString => True
  | String c _ => is_space c = false
  end.

(** [if (value) params.append(name, value)], as the pairs it adds. *)
Definition parameter_if (name : string) (value : Val) : URLSearchParams :=
  if truthy value then [(name, ToString value)] else [].

(** The value of [sort_order] in the export: the order in lower case when
    that is [asc], and [desc] otherwise. *)
Definition export_order (sort : Val) : string :=
  if String.eqb (toLowerCase (ToString (or_else (get_opt sort "order") (VStr "DESC"))))
                "asc"
  then "asc" else "desc".

(** The names of the filters that the export reads. *)
Definition export_filters : list string := ["role"; "status"; "account_role"; "search"].

(** The request of the login endpoint. *)
Definition login_request (REACT_APP_API_URL : option string)
    (JSON_stringify : Val -> option string) (credentials : Val) : Request :=
  {| req_url := API_URL REACT_APP_API_URL ++ "/auth/login";
     req_method := Some "POST";
     req_headers := [("Content-Type", VStr "application/json")];
     req_body := JSON_stringify (VObj [("username", get_opt credentials "username");
                                       ("password", get_opt credentials "password")]) |}.

Definition padded_filters : Val :=
  VObj [("role", VStr "  team lead "); ("status", VStr "   "); ("search", VNum 0)].

Definition sort_by_name_up : Val := VObj [("field", VStr "name"); ("order", VStr "Up")].

Definition bad_gateway : Response :=
  respond 502 "Bad Gateway" {["content-type" := "text/html"]} "".

Definition users_csv : File := {| file_name := "users.csv"; file_content := "name,email" |}.

(** A server that answers every upload with the same response. *)
Definition always_form (response : Response) : FormRequest -> FetchOutcome :=
  fun _ => Responded response.

(** A refusal whose body is the JSON text [null]. *)
Definition refused_null : Response := respond 400 "Bad Request" ∅ "null".

End TransferSamples.

(** Vocabulary and sample data for the further operations of the data
    provider. *)
Module BatchSamples.
Import Js ApiService Samples Adapter.

(** The address of a record. *)
Definition record_url (REACT_APP_API_URL : option string) (resource : string) (id : Val)
  : string :=
  API_URL REACT_APP_API_URL ++ "/" ++ resource ++ "/" ++ ToString id.

(** The options of the requests of [create] and [delete]. *)
Definition post (body : option string) : Options :=
  {| opt_method := Some "POST"; opt_headers := []; opt_body := body |}.

Definition delete_options : Options :=
  {| opt_method := Some "DELETE"; opt_headers := []; opt_body := None |}.

(** The parsed body of a resolved request, and [undefined] for a rejected
    one. *)
Definition json_of (c : Completion JsonResponse) : Val :=
  match c with
  | Resolved response => json response
  | Rejected _ => VUndefined
  end.

(** A batch fails as a whole: its result is the rejection with an error
    that has the message of one of the rejected requests behind the
    context. *)
Definition batch_failure {A} (context : string) (promises : list (Completion A))
    (result : Completion Val) : Prop :=
  exists underlying,
    In (Rejected underlying) promises
    /\ result = Rejected (VError "Error"
                            (context ++ ": " ++ ToString (get_opt underlying "message"))).

Definition ids_7_8 : Val := VObj [("ids", VArr [VNum 7; VNum 8])].

Definition no_ids : Val := VObj [("ids", VArr [])].

Definition comments_of_post : Val :=
  VObj [("target", VStr "post_id"); ("id", VNum 3);
        ("pagination", VObj [("page", VNum 1); ("perPage", VNum 25)]);
        ("filter", VObj [("post_id", VNum 9); ("status", VStr "active")])].

Definition first_page : Val := VObj [("pagination", VObj [("page", VNum 0)])].

Definition ok_empty : Response := respond 200 "OK" ∅ "".

Definition ok_null : Response := respond 200 "OK" ∅ "null".

Definition forbidden : Response := respond 403 "Forbidden" ∅ "".

Definition new_user : Val := VObj [("data", VObj [])].

Definition user_7 : Val := VObj [("id", VNum 7)].

End BatchSamples.

(** Vocabulary and sample data for the user forms. *)
Module FormSamples.
Import Js Regex Users.

(** The first binding of [k] in a property list is [v]. *)
Fixpoint bound (k : string) (v : Val) (fs : list (string * Val)) : Prop :=
  match fs with
  | [] => False
  | (k', v') :: rest => if String.eqb k' k then v' = v else bound k v rest
  end.

(** Data that [onSubmit] accepts: an object with a name of 2 to 100
    characters and a password of at least one, both counted without the
    white space around them, and with an email that matches the pattern
    once trimmed and in lower case. *)
Definition acceptable (data : Val) (name email password : string) : Prop :=
  is_nullish data = false
  /\ get_opt data "name" = VStr name
  /\ get_opt data "email" = VStr email
  /\ get_opt data "password" = VStr password
  /\ (2 <= String.length (trim name) <= 100)%nat
  /\ trim email <> ""
  /\ test emailPattern (toLowerCase (trim email)) = true
  /\ (1 <= String.length (trim password))%nat.

(** What [onSubmit] returns for such data. *)
Definition normalized (data : Val) (name email password : string) : Val :=
  VObj (set_field "password" (VStr (trim password))
          (set_field "email" (VStr (toLowerCase (trim email)))
             (set_field "name" (VStr (trim name)) (own_fields data)))).

(** Every character of the string is in the class. *)
Fixpoint all_in (member : ascii -> bool) (s : string) : bool :=
  match s with
  | EmptyString => true
  | String c t => member c && all_in member t
  end.

Definition ann : Val :=
  VObj [("name", VStr " Ann "); ("email", VStr " Ann@Ex.ORG "); ("password", VStr " pw ");
        ("role", VStr "manager")].

(** The classes of [emailPattern]. *)
Definition local_char (c : ascii) : bool := is_alnum c || mem_ascii c "._%+-".
Definition domain_char (c : ascii) : bool := is_alnum c || mem_ascii c ".-".

(** An address in the sense of [emailPattern]: a local part, [@], a domain,
    a dot and at least two letters. *)
Definition address (s : string) : Prop :=
  exists local domain tld,
    s = local ++ "@" ++ domain ++ "." ++ tld
    /\ local <> "" /\ all_in local_char local = true
    /\ domain <> "" /\ all_in domain_char domain = true
    /\ (2 <= String.length tld)%nat /\ all_in is_letter tld = true.

End FormSamples.

(** What the operations of the data provider ask of [fetchJson], and what
    their errors say. *)
Module AdapterRequests.
Import Js ApiService Adapter BatchSamples.

Section Requests.

Variable REACT_APP_API_URL : option string.
Variable JSON_stringify : Val -> option string.




End Requests.

(** The text before the colon in the message of the error that a failed
    operation rejects with, when [fetchJson] rejected with [underlying]. *)
Definition context (operation : Operation) (resource : string) (params underlying : Val)
  : string :=
  let status := get_opt underlying "status" in
  let id := get_opt params "id" in
  match operation with
  | GetList | GetManyReference => "Failed to fetch " ++ resource ++ " list"
  | GetOne => "Failed to fetch " ++ resource ++ " with id " ++ ToString id
  | GetMany => "Failed to fetch multiple " ++ resource
  | Create =>
      if is_number 400 status || is_number 422 status then "Validation error"
      else "Failed to create " ++ resource
  | Update => update_context resource id status
  | UpdateMany => "Failed to update multiple " ++ resource
  | Delete =>
      if is_number 403 status then "Permission denied"
      else if is_number 404 status then "Resource not found"
      else "Failed to delete " ++ resource ++ " with id " ++ ToString id
  | DeleteMany => "Failed to delete multiple " ++ resource
  end.

End AdapterRequests.

(** * Properties *)

Import Js ApiService AuthProvider Samples.

(** ** Elementary facts about values *)

Lemma is_number_spec (n : Z) (v : Val) : is_number n v = true <-> v = VNum n.
Proof.
  destruct v; simpl; try (split; [discriminate | intros [=]]).
  rewrite Z.eqb_eq. split; [congruence | intros [=]; auto].
Qed.

Lemma is_number_false (n : Z) (v : Val) : v <> VNum n -> is_number n v = false.
Proof.
  intros H. destruct (is_number n v) eqn:E; [|reflexivity].
  apply is_number_spec in E. contradiction.
Qed.

(** ** The access-control policy *)

(** C1.  Whatever the storage holds, [getPermissions] resolves, and with the
    row of the policy table for the stored role: every capability for
    [admin], [canEdit] alone for [corporate_admin], none for any other role
    and for an absent one. *)
Theorem getPermissions_capability_table (store : gmap string string) :
  getPermissions store = Resolved (capability_table (store !! "account_role")).
Proof.
  unfold getPermissions, getStoredAuth, getItem, capability_table.
  cbn [accountRole].
  destruct (store !! "account_role") as [role|]; cbn [is_string].
  - destruct (String.eqb_spec role "admin") as [->|Hadmin].
    + rewrite decide_True by reflexivity. reflexivity.
    + rewrite decide_False by congruence.
      destruct (String.eqb_spec role "corporate_admin") as [->|Hcorp].
      * rewrite decide_True by reflexivity. reflexivity.
      * rewrite decide_False by congruence. reflexivity.
  - rewrite !decide_False by discriminate. reflexivity.
Qed.

(** ** [checkError] *)

(** C4.  For an error object with a [status] field: when the status is 401
    or 403, [checkError] rejects and the storage it leaves is the given one
    without its [token] and [account_role] entries; for every other status
    it resolves and the storage is the given one. *)
Theorem checkError_session (error status : Val) (store : gmap string string) :
  get error "status" = Resolved status ->
  (status = VNum 401 \/ status = VNum 403 ->
     checkError error store
       = (Rejected VUndefined, delete "account_role" (delete "token" store))
     /\ (checkError error store).2 !! "token" = None
     /\ (checkError error store).2 !! "account_role" = None)
  /\ (status <> VNum 401 -> status <> VNum 403 ->
     checkError error store = (Resolved (), store)).
Proof.
  intros Hstatus. unfold checkError. rewrite Hstatus. split.
  - intros Hauth.
    assert (is_number 401 status || is_number 403 status = true) as ->.
    { apply orb_true_iff.
      destruct Hauth as [->| ->]; [left | right]; reflexivity. }
    unfold clearStoredAuth, removeItem. cbn [snd].
    repeat split.
    + rewrite lookup_delete_ne by discriminate. apply lookup_delete_eq.
    + apply lookup_delete_eq.
  - intros H401 H403.
    rewrite (is_number_false _ _ H401), (is_number_false _ _ H403).
    reflexivity.
Qed.

Lemma checkError_session_witness :
  (VNum 403 = VNum 401 \/ VNum 403 = VNum 403 ->
     checkError forbidden_error admin_session
       = (Rejected VUndefined, delete "account_role" (delete "token" admin_session))
     /\ (checkError forbidden_error admin_session).2 !! "token" = None
     /\ (checkError forbidden_error admin_session).2 !! "account_role" = None)
  /\ (VNum 403 <> VNum 401 -> VNum 403 <> VNum 403 ->
     checkError forbidden_error admin_session = (Resolved (), admin_session)).
Proof.
  apply (checkError_session forbidden_error (VNum 403) admin_session).
  reflexivity.
Defined.

(** ** [fetchJson] *)

Lemma get_non_nullish (o : Val) (k : string) :
  is_nullish o = false -> get o k = Resolved (get_opt o k).
Proof.
  unfold get_opt. destruct o; try discriminate; reflexivity.
Qed.

Lemma detail_or_message_resolves (json : Val) (fallback : string) :
  is_nullish json = false ->
  exists m, detail_or_message json fallback = Resolved m.
Proof.
  intros Hjson. unfold detail_or_message.
  rewrite !(get_non_nullish _ _ Hjson). cbn.
  destruct (truthy (get_opt json "detail")); eauto.
Qed.

(** The [.catch] callback passes on an object that carries a status. *)
Lemma fetchJson_catch_structured {A} (url : string) (fields : list (string * Val)) :
  lookup_field "name" fields = VUndefined ->
  lookup_field "status" fields <> VUndefined ->
  @fetchJson_catch A url (VObj fields) = Rejected (VObj fields).
Proof.
  intros Hname Hstatus. unfold fetchJson_catch. cbn. rewrite Hname. cbn.
  destruct (lookup_field "status" fields); try contradiction; reflexivity.
Qed.

(** A 401 response whose parsed body is not [null] is rejected with the
    fixed message, whatever the body says. *)
Lemma fetchJson_401_message fetch JSON_parse store url options response :
  fetch (fetchJson_request store url options) = Responded response ->
  resp_status response = 401 ->
  is_nullish (parse_body JSON_parse (resp_body response)) = false ->
  fetchJson fetch JSON_parse store url options
  = Rejected (VObj [("status", VNum 401);
                    ("statusText", VStr (resp_statusText response));
                    ("message", VStr AUTH_REQUIRED);
                    ("body", parse_body JSON_parse (resp_body response));
                    ("url", VStr url)]).
Proof.
  intros Hfetch Hstatus Hjson.
  unfold fetchJson, await_fetch. rewrite Hfetch. cbn [mbind Completion_bind].
  unfold fetchJson_then, ok, status_message. rewrite Hstatus.
  cbn [Z.leb Z.compare Pos.compare Pos.compare_cont andb negb].
  destruct (detail_or_message_resolves _ ("HTTP Error " ++ Z_to_string 401) Hjson) as [m ->].
  cbn. reflexivity.
Qed.

(** C3.  A 401 response whose body is the JSON text [null]: reading
    [json.detail] throws, the [.catch] callback wraps the TypeError, and
    [fetchJson] rejects with status 0 and the TypeError's message, not with
    the fixed message for 401. *)
Theorem fetchJson_401_null_body fetch JSON_parse store url options response :
  fetch (fetchJson_request store url options) = Responded response ->
  resp_status response = 401 ->
  resp_body response = "null" ->
  JSON_parse "null" = Resolved VNull ->
  fetchJson fetch JSON_parse store url options
  = Rejected (VObj
      [("status", VNum 0);
       ("message", VStr "Cannot read properties of null (reading 'detail')");
       ("body", VObj [("error", VStr "Cannot read properties of null (reading 'detail')")]);
       ("url", VStr url)])
  /\ VStr "Cannot read properties of null (reading 'detail')" <> VStr AUTH_REQUIRED.
Proof.
  intros Hfetch Hstatus Hbody Hparse. split; [|discriminate].
  unfold fetchJson, await_fetch. rewrite Hfetch. cbn [mbind Completion_bind].
  unfold fetchJson_then, ok, parse_body. rewrite Hstatus, Hbody.
  cbn. rewrite Hparse. reflexivity.
Qed.

Lemma fetchJson_401_null_body_witness :
  fetchJson (always (respond 401 "Unauthorized" ∅ "null")) parse_literal
            admin_session "http://localhost:8000/users" no_options
  = Rejected (VObj
      [("status", VNum 0);
       ("message", VStr "Cannot read properties of null (reading 'detail')");
       ("body", VObj [("error", VStr "Cannot read properties of null (reading 'detail')")]);
       ("url", VStr "http://localhost:8000/users")])
  /\ VStr "Cannot read properties of null (reading 'detail')" <> VStr AUTH_REQUIRED.
Proof.
  apply (fetchJson_401_null_body
           (always (respond 401 "Unauthorized" ∅ "null")) parse_literal
           admin_session "http://localhost:8000/users" no_options
           (respond 401 "Unauthorized" ∅ "null"));
    reflexivity.
Defined.

(** ** The data provider's rejections *)

Import Adapter.



Lemma get_resolved_non_nullish (o : Val) (k : string) (v : Val) :
  get o k = Resolved v -> is_nullish o = false.
Proof. destruct o; cbn; intros [=]; reflexivity. Qed.





(** [Promise.all] rejects with the reason of one of its promises. *)
Lemma first_rejection_In {A} (promises : list (Completion A)) (reason : Val) :
  DataProvider.first_rejection promises = Some reason -> In (Rejected reason) promises.
Proof.
  induction promises as [|[a|e] promises IH]; cbn; [discriminate | auto |].
  intros [= ->]. now left.
Qed.

Lemma Promise_all_rejected {A} (settled : list nat) (promises : list (Completion A))
    (reason : Val) :
  DataProvider.Promise_all settled promises = Rejected reason ->
  In (Rejected reason) promises.
Proof.
  unfold DataProvider.Promise_all.
  destruct (DataProvider.first_rejection _) as [e|] eqn:Hfirst; [|discriminate].
  intros [= ->]. apply first_rejection_In in Hfirst.
  apply in_app_or in Hfirst. destruct Hfirst as [Hin|Hin]; [|exact Hin].
  apply list_elem_of_In, list_elem_of_omap in Hin. destruct Hin as (i & _ & Hi).
  apply list_elem_of_In. eapply list_elem_of_lookup_2. exact Hi.
Qed.

Section AdapterRejections.

Variable REACT_APP_API_URL : option string.
Variable fetch : Request -> FetchOutcome.
Variable JSON_parse : string -> Completion Val.
Variable JSON_stringify : Val -> option string.
Variable settled : list nat.
Variable store : gmap string string.



End AdapterRejections.

Import AdapterSamples.

(** ** Strings *)

Lemma append_nil_l (b : string) : "" ++ b = b.
Proof. reflexivity. Qed.

Lemma append_cons (c : ascii) (a b : string) : String c a ++ b = String c (a ++ b).
Proof. reflexivity. Qed.

Lemma append_assoc (a b c : string) : (a ++ b) ++ c = a ++ b ++ c.
Proof.
  induction a as [|x a IH]; [reflexivity|].
  rewrite !append_cons. now rewrite IH.
Qed.

Lemma append_empty_r (a : string) : a ++ "" = a.
Proof.
  induction a as [|x a IH]; [reflexivity|].
  rewrite append_cons. now rewrite IH.
Qed.

Lemma prefix_append (x b : string) : String.prefix x (x ++ b) = true.
Proof.
  induction x as [|c x IH].
  - destruct b; reflexivity.
  - rewrite append_cons. cbn [String.prefix].
    destruct (ascii_dec c c); [exact IH | contradiction].
Qed.

Lemma includes_unfold (needle s : string) :
  includes needle s
  = String.prefix needle s
    || match s with
       | EmptyString => false
       | String _ t => includes needle t
       end.
Proof. destruct s; reflexivity. Qed.

Lemma includes_append (x a b : string) : includes x (a ++ x ++ b) = true.
Proof.
  induction a as [|c a IH].
  - rewrite append_nil_l, includes_unfold, prefix_append. reflexivity.
  - rewrite append_cons, includes_unfold, IH. apply orb_true_r.
Qed.

Lemma join_cons (sep x : string) (l : list string) :
  l <> [] -> join sep (x :: l) = x ++ sep ++ join sep l.
Proof. destruct l; [contradiction | reflexivity]. Qed.

(** Two neighbours of a list are neighbours in its [join]. *)
Lemma join_neighbours (sep x y : string) (before after : list string) :
  exists a b, join sep (before ++ [x; y] ++ after) = a ++ (x ++ sep ++ y) ++ b.
Proof.
  induction before as [|z before (a & b & IH)].
  - cbn [app]. destruct after as [|w after].
    + exists "", "". rewrite append_nil_l, append_empty_r. reflexivity.
    + exists "", (sep ++ join sep (w :: after)).
      rewrite append_nil_l, !join_cons by discriminate. now rewrite !append_assoc.
  - exists (z ++ sep ++ a), b. cbn [app].
    rewrite join_cons by (destruct before; discriminate).
    cbn [app] in IH. rewrite IH. now rewrite !append_assoc.
Qed.

(** ** [buildQueryParams] *)

Import Query.

Lemma destructure_non_nullish (source : string) (o : Val) (k : string) :
  is_nullish o = false -> destructure source o k = Resolved (get_opt o k).
Proof. unfold get_opt. destruct o; try discriminate; reflexivity. Qed.

Lemma destructure_resolved (source : string) (o : Val) (k : string) (v : Val) :
  destructure source o k = Resolved v -> is_nullish o = false.
Proof. destruct o; cbn; intros [=]; reflexivity. Qed.

Lemma add_filter_key_app filter (q : URLSearchParams) key :
  DataProvider.add_filter_key filter q key
  = (q ++ DataProvider.add_filter_key filter [] key)%list.
Proof.
  unfold DataProvider.add_filter_key, append.
  destruct (_ && _); [reflexivity | now rewrite app_nil_r].
Qed.

Lemma add_filter_keys_app filter keys (q : URLSearchParams) :
  fold_left (DataProvider.add_filter_key filter) keys q
  = (q ++ fold_left (DataProvider.add_filter_key filter) keys [])%list.
Proof.
  revert q. induction keys as [|key keys IH]; intros q; cbn [fold_left].
  - now rewrite app_nil_r.
  - rewrite IH, (IH (DataProvider.add_filter_key filter [] key)).
    rewrite (add_filter_key_app filter q key). now rewrite app_assoc.
Qed.

Lemma add_filter_app filter (q : URLSearchParams) :
  DataProvider.add_filter filter q = (q ++ DataProvider.add_filter filter [])%list.
Proof.
  unfold DataProvider.add_filter. destruct (truthy filter).
  - apply add_filter_keys_app.
  - now rewrite app_nil_r.
Qed.

Lemma add_sort_app sort (q : URLSearchParams) :
  DataProvider.add_sort sort q
  = (entries ← DataProvider.add_sort sort []; Resolved (q ++ entries)%list).
Proof.
  unfold DataProvider.add_sort. destruct (_ && _); cbn.
  - destruct (DataProvider.order_toLowerCase _); cbn; [|reflexivity].
    unfold append. now rewrite <- app_assoc.
  - now rewrite app_nil_r.
Qed.

(** The pairs are those of the pagination, then of the sort, then of the
    filter. *)
Lemma buildQueryParams_entries_parts (params : Val) :
  is_nullish params = false ->
  DataProvider.buildQueryParams_entries params
  = (sorted ← DataProvider.add_sort (get_opt params "sort") [];
     Resolved (DataProvider.add_pagination (get_opt params "pagination") []
               ++ sorted
               ++ DataProvider.add_filter (get_opt params "filter") [])%list).
Proof.
  intros Hparams. unfold DataProvider.buildQueryParams_entries.
  rewrite !(destructure_non_nullish _ _ _ Hparams). cbn [mbind Completion_bind].
  rewrite add_sort_app.
  destruct (DataProvider.add_sort (get_opt params "sort") []) as [sorted|]; cbn;
    [|reflexivity].
  now rewrite add_filter_app, app_assoc.
Qed.

Lemma add_sort_entries (sort : Val) :
  truthy sort = true ->
  truthy (get_opt sort "field") = true ->
  truthy (get_opt sort "order") = false \/ (exists s, get_opt sort "order" = VStr s) ->
  DataProvider.add_sort sort []
  = Resolved [("sort_field", ToString (get_opt sort "field"));
              ("sort_order", lowered_order (get_opt sort "order"))].
Proof.
  intros Hsort Hfield Horder. unfold DataProvider.add_sort.
  rewrite Hsort, Hfield. cbn [andb]. unfold or_else.
  destruct (truthy (get_opt sort "order")) eqn:Htruthy.
  - destruct Horder as [|[s Hs]]; [discriminate|].
    rewrite Hs in *. cbn in Htruthy |- *.
    destruct (String.eqb s ""); [discriminate | reflexivity].
  - assert (lowered_order (get_opt sort "order") = "asc") as ->.
    { destruct (get_opt sort "order") as [| |[]|n|s| | |]; try discriminate; try reflexivity.
      cbn in Htruthy |- *. destruct (String.eqb s ""); [reflexivity | discriminate]. }
    reflexivity.
Qed.

Import QuerySamples.

(** C5, as the program has it.  When the sort has a field, and its order is
    a string or is not given, the query string has the parameter
    [sort_field] with the field, immediately followed by [sort_order] with
    the order in lower case, [asc] when no order is given; an order other
    than ASC or DESC is passed on in lower case like any other.  The sort
    by name in order ASC gives [sort_field=name&sort_order=asc]. *)
Theorem buildQueryParams_sort :
  (forall params : Val,
     is_nullish params = false ->
     truthy (get_opt params "sort") = true ->
     truthy (get_opt (get_opt params "sort") "field") = true ->
     truthy (get_opt (get_opt params "sort") "order") = false
     \/ (exists s, get_opt (get_opt params "sort") "order" = VStr s) ->
     exists entries queryString,
       DataProvider.buildQueryParams_entries params = Resolved entries
       /\ DataProvider.buildQueryParams params = Resolved queryString
       /\ (exists before after,
             entries
             = (before
                ++ [("sort_field", ToString (get_opt (get_opt params "sort") "field"));
                    ("sort_order", lowered_order (get_opt (get_opt params "sort") "order"))]
                ++ after)%list)
       /\ includes
            (("sort_field="
              ++ form_urlencode (ToString (get_opt (get_opt params "sort") "field")))
             ++ "&"
             ++ ("sort_order="
                 ++ form_urlencode (lowered_order (get_opt (get_opt params "sort") "order"))))
            queryString = true)
  /\ DataProvider.buildQueryParams by_name_asc = Resolved "sort_field=name&sort_order=asc".
Proof.
  split; [|reflexivity].
  intros params Hparams Hsort Hfield Horder.
  pose proof (buildQueryParams_entries_parts params Hparams) as Hentries.
  rewrite (add_sort_entries _ Hsort Hfield Horder) in Hentries.
  cbn [mbind Completion_bind] in Hentries.
  eexists. eexists. split; [exact Hentries|].
  unfold DataProvider.buildQueryParams. rewrite Hentries. cbn [mbind Completion_bind].
  split; [reflexivity|]. split; [eauto|].
  unfold URLSearchParams_toString. rewrite !map_app. cbn [List.map fst snd].
  match goal with
  | |- context [join "&" (?before ++ [?x; ?y] ++ ?after)%list] =>
      destruct (join_neighbours "&" x y before after) as (a & b & ->)
  end.
  apply includes_append.
Qed.

Lemma buildQueryParams_sort_witness :
  exists entries queryString,
    DataProvider.buildQueryParams_entries by_name_desc = Resolved entries
    /\ DataProvider.buildQueryParams by_name_desc = Resolved queryString
    /\ (exists before after,
          entries
          = (before
             ++ [("sort_field", ToString (get_opt (get_opt by_name_desc "sort") "field"));
                 ("sort_order", lowered_order (get_opt (get_opt by_name_desc "sort") "order"))]
             ++ after)%list)
    /\ includes
         (("sort_field="
           ++ form_urlencode (ToString (get_opt (get_opt by_name_desc "sort") "field")))
          ++ "&"
          ++ ("sort_order="
              ++ form_urlencode (lowered_order (get_opt (get_opt by_name_desc "sort") "order"))))
         queryString = true.
Proof.
  apply (proj1 buildQueryParams_sort by_name_desc).
  - reflexivity.
  - reflexivity.
  - reflexivity.
  - right. exists "DESC". reflexivity.
Defined.

(** C5, as the specification has it, fails: an order that is neither ASC
    nor DESC is not replaced by [desc]. *)
Lemma buildQueryParams_keeps_unknown_order :
  DataProvider.buildQueryParams by_name_sideways
  = Resolved "sort_field=name&sort_order=sideways"
  /\ includes "sort_order=desc" "sort_field=name&sort_order=sideways" = false.
Proof. split; reflexivity. Qed.

(** An order that is not a string has no [toLowerCase]: the call throws. *)
Lemma buildQueryParams_numeric_order :
  DataProvider.buildQueryParams
    (VObj [("sort", VObj [("field", VStr "name"); ("order", VNum 1)])])
  = Rejected (TypeError_not_function
                ("(sort.order || " ++ DataProvider.dquote ++ "ASC" ++ DataProvider.dquote
                 ++ ").toLowerCase")).
Proof. reflexivity. Qed.

(** C6.  A filter value is escaped twice: [encodeURIComponent] turns the
    space of [a b] into [%20], and the serializer of [URLSearchParams]
    escapes the percent sign of that again.  The query string is not the
    name followed by the value percent-encoded once. *)
Theorem buildQueryParams_encodes_twice :
  DataProvider.buildQueryParams search_two_words = Resolved "search=a%2520b"
  /\ encodeURIComponent "a b" = "a%20b"
  /\ form_urlencode (encodeURIComponent "a b") = "a%2520b"
  /\ "search=a%2520b" <> "search=" ++ encodeURIComponent "a b".
Proof. repeat split; try reflexivity. discriminate. Qed.

Lemma kept_not_skipped (value : Val) :
  negb (is_null value) && negb (is_undefined value) && negb (is_string "" value) = true ->
  ~ skipped value.
Proof.
  intros Hkept [-> | [-> | ->]]; discriminate Hkept.
Qed.

(** What the filter loop writes: for a key whose value is not skipped, the
    key and the [encodeURIComponent] of the value. *)
Lemma add_filter_key_In filter (q : URLSearchParams) (key name value : string) :
  In (name, value) (DataProvider.add_filter_key filter q key) ->
  In (name, value) q
  \/ (name = key /\ ~ skipped (get_opt filter key)
      /\ value = encodeURIComponent (ToString (get_opt filter key))).
Proof.
  unfold DataProvider.add_filter_key, append.
  destruct (_ && _) eqn:Hkept; [|auto].
  intros Hin. apply in_app_or in Hin. destruct Hin as [Hin|[[= <- <-]|[]]]; [auto|].
  right. repeat split. now apply kept_not_skipped.
Qed.

Lemma add_filter_keys_In filter keys (q : URLSearchParams) (name value : string) :
  In (name, value) (fold_left (DataProvider.add_filter_key filter) keys q) ->
  In (name, value) q
  \/ (~ skipped (get_opt filter name)
      /\ value = encodeURIComponent (ToString (get_opt filter name))).
Proof.
  revert q. induction keys as [|key keys IH]; intros q; cbn [fold_left]; [auto|].
  intros Hin. apply IH in Hin. destruct Hin as [Hin|]; [|auto].
  apply add_filter_key_In in Hin. destruct Hin as [|(-> & Hkept & ->)]; auto.
Qed.

Lemma add_filter_In filter (name value : string) :
  In (name, value) (DataProvider.add_filter filter []) ->
  ~ skipped (get_opt filter name)
  /\ value = encodeURIComponent (ToString (get_opt filter name)).
Proof.
  unfold DataProvider.add_filter. destruct (truthy filter); [|intros []].
  intros Hin. apply add_filter_keys_In in Hin. destruct Hin as [[]|]; assumption.
Qed.

Lemma add_pagination_names pagination (name value : string) :
  In (name, value) (DataProvider.add_pagination pagination []) ->
  name = "page" \/ name = "page_size".
Proof.
  unfold DataProvider.add_pagination, append. destruct (truthy pagination); [|intros []].
  cbn. intros [[= <- _]|[[= <- _]|[]]]; auto.
Qed.

Lemma add_sort_names sort sorted (name value : string) :
  DataProvider.add_sort sort [] = Resolved sorted ->
  In (name, value) sorted ->
  name = "sort_field" \/ name = "sort_order".
Proof.
  unfold DataProvider.add_sort, append. destruct (_ && _).
  - destruct (DataProvider.order_toLowerCase _); cbn; [|discriminate].
    intros [= <-]. intros [[= <- _]|[[= <- _]|[]]]; auto.
  - intros [= <-] [].
Qed.

(** C7.  A filter entry whose value is [null], [undefined] or the empty
    string is dropped.  The parameters of the query string are those
    written for the pagination, for the sort and by the filter loop, in
    that order, and the filter loop writes no parameter under the name of
    such an entry; a parameter of that name can thus only be one of [page],
    [page_size], [sort_field] and [sort_order], written for the pagination
    or the sort.  The filters with an empty [role] and a [null] [status]
    give the empty query string, with neither name in it. *)
Theorem buildQueryParams_skips_empty_filters :
  (forall (params : Val) (entries : URLSearchParams) (key : string),
     DataProvider.buildQueryParams_entries params = Resolved entries ->
     skipped (get_opt (get_opt params "filter") key) ->
     DataProvider.buildQueryParams params = Resolved (URLSearchParams_toString entries)
     /\ (exists sorted,
           DataProvider.add_sort (get_opt params "sort") [] = Resolved sorted
           /\ entries
              = (DataProvider.add_pagination (get_opt params "pagination") []
                 ++ sorted
                 ++ DataProvider.add_filter (get_opt params "filter") [])%list)
     /\ (forall value,
           ~ In (key, value) (DataProvider.add_filter (get_opt params "filter") []))
     /\ (forall value, In (key, value) entries -> In key reserved_names))
  /\ DataProvider.buildQueryParams empty_role_and_status = Resolved ""
  /\ includes "role" "" = false
  /\ includes "status" "" = false.
Proof.
  split; [|repeat split].
  intros params entries key Hentries Hskipped.
  split; [unfold DataProvider.buildQueryParams; now rewrite Hentries|].
  assert (forall value,
            ~ In (key, value) (DataProvider.add_filter (get_opt params "filter") []))
    as Hfilter.
  { intros value Hin. apply add_filter_In in Hin. destruct Hin as [Hkept _]. auto. }
  assert (is_nullish params = false) as Hparams.
  { unfold DataProvider.buildQueryParams_entries in Hentries.
    destruct (destructure "params" params "pagination") eqn:Hd; [|discriminate].
    eapply destructure_resolved; eauto. }
  rewrite (buildQueryParams_entries_parts params Hparams) in Hentries.
  destruct (DataProvider.add_sort (get_opt params "sort") []) as [sorted|] eqn:Hsorted;
    cbn in Hentries; [|discriminate].
  injection Hentries as <-.
  split; [exists sorted; split; reflexivity|].
  split; [exact Hfilter|].
  intros value Hin.
  apply in_app_or in Hin. destruct Hin as [Hin|Hin].
  - apply add_pagination_names in Hin. unfold reserved_names.
    destruct Hin as [-> | ->]; cbn; auto.
  - apply in_app_or in Hin. destruct Hin as [Hin|Hin].
    + apply (add_sort_names _ _ _ _ Hsorted) in Hin. unfold reserved_names.
      destruct Hin as [-> | ->]; cbn; auto.
    + exfalso. exact (Hfilter value Hin).
Qed.

Lemma buildQueryParams_skips_empty_filters_witness :
  DataProvider.buildQueryParams second_page_of_search
  = Resolved (URLSearchParams_toString
                [("page", "2"); ("page_size", "10"); ("search", "ann")])
  /\ (exists sorted,
        DataProvider.add_sort (get_opt second_page_of_search "sort") [] = Resolved sorted
        /\ [("page", "2"); ("page_size", "10"); ("search", "ann")]
           = (DataProvider.add_pagination (get_opt second_page_of_search "pagination") []
              ++ sorted
              ++ DataProvider.add_filter (get_opt second_page_of_search "filter") [])%list)
  /\ (forall value,
        ~ In ("status", value)
             (DataProvider.add_filter (get_opt second_page_of_search "filter") []))
  /\ (forall value : string,
        In ("status", value) [("page", "2"); ("page_size", "10"); ("search", "ann")] ->
        In "status" reserved_names).
Proof.
  apply (proj1 buildQueryParams_skips_empty_filters second_page_of_search
               [("page", "2"); ("page_size", "10"); ("search", "ann")] "status").
  - reflexivity.
  - left. reflexivity.
Defined.

(** ** The filter values in the query string *)

Lemma not_skipped_kept (value : Val) :
  ~ skipped value ->
  negb (is_null value) && negb (is_undefined value) && negb (is_string "" value) = true.
Proof.
  unfold skipped. intros Hkept.
  destruct value as [| |b|n|s|xs|fields|name message]; try reflexivity.
  - exfalso. auto.
  - exfalso. auto.
  - cbn. destruct (String.eqb_spec s ""); [subst; exfalso; auto | reflexivity].
Qed.

Lemma add_filter_keys_keep filter keys (q : URLSearchParams) (entry : string * string) :
  In entry q -> In entry (fold_left (DataProvider.add_filter_key filter) keys q).
Proof.
  intros Hin. rewrite add_filter_keys_app. apply in_or_app. now left.
Qed.

(** The filter loop writes, for every entry that it does not skip, the key
    with the [encodeURIComponent] of the value. *)
Lemma add_filter_writes filter (key : string) :
  truthy filter = true ->
  In key (Object_keys filter) ->
  ~ skipped (get_opt filter key) ->
  In (key, encodeURIComponent (ToString (get_opt filter key)))
     (DataProvider.add_filter filter []).
Proof.
  intros Htruthy Hkey Hkept. unfold DataProvider.add_filter. rewrite Htruthy.
  generalize ([] : URLSearchParams) as q.
  induction (Object_keys filter) as [|k keys IH]; [destruct Hkey|].
  intros q. cbn [fold_left]. destruct Hkey as [->|Hkey]; [|now apply IH].
  apply add_filter_keys_keep. unfold DataProvider.add_filter_key, append.
  rewrite (not_skipped_kept _ Hkept). apply in_or_app. right. now left.
Qed.

Lemma join_member (sep x : string) (l : list string) :
  In x l -> exists a b, join sep l = a ++ x ++ b.
Proof.
  induction l as [|y l IH]; [intros []|].
  intros [->|Hin].
  - destruct l as [|z l].
    + exists "", "". now rewrite append_nil_l, append_empty_r.
    + exists "", (sep ++ join sep (z :: l)).
      now rewrite append_nil_l, join_cons by discriminate.
  - destruct (IH Hin) as (a & b & Hjoin).
    exists (y ++ sep ++ a), b.
    rewrite join_cons by (destruct l; [destruct Hin | discriminate]).
    rewrite Hjoin. now rewrite !append_assoc.
Qed.

(** In the query string, such an entry reads [key=value] with the value
    escaped by [encodeURIComponent] and then once more by the serializer,
    which escapes the key as well. *)
Lemma buildQueryParams_filter_parameter (params : Val) (queryString key : string) :
  DataProvider.buildQueryParams params = Resolved queryString ->
  truthy (get_opt params "filter") = true ->
  In key (Object_keys (get_opt params "filter")) ->
  ~ skipped (get_opt (get_opt params "filter") key) ->
  includes
    (form_urlencode key ++ "="
     ++ form_urlencode
          (encodeURIComponent (ToString (get_opt (get_opt params "filter") key))))
    queryString = true.
Proof.
  intros Hquery Htruthy Hkey Hkept.
  unfold DataProvider.buildQueryParams in Hquery.
  destruct (DataProvider.buildQueryParams_entries params) as [entries|] eqn:Hentries;
    cbn in Hquery; [|discriminate].
  injection Hquery as <-.
  assert (is_nullish params = false) as Hparams.
  { unfold DataProvider.buildQueryParams_entries in Hentries.
    destruct (destructure "params" params "pagination") eqn:Hd; [|discriminate].
    eapply destructure_resolved; eauto. }
  rewrite (buildQueryParams_entries_parts params Hparams) in Hentries.
  destruct (DataProvider.add_sort (get_opt params "sort") []) as [sorted|];
    cbn in Hentries; [|discriminate].
  injection Hentries as <-.
  pose proof (add_filter_writes _ key Htruthy Hkey Hkept) as Hin.
  unfold URLSearchParams_toString.
  match goal with
  | |- includes ?x (join "&" (List.map ?f ?l)) = true =>
      destruct (join_member "&" x (List.map f l)) as (a & b & ->);
        [|apply includes_append]
  end.
  apply in_map_iff. eexists (_, _). split; [reflexivity|].
  apply in_or_app. right. apply in_or_app. right. exact Hin.
Qed.

(** ** [exportCSV] *)

Import EndpointSamples.

Lemma includes_suffix (x a : string) : includes x (a ++ x) = true.
Proof.
  rewrite <- (append_empty_r x) at 2. apply includes_append.
Qed.

Lemma headers_get_content_type (response : Response) :
  headers_get "content-type" response
  = match resp_headers response !! "content-type" with
    | Some v => VStr v
    | None => VNull
    end.
Proof. reflexivity. Qed.

(** C8, as the program has it.  For a successful response whose
    content-type is present and not empty: when it contains neither
    [text/csv] nor [application/octet-stream], the export rejects with an
    error whose message ends with the first 200 characters of the body;
    when it contains one of them, the export resolves with the body as a
    blob.  A [text/plain] response with body [oops] is rejected with a
    message that contains [oops]. *)
Theorem exportCSV_content_type :
  (forall REACT_APP_API_URL fetch JSON_parse store filters sort response contentType,
     fetch (exportCSV_request REACT_APP_API_URL store filters sort) = Responded response ->
     ok response = true ->
     resp_headers response !! "content-type" = Some contentType ->
     (contentType <> "" ->
      includes "text/csv" contentType = false ->
      includes "application/octet-stream" contentType = false ->
      exportCSV REACT_APP_API_URL fetch JSON_parse store filters sort
      = Rejected (VError "Error"
                    ("Unexpected response type: " ++ contentType ++ ". Response: "
                     ++ substring0 200 (resp_body response)))
      /\ includes (substring0 200 (resp_body response))
                  ("Unexpected response type: " ++ contentType ++ ". Response: "
                   ++ substring0 200 (resp_body response)) = true)
     /\ (includes "text/csv" contentType = true
         \/ includes "application/octet-stream" contentType = true ->
         exportCSV REACT_APP_API_URL fetch JSON_parse store filters sort
         = Resolved (blob response)))
  /\ exportCSV None (always plain_oops) parse_literal admin_session VUndefined VUndefined
     = Rejected (VError "Error" "Unexpected response type: text/plain. Response: oops")
  /\ includes "oops" "Unexpected response type: text/plain. Response: oops" = true.
Proof.
  split; [|split; reflexivity].
  intros REACT_APP_API_URL fetch JSON_parse store filters sort response contentType
         Hfetch Hok Htype.
  unfold exportCSV, await_fetch. rewrite Hfetch. cbn [mbind Completion_bind].
  unfold exportCSV_response. rewrite Hok, headers_get_content_type, Htype.
  cbn [negb includes_in truthy ToString]. split.
  - intros Hnonempty Hcsv Hoctet. rewrite Hcsv, Hoctet.
    apply String.eqb_neq in Hnonempty. rewrite Hnonempty. cbn [negb andb].
    split; [reflexivity|].
    rewrite <- !append_assoc. apply includes_suffix.
  - intros [Hcsv|Hoctet].
    + rewrite Hcsv. cbn [negb]. now rewrite andb_false_r.
    + rewrite Hoctet. cbn [negb]. now rewrite andb_false_r.
Qed.

Lemma exportCSV_content_type_witness :
  ("text/plain" <> "" ->
   includes "text/csv" "text/plain" = false ->
   includes "application/octet-stream" "text/plain" = false ->
   exportCSV None (always plain_oops) parse_literal admin_session VUndefined VUndefined
   = Rejected (VError "Error"
                 ("Unexpected response type: " ++ "text/plain" ++ ". Response: "
                  ++ substring0 200 (resp_body plain_oops)))
   /\ includes (substring0 200 (resp_body plain_oops))
               ("Unexpected response type: " ++ "text/plain" ++ ". Response: "
                ++ substring0 200 (resp_body plain_oops)) = true)
  /\ (includes "text/csv" "text/plain" = true
      \/ includes "application/octet-stream" "text/plain" = true ->
      exportCSV None (always plain_oops) parse_literal admin_session VUndefined VUndefined
      = Resolved (blob plain_oops)).
Proof.
  apply (proj1 exportCSV_content_type None (always plain_oops) parse_literal
               admin_session VUndefined VUndefined plain_oops "text/plain");
    reflexivity.
Defined.

(** C8, as the specification has it, fails: a content-type header that is
    present with an empty value is neither of the two types, and the export
    resolves with a blob. *)
Lemma exportCSV_empty_content_type :
  ok empty_type_oops = true
  /\ resp_headers empty_type_oops !! "content-type" = Some ""
  /\ includes "text/csv" "" = false
  /\ includes "application/octet-stream" "" = false
  /\ exportCSV None (always empty_type_oops) parse_literal admin_session
       VUndefined VUndefined
     = Resolved {| blob_data := "oops" |}.
Proof. repeat split. Qed.

(** C10.  A successful response without a content-type header is not
    examined: the export resolves with its body as a blob. *)
Theorem exportCSV_without_content_type
    REACT_APP_API_URL fetch JSON_parse store filters sort response :
  fetch (exportCSV_request REACT_APP_API_URL store filters sort) = Responded response ->
  ok response = true ->
  resp_headers response !! "content-type" = None ->
  exportCSV REACT_APP_API_URL fetch JSON_parse store filters sort
  = Resolved {| blob_data := resp_body response |}.
Proof.
  intros Hfetch Hok Htype.
  unfold exportCSV, await_fetch. rewrite Hfetch. cbn [mbind Completion_bind].
  unfold exportCSV_response, blob.
  rewrite Hok, headers_get_content_type, Htype. reflexivity.
Qed.

Lemma exportCSV_without_content_type_witness :
  exportCSV None (always untyped_csv) parse_literal admin_session VUndefined VUndefined
  = Resolved {| blob_data := resp_body untyped_csv |}.
Proof.
  apply (exportCSV_without_content_type None (always untyped_csv) parse_literal
           admin_session VUndefined VUndefined untyped_csv);
    reflexivity.
Defined.

(** ** [login] *)

(** What the endpoint call rejects with: the error of [fetch] itself when
    the network fails, [Error: Login failed] for a response that is not
    [ok], the SyntaxError of the parser for a body that is not JSON. *)
Lemma authAPI_login_rejections REACT_APP_API_URL fetch JSON_parse JSON_stringify
    username password error :
  authAPI_login REACT_APP_API_URL fetch JSON_parse JSON_stringify username password
    = Rejected error ->
  (exists name message, error = VError name message /\
     exists request, fetch request = Failed name message)
  \/ error = VError "Error" "Login failed"
  \/ (exists text, JSON_parse text = Rejected error).
Proof.
  unfold authAPI_login, await_fetch.
  match goal with
  | |- context [fetch ?r] => destruct (fetch r) as [response|name message] eqn:Hfetch
  end; cbn [mbind Completion_bind].
  - destruct (negb (ok response)).
    + intros [= <-]. right. left. reflexivity.
    + destruct (JSON_parse (resp_body response)) eqn:Hparse; cbn; [discriminate|].
      intros [= <-]. right. right. eauto.
  - intros [= <-]. left. eauto 6.
Qed.

(** C9.  [login] called with the credentials [{ username, password }]:
    when the endpoint call resolves with an object, [login] resolves and the
    storage holds the token and the role of that object under [token] and
    [account_role]; when the endpoint call rejects, [login] rejects with the
    very same error and the storage is as it was. *)
Theorem login_outcome REACT_APP_API_URL fetch JSON_parse JSON_stringify
    (credentials : Val) (store : gmap string string) :
  is_nullish credentials = false ->
  (forall data,
     authAPI_login REACT_APP_API_URL fetch JSON_parse JSON_stringify
       (get_opt credentials "username") (get_opt credentials "password")
       = Resolved data ->
     is_nullish data = false ->
     login REACT_APP_API_URL fetch JSON_parse JSON_stringify credentials store
     = (Resolved (),
        <["account_role" := ToString (get_opt data "account_role")]>
          (<["token" := ToString (get_opt data "token")]> store)))
  /\ (forall token role,
     authAPI_login REACT_APP_API_URL fetch JSON_parse JSON_stringify
       (get_opt credentials "username") (get_opt credentials "password")
       = Resolved (VObj [("token", VStr token); ("account_role", VStr role)]) ->
     login REACT_APP_API_URL fetch JSON_parse JSON_stringify credentials store
     = (Resolved (), <["account_role" := role]> (<["token" := token]> store)))
  /\ (forall error,
     authAPI_login REACT_APP_API_URL fetch JSON_parse JSON_stringify
       (get_opt credentials "username") (get_opt credentials "password")
       = Rejected error ->
     login REACT_APP_API_URL fetch JSON_parse JSON_stringify credentials store
     = (Rejected error, store)).
Proof.
  intros Hcredentials.
  assert (forall k, destructure_parameter credentials k = Resolved (get_opt credentials k))
    as Hparameter.
  { intros k. unfold get_opt. destruct credentials; try discriminate; reflexivity. }
  unfold login, login_try. rewrite !Hparameter. cbn [mbind Completion_bind].
  split; [|split].
  - intros data Hdata Hobject. rewrite Hdata. cbn [mbind Completion_bind].
    rewrite !(destructure_non_nullish _ _ _ Hobject). reflexivity.
  - intros token role Hdata. rewrite Hdata. reflexivity.
  - intros error Hrejected. rewrite Hrejected. reflexivity.
Qed.

Lemma login_outcome_witness :
  login None (always login_ok) parse_login stringify_literal ann_secret ∅
  = (Resolved (), <["account_role" := "admin"]> (<["token" := "t1"]> ∅))
  /\ login None (always login_refused) parse_login stringify_literal ann_secret
           admin_session
     = (Rejected (VError "Error" "Login failed"), admin_session).
Proof.
  split.
  - apply (proj1 (proj2 (login_outcome None (always login_ok) parse_login
                           stringify_literal ann_secret ∅ eq_refl))
             "t1" "admin").
    reflexivity.
  - apply (proj2 (proj2 (login_outcome None (always login_refused) parse_login
                           stringify_literal ann_secret admin_session eq_refl))
             (VError "Error" "Login failed")).
    reflexivity.
Defined.

(** * Further properties *)

Import SessionSamples.

(** ** The session store *)

Ltac lookup_session :=
  repeat first
    [ rewrite lookup_delete_eq
    | rewrite lookup_insert_eq
    | rewrite lookup_delete_ne by congruence
    | rewrite lookup_insert_ne by congruence ];
  try reflexivity.

Lemma setStoredAuth_lookup_token token role (store : gmap string string) :
  setStoredAuth token role store !! "token" = Some (ToString token).
Proof.
  unfold setStoredAuth, setItem.
  rewrite lookup_insert_ne by discriminate. apply lookup_insert_eq.
Qed.

Lemma setStoredAuth_lookup_role token role (store : gmap string string) :
  setStoredAuth token role store !! "account_role" = Some (ToString role).
Proof. unfold setStoredAuth, setItem. apply lookup_insert_eq. Qed.

(** X1.  What [setStoredAuth] stores, [getStoredAuth] reads back as
    strings: the token and the role converted to strings, so that a missing
    token is read back as the string [undefined]; the other keys of the
    storage are left alone. *)
Theorem setStoredAuth_getStoredAuth (token role : Val) (store : gmap string string)
    (key : string) :
  key <> "token" -> key <> "account_role" ->
  getStoredAuth (setStoredAuth token role store)
  = {| ApiService.token := VStr (ToString token);
       accountRole := VStr (ToString role) |}
  /\ getStoredAuth (setStoredAuth VUndefined VUndefined store)
     = {| ApiService.token := VStr "undefined"; accountRole := VStr "undefined" |}
  /\ setStoredAuth token role store !! key = store !! key.
Proof.
  intros Htoken Hrole. unfold getStoredAuth, getItem.
  rewrite !setStoredAuth_lookup_token, !setStoredAuth_lookup_role.
  repeat split. unfold setStoredAuth, setItem.
  now rewrite !lookup_insert_ne by congruence.
Qed.

Lemma setStoredAuth_getStoredAuth_witness :
  getStoredAuth (setStoredAuth (VStr "t2") (VNum 7) themed_session)
  = {| ApiService.token := VStr (ToString (VStr "t2"));
       accountRole := VStr (ToString (VNum 7)) |}
  /\ getStoredAuth (setStoredAuth VUndefined VUndefined themed_session)
     = {| ApiService.token := VStr "undefined"; accountRole := VStr "undefined" |}
  /\ setStoredAuth (VStr "t2") (VNum 7) themed_session !! "theme"
     = themed_session !! "theme".
Proof.
  apply (setStoredAuth_getStoredAuth (VStr "t2") (VNum 7) themed_session "theme");
    discriminate.
Defined.

(** X2.  [clearStoredAuth] forgets whatever [setStoredAuth] stored: clearing
    after storing is clearing, clearing twice is clearing once, and after
    it both entries read as [null]. *)
Theorem clearStoredAuth_forgets (token role : Val) (store : gmap string string) :
  clearStoredAuth (setStoredAuth token role store) = clearStoredAuth store
  /\ clearStoredAuth (clearStoredAuth store) = clearStoredAuth store
  /\ getStoredAuth (clearStoredAuth store)
     = {| ApiService.token := VNull; accountRole := VNull |}.
Proof.
  unfold clearStoredAuth, setStoredAuth, removeItem, setItem, getStoredAuth, getItem.
  repeat split.
  - apply map_eq. intros k.
    destruct (decide (k = "account_role")) as [->|Hrole];
      [|destruct (decide (k = "token")) as [->|Htoken]];
      lookup_session.
  - apply map_eq. intros k.
    destruct (decide (k = "account_role")) as [->|Hrole];
      [|destruct (decide (k = "token")) as [->|Htoken]];
      lookup_session.
  - lookup_session.
Qed.

Import LoginSamples.

(** ** Objects *)

Lemma has_field_cons (k k' : string) (v' : Val) (fs : list (string * Val)) :
  has_field k ((k', v') :: fs) = String.eqb k' k || has_field k fs.
Proof. reflexivity. Qed.

Lemma lookup_replace_field_eq (k : string) (v : Val) (fs : list (string * Val)) :
  has_field k fs = true -> lookup_field k (replace_field k v fs) = v.
Proof.
  induction fs as [|[k' v'] fs IH]; [discriminate|].
  rewrite has_field_cons. cbn [replace_field].
  destruct (String.eqb k' k) eqn:E; cbn [orb lookup_field].
  - now rewrite String.eqb_refl.
  - rewrite E. exact IH.
Qed.

Lemma lookup_replace_field_ne (k k0 : string) (v : Val) (fs : list (string * Val)) :
  k <> k0 -> lookup_field k (replace_field k0 v fs) = lookup_field k fs.
Proof.
  intros Hne. induction fs as [|[k' v'] fs IH]; [reflexivity|].
  cbn [replace_field lookup_field].
  destruct (String.eqb_spec k' k0) as [->|Hk']; cbn [lookup_field].
  - destruct (String.eqb_spec k0 k); [congruence | reflexivity].
  - destruct (String.eqb_spec k' k); [reflexivity | exact IH].
Qed.

Lemma lookup_insert_index_eq (n : N) (k : string) (v : Val) (fs : list (string * Val)) :
  has_field k fs = false -> lookup_field k (insert_index n k v fs) = v.
Proof.
  induction fs as [|[k' v'] fs IH]; cbn [insert_index lookup_field].
  - now rewrite String.eqb_refl.
  - rewrite has_field_cons. intros [Hk' Hfs]%orb_false_iff.
    destruct (array_index k') as [m|]; [destruct (m <? n)%N|];
      cbn [lookup_field]; rewrite ?String.eqb_refl, ?Hk'; auto.
Qed.

Lemma lookup_insert_index_ne (n : N) (k k0 : string) (v : Val) (fs : list (string * Val)) :
  k <> k0 -> lookup_field k (insert_index n k0 v fs) = lookup_field k fs.
Proof.
  intros Hne. apply String.eqb_neq in Hne. rewrite String.eqb_sym in Hne.
  induction fs as [|[k' v'] fs IH]; cbn [insert_index lookup_field].
  - now rewrite Hne.
  - destruct (array_index k') as [m|]; [destruct (m <? n)%N|];
      cbn [lookup_field]; rewrite ?Hne; try reflexivity.
    now rewrite IH.
Qed.

Lemma lookup_field_app (k : string) (fs gs : list (string * Val)) :
  lookup_field k (fs ++ gs)%list
  = if has_field k fs then lookup_field k fs else lookup_field k gs.
Proof.
  induction fs as [|[k' v'] fs IH]; [reflexivity|].
  rewrite has_field_cons. cbn [app lookup_field].
  destruct (String.eqb k' k); [reflexivity | exact IH].
Qed.

Lemma lookup_field_absent (k : string) (fs : list (string * Val)) :
  has_field k fs = false -> lookup_field k fs = VUndefined.
Proof.
  induction fs as [|[k' v'] fs IH]; [reflexivity|].
  rewrite has_field_cons. cbn [lookup_field].
  destruct (String.eqb k' k); [discriminate | exact IH].
Qed.

Lemma lookup_set_field_eq (k : string) (v : Val) (fs : list (string * Val)) :
  lookup_field k (set_field k v fs) = v.
Proof.
  unfold set_field. destruct (has_field k fs) eqn:Hhas.
  - now apply lookup_replace_field_eq.
  - destruct (array_index k) as [n|].
    + now apply lookup_insert_index_eq.
    + rewrite lookup_field_app, Hhas. cbn. now rewrite String.eqb_refl.
Qed.

Lemma lookup_set_field_ne (k k0 : string) (v : Val) (fs : list (string * Val)) :
  k <> k0 -> lookup_field k (set_field k0 v fs) = lookup_field k fs.
Proof.
  intros Hne. unfold set_field. destruct (has_field k0 fs).
  - now apply lookup_replace_field_ne.
  - destruct (array_index k0) as [n|].
    + now apply lookup_insert_index_ne.
    + rewrite lookup_field_app.
      destruct (has_field k fs) eqn:Hhas; [reflexivity|].
      cbn. apply String.eqb_neq in Hne. rewrite String.eqb_sym in Hne.
      rewrite Hne. symmetry. now apply lookup_field_absent.
Qed.

Lemma existsb_eqb_In (k : string) (keys : list string) :
  existsb (String.eqb k) keys = true <-> In k keys.
Proof.
  rewrite existsb_exists. split.
  - intros (x & Hin & Heq). apply String.eqb_eq in Heq. now subst.
  - intros Hin. exists k. split; [exact Hin | apply String.eqb_refl].
Qed.

Lemma lookup_field_not_In (k : string) (fs : list (string * Val)) :
  ~ In k (List.map fst fs) -> lookup_field k fs = VUndefined.
Proof.
  induction fs as [|[k' v'] fs IH]; cbn; [reflexivity|].
  intros Hnot. destruct (String.eqb_spec k' k); [exfalso; auto | auto].
Qed.

(** In [{...a, ...b}] the properties of [b] win. *)
Lemma lookup_spread_over (k : string) (a b : list (string * Val)) :
  NoDup (List.map fst b) ->
  lookup_field k (spread_over a b)
  = if existsb (String.eqb k) (List.map fst b) then lookup_field k b
    else lookup_field k a.
Proof.
  unfold spread_over. revert a.
  induction b as [|[k0 v0] b IH]; intros a Hnodup; cbn [fold_left List.map existsb fst snd].
  - reflexivity.
  - inversion Hnodup as [|? ? Hfresh Hrest]; subst.
    rewrite (IH _ Hrest). cbn [lookup_field].
    destruct (String.eqb_spec k k0) as [->|Hne]; cbn [orb].
    + rewrite String.eqb_refl.
      destruct (existsb (String.eqb k0) (List.map fst b)) eqn:Hin.
      * apply existsb_eqb_In, list_elem_of_In in Hin. contradiction.
      * apply lookup_set_field_eq.
    + destruct (String.eqb_spec k0 k); [congruence|].
      destruct (existsb (String.eqb k) (List.map fst b)); [reflexivity|].
      now apply lookup_set_field_ne.
Qed.

(** ** The headers of a request *)

(** X3.  In the request of [fetchJson] a header given by the caller
    replaces the default of the same name, and the other defaults stay:
    [Content-Type] is [application/json], and [Authorization] is [Bearer]
    with the stored token, or the empty string when no token, or an empty
    one, is stored. *)
Theorem fetchJson_request_headers (store : gmap string string) (url : string)
    (options : Options) (name : string) :
  NoDup (List.map fst (opt_headers options)) ->
  lookup_field name (req_headers (fetchJson_request store url options))
  = (if existsb (String.eqb name) (List.map fst (opt_headers options))
     then lookup_field name (opt_headers options)
     else lookup_field name (getAuthHeaders store))
  /\ lookup_field "Content-Type" (getAuthHeaders store) = VStr "application/json"
  /\ lookup_field "Authorization" (getAuthHeaders store)
     = match store !! "token" with
       | Some t => if String.eqb t "" then VStr "" else VStr ("Bearer " ++ t)
       | None => VStr ""
       end.
Proof.
  intros Hnodup. split; [|split].
  - unfold fetchJson_request. cbn [req_headers]. now apply lookup_spread_over.
  - reflexivity.
  - unfold getAuthHeaders, getItem, bearer. cbn.
    destruct (store !! "token") as [t|]; cbn; [|reflexivity].
    destruct (String.eqb t ""); reflexivity.
Qed.

Lemma fetchJson_request_headers_witness :
  lookup_field "Content-Type"
    (req_headers (fetchJson_request admin_session "http://localhost:8000/users" with_accept))
  = (if existsb (String.eqb "Content-Type") (List.map fst (opt_headers with_accept))
     then lookup_field "Content-Type" (opt_headers with_accept)
     else lookup_field "Content-Type" (getAuthHeaders admin_session))
  /\ lookup_field "Content-Type" (getAuthHeaders admin_session) = VStr "application/json"
  /\ lookup_field "Authorization" (getAuthHeaders admin_session)
     = match admin_session !! "token" with
       | Some t => if String.eqb t "" then VStr "" else VStr ("Bearer " ++ t)
       | None => VStr ""
       end.
Proof.
  apply (fetchJson_request_headers admin_session "http://localhost:8000/users"
           with_accept "Content-Type").
  apply NoDup_cons_2; [|apply NoDup_cons_2; [|apply NoDup_nil_2]].
  - intros Hin. apply list_elem_of_In in Hin. cbn in Hin. intuition discriminate.
  - intros Hin. apply list_elem_of_In in Hin. cbn in Hin. intuition discriminate.
Defined.

(** ** The auth provider's operations, one after the other *)

Lemma getPermissions_of_role (store : gmap string string) (role : option string) :
  store !! "account_role" = role ->
  getPermissions store = Resolved (capability_table role).
Proof.
  intros Hrole. unfold getPermissions, getStoredAuth, getItem, capability_table.
  cbn [accountRole]. rewrite Hrole.
  destruct role as [role|]; cbn [is_string].
  - destruct (String.eqb_spec role "admin") as [->|Hadmin].
    + now rewrite decide_True.
    + rewrite decide_False by congruence.
      destruct (String.eqb_spec role "corporate_admin") as [->|Hcorp].
      * now rewrite decide_True.
      * now rewrite decide_False by congruence.
  - now rewrite !decide_False.
Qed.

Lemma checkAuth_of_token (store : gmap string string) :
  checkAuth store
  = match store !! "token" with
    | Some t => if String.eqb t "" then Rejected VUndefined else Resolved ()
    | None => Rejected VUndefined
    end.
Proof.
  unfold checkAuth, getStoredAuth, getItem. cbn [ApiService.token].
  destruct (store !! "token") as [t|]; cbn; [|reflexivity].
  destruct (String.eqb t ""); reflexivity.
Qed.

(** X4.  [logout] always resolves, and whatever the storage held, after it
    [checkAuth] and [getIdentity] reject, [getPermissions] grants nothing,
    and requests carry an empty [Authorization] header. *)
Theorem logout_ends_session (store : gmap string string) :
  (logout store).1 = Resolved ()
  /\ checkAuth (logout store).2 = Rejected VUndefined
  /\ getIdentity (logout store).2 = Rejected VUndefined
  /\ getPermissions (logout store).2 = Resolved no_permissions
  /\ lookup_field "Authorization" (getAuthHeaders (logout store).2) = VStr "".
Proof.
  assert ((logout store).2 !! "token" = None) as Htoken.
  { unfold logout, clearStoredAuth, removeItem. cbn [snd]. lookup_session. }
  assert ((logout store).2 !! "account_role" = None) as Hrole.
  { unfold logout, clearStoredAuth, removeItem. cbn [snd]. lookup_session. }
  split; [reflexivity|]. split; [|split; [|split]].
  - rewrite checkAuth_of_token, Htoken. reflexivity.
  - unfold getIdentity, getStoredAuth, getItem. cbn [ApiService.token].
    rewrite Htoken. reflexivity.
  - rewrite (getPermissions_of_role _ None Hrole). reflexivity.
  - unfold getAuthHeaders, getItem. rewrite Htoken. reflexivity.
Qed.

(** X5.  [checkAuth] and [getIdentity] agree: both resolve exactly when a
    token that is not the empty string is stored, and the identity then has
    the stored role, with [User] for a display name when no role, or an
    empty one, is stored. *)
Theorem checkAuth_getIdentity (store : gmap string string) :
  (checkAuth store = Resolved ()
   <-> exists t, store !! "token" = Some t /\ t <> "")
  /\ (checkAuth store = Resolved ()
      <-> getIdentity store
          = Resolved (VObj [("id", VStr "user");
                            ("fullName",
                             match store !! "account_role" with
                             | Some r => if String.eqb r "" then VStr "User" else VStr r
                             | None => VStr "User"
                             end);
                            ("role", getItem "account_role" store)]))
  /\ (checkAuth store = Rejected VUndefined <-> getIdentity store = Rejected VUndefined).
Proof.
  rewrite checkAuth_of_token.
  unfold getIdentity, getStoredAuth, getItem. cbn [ApiService.token accountRole].
  destruct (store !! "token") as [t|]; cbn [truthy].
  - destruct (String.eqb_spec t "") as [->|Hne]; cbn [negb].
    + repeat split; try discriminate; try (intros _; reflexivity).
      intros (t & [= <-] & Ht). contradiction.
    + repeat split; try discriminate; eauto.
      intros _. unfold or_else.
      destruct (store !! "account_role") as [r|]; cbn; [|reflexivity].
      destruct (String.eqb r ""); reflexivity.
  - repeat split; try discriminate; try (intros _; reflexivity).
    intros (t & [=] & _).
Qed.

Lemma login_resolved REACT_APP_API_URL fetch JSON_parse JSON_stringify
    (credentials data : Val) (store : gmap string string) :
  is_nullish credentials = false ->
  authAPI_login REACT_APP_API_URL fetch JSON_parse JSON_stringify
    (get_opt credentials "username") (get_opt credentials "password") = Resolved data ->
  is_nullish data = false ->
  login REACT_APP_API_URL fetch JSON_parse JSON_stringify credentials store
  = (Resolved (),
     setStoredAuth (get_opt data "token") (get_opt data "account_role") store).
Proof.
  intros Hcredentials Hdata Hobject. unfold login, login_try.
  assert (forall k, destructure_parameter credentials k = Resolved (get_opt credentials k))
    as Hparameter.
  { intros k. unfold get_opt. destruct credentials; try discriminate; reflexivity. }
  rewrite !Hparameter. cbn [mbind Completion_bind]. rewrite Hdata.
  cbn [mbind Completion_bind].
  rewrite !(destructure_non_nullish _ _ _ Hobject). reflexivity.
Qed.

(** X6.  After a [login] that succeeds, [getPermissions] resolves with the
    row of the policy table for the role that the endpoint returned, read
    as a string: a role that is missing from the answer is stored as the
    string [undefined] and grants nothing. *)
Theorem login_then_getPermissions REACT_APP_API_URL fetch JSON_parse JSON_stringify
    (credentials data : Val) (store : gmap string string) :
  is_nullish credentials = false ->
  authAPI_login REACT_APP_API_URL fetch JSON_parse JSON_stringify
    (get_opt credentials "username") (get_opt credentials "password") = Resolved data ->
  is_nullish data = false ->
  getPermissions
    (login REACT_APP_API_URL fetch JSON_parse JSON_stringify credentials store).2
  = Resolved (capability_table (Some (ToString (get_opt data "account_role"))))
  /\ (get_opt data "account_role" = VUndefined ->
      getPermissions
        (login REACT_APP_API_URL fetch JSON_parse JSON_stringify credentials store).2
      = Resolved no_permissions).
Proof.
  intros Hcredentials Hdata Hobject.
  rewrite (login_resolved _ _ _ _ _ _ _ Hcredentials Hdata Hobject). cbn [snd].
  rewrite (getPermissions_of_role _ _ (setStoredAuth_lookup_role _ _ _)).
  split; [reflexivity|]. intros ->. reflexivity.
Qed.

Lemma login_then_getPermissions_witness :
  getPermissions
    (login None (always tokenless_ok) parse_tokenless stringify_literal credentials ∅).2
  = Resolved (capability_table (Some (ToString (get_opt tokenless_data "account_role"))))
  /\ (get_opt tokenless_data "account_role" = VUndefined ->
      getPermissions
        (login None (always tokenless_ok) parse_tokenless stringify_literal credentials ∅).2
      = Resolved no_permissions).
Proof.
  apply (login_then_getPermissions None (always tokenless_ok) parse_tokenless
           stringify_literal credentials tokenless_data ∅);
    reflexivity.
Defined.

(** X7.  After a [login] that succeeds, [checkAuth] resolves exactly when
    the token that the endpoint returned, read as a string, is not empty.
    An answer without a token is stored as the string [undefined]: the
    session then counts as authenticated, and requests carry
    [Bearer undefined]. *)
Theorem login_then_checkAuth REACT_APP_API_URL fetch JSON_parse JSON_stringify
    (credentials data : Val) (store : gmap string string) :
  is_nullish credentials = false ->
  authAPI_login REACT_APP_API_URL fetch JSON_parse JSON_stringify
    (get_opt credentials "username") (get_opt credentials "password") = Resolved data ->
  is_nullish data = false ->
  (checkAuth (login REACT_APP_API_URL fetch JSON_parse JSON_stringify credentials store).2
   = Resolved ()
   <-> ToString (get_opt data "token") <> "")
  /\ (get_opt data "token" = VUndefined ->
      checkAuth
        (login REACT_APP_API_URL fetch JSON_parse JSON_stringify credentials store).2
      = Resolved ()
      /\ lookup_field "Authorization"
           (getAuthHeaders
              (login REACT_APP_API_URL fetch JSON_parse JSON_stringify credentials store).2)
         = VStr "Bearer undefined").
Proof.
  intros Hcredentials Hdata Hobject.
  rewrite (login_resolved _ _ _ _ _ _ _ Hcredentials Hdata Hobject). cbn [snd].
  rewrite checkAuth_of_token. unfold getAuthHeaders, getItem.
  rewrite setStoredAuth_lookup_token. split.
  - destruct (String.eqb_spec (ToString (get_opt data "token")) "") as [->|Hne].
    + split; [discriminate | intros H; now contradiction H].
    + split; [intros _; exact Hne | reflexivity].
  - intros ->. split; reflexivity.
Qed.

Lemma login_then_checkAuth_witness :
  (checkAuth
     (login None (always tokenless_ok) parse_tokenless stringify_literal credentials ∅).2
   = Resolved ()
   <-> ToString (get_opt tokenless_data "token") <> "")
  /\ (get_opt tokenless_data "token" = VUndefined ->
      checkAuth
        (login None (always tokenless_ok) parse_tokenless stringify_literal credentials ∅).2
      = Resolved ()
      /\ lookup_field "Authorization"
           (getAuthHeaders
              (login None (always tokenless_ok) parse_tokenless stringify_literal
                 credentials ∅).2)
         = VStr "Bearer undefined").
Proof.
  apply (login_then_checkAuth None (always tokenless_ok) parse_tokenless
           stringify_literal credentials tokenless_data ∅);
    reflexivity.
Defined.

(** ** [fetchJson]: the outcomes *)

Lemma detail_or_message_non_nullish (json : Val) (fallback : string) :
  is_nullish json = false ->
  detail_or_message json fallback
  = Resolved (if truthy (get_opt json "detail") then get_opt json "detail"
              else or_else (get_opt json "message") (VStr fallback)).
Proof.
  intros Hjson. unfold detail_or_message.
  rewrite !(get_non_nullish _ _ Hjson). cbn.
  destruct (truthy (get_opt json "detail")); reflexivity.
Qed.

(** The four shapes of the [switch] on the status. *)
Import FetchSamples.

Lemma status_message_shape (response : Response) (json : Val)
    (error : list (string * Val)) :
  (resp_status response = 401
   /\ status_message response json error
      = Resolved (set_field "message"
                    (VStr "Authentication required. Please log in again.") error))
  \/ (resp_status response = 503
      /\ status_message response json error
         = Resolved (set_field "message"
                       (VStr "Service unavailable. Please try again later.") error))
  \/ (resp_status response = 422
      /\ status_message response json error
         = (m ← detail_or_message json "Validation error. Please check your input.";
            detail ← get json "detail";
            Resolved (if truthy detail && Array_isArray detail
                      then set_field "validationErrors" detail
                             (set_field "message" m error)
                      else set_field "message" m error)))
  \/ (resp_status response <> 401 /\ resp_status response <> 503
      /\ resp_status response <> 422
      /\ status_message response json error
         = (m ← detail_or_message json (fallback_text (resp_status response));
            Resolved (set_field "message" m error))).
Proof.
  unfold status_message, fallback_text.
  destruct (resp_status response) as [|p|p];
    repeat (match goal with
            | |- context [match ?q with xI _ => _ | xO _ => _ | xH => _ end] =>
                destruct q
            end);
    first [ left; split; reflexivity
          | right; left; split; reflexivity
          | right; right; left; split; reflexivity
          | right; right; right; repeat (split; [discriminate|]);
            reflexivity ].
Qed.

(** The object that [fetchJson_then] starts from for a response that is not
    [ok]. *)
Lemma fetchJson_then_rejected (JSON_parse : string -> Completion Val) (url : string)
    (response : Response) :
  ok response = false ->
  is_nullish (parse_body JSON_parse (resp_body response)) = false ->
  exists fields,
    fetchJson_then JSON_parse url response = Rejected (VObj fields)
    /\ (forall k, k <> "message" -> k <> "validationErrors" ->
          lookup_field k fields
          = lookup_field k
              [("status", VNum (resp_status response));
               ("statusText", VStr (resp_statusText response));
               ("body", parse_body JSON_parse (resp_body response));
               ("url", VStr url)])
    /\ (resp_status response <> 401 -> resp_status response <> 503 ->
        lookup_field "message" fields
        = (if truthy (get_opt (parse_body JSON_parse (resp_body response)) "detail")
           then get_opt (parse_body JSON_parse (resp_body response)) "detail"
           else or_else (get_opt (parse_body JSON_parse (resp_body response)) "message")
                  (VStr (fallback_text (resp_status response))))).
Proof.
  intros Hok Hjson. unfold fetchJson_then. rewrite Hok. cbn [negb].
  set (json := parse_body JSON_parse (resp_body response)) in *.
  rewrite (detail_or_message_non_nullish _ _ Hjson). cbn [mbind Completion_bind].
  match goal with
  | |- context [status_message response json ?e] => set (error := e)
  end.
  assert (forall k m, k <> "message" ->
            lookup_field k (set_field "message" m error)
            = lookup_field k
                [("status", VNum (resp_status response));
                 ("statusText", VStr (resp_statusText response));
                 ("body", json); ("url", VStr url)]) as Hkeep.
  { intros k m Hk. rewrite lookup_set_field_ne by exact Hk. subst error.
    cbn [lookup_field].
    destruct (String.eqb "status" k); [reflexivity|].
    destruct (String.eqb "statusText" k); [reflexivity|].
    destruct (String.eqb_spec "message" k); [congruence | reflexivity]. }
  destruct (status_message_shape response json error)
    as [[Hs ->]|[[Hs ->]|[[Hs ->]|(H401 & H503 & H422 & ->)]]].
  - eexists. split; [reflexivity|]. split; [intros; now apply Hkeep|].
    intros H401. contradiction.
  - eexists. split; [reflexivity|]. split; [intros; now apply Hkeep|].
    intros _ H503. contradiction.
  - rewrite (detail_or_message_non_nullish _ _ Hjson), (get_non_nullish _ _ Hjson).
    cbn [mbind Completion_bind].
    destruct (truthy (get_opt json "detail") && Array_isArray (get_opt json "detail")).
    + eexists. split; [reflexivity|]. split.
      * intros k Hk Hv. rewrite lookup_set_field_ne by exact Hv. now apply Hkeep.
      * intros _ _. rewrite lookup_set_field_ne by discriminate.
        now rewrite lookup_set_field_eq, Hs.
    + eexists. split; [reflexivity|]. split; [intros; now apply Hkeep|].
      intros _ _. now rewrite lookup_set_field_eq, Hs.
  - rewrite (detail_or_message_non_nullish _ _ Hjson). cbn [mbind Completion_bind].
    eexists. split; [reflexivity|]. split; [intros; now apply Hkeep|].
    intros _ _. now rewrite lookup_set_field_eq.
Qed.

(** What the [.catch] callback makes of an error instance. *)
Lemma fetchJson_catch_Error {A} (url name message : string) :
  @fetchJson_catch A url (VError name message)
  = Rejected (VObj
      [("status", VNum 0);
       ("message",
        if String.eqb name "TypeError" && includes "fetch" message
        then VStr "Network error. Please check your connection and try again."
        else or_else (VStr message) (VStr "An unexpected error occurred"));
       ("body", VObj [("error", VStr message)]);
       ("url", VStr url)]).
Proof.
  unfold fetchJson_catch, message_includes_fetch. cbn.
  destruct (String.eqb name "TypeError"); cbn; [|reflexivity].
  destruct (includes "fetch" message); reflexivity.
Qed.

(** A response that is not [ok] is rejected with an object that carries a
    status: the status of the response, or 0 when the body parses to
    [null]. *)
Lemma fetchJson_not_ok fetch JSON_parse store url options response :
  fetch (fetchJson_request store url options) = Responded response ->
  ok response = false ->
  exists fields n,
    fetchJson fetch JSON_parse store url options = Rejected (VObj fields)
    /\ lookup_field "status" fields = VNum n
    /\ lookup_field "url" fields = VStr url
    /\ (n = 0 \/ n = resp_status response).
Proof.
  intros Hfetch Hok. unfold fetchJson, await_fetch. rewrite Hfetch.
  cbn [mbind Completion_bind].
  destruct (is_nullish (parse_body JSON_parse (resp_body response))) eqn:Hjson.
  - unfold fetchJson_then. rewrite Hok. cbn [negb].
    destruct (parse_body JSON_parse (resp_body response)); try discriminate Hjson;
      cbn [detail_or_message get mbind Completion_bind try_catch];
      unfold TypeError_read; rewrite fetchJson_catch_Error;
      do 2 eexists; (split; [reflexivity|]); repeat split; auto.
  - destruct (fetchJson_then_rejected JSON_parse url response Hok Hjson)
      as (fields & -> & Hkeep & _).
    cbn [try_catch]. rewrite fetchJson_catch_structured.
    + exists fields, (resp_status response). split; [reflexivity|].
      rewrite !Hkeep by discriminate. repeat split; auto.
    + now rewrite Hkeep by discriminate.
    + rewrite Hkeep by discriminate. discriminate.
Qed.

(** X8.  Whatever goes wrong, [fetchJson] rejects with a plain object that
    carries a number under [status] and the requested address under [url]:
    the status is that of a response that is not [ok], or 0. *)
Theorem fetchJson_rejects_with_status fetch JSON_parse store url options reason :
  fetchJson fetch JSON_parse store url options = Rejected reason ->
  exists fields n,
    reason = VObj fields
    /\ lookup_field "status" fields = VNum n
    /\ lookup_field "url" fields = VStr url
    /\ (n = 0
        \/ exists response,
             fetch (fetchJson_request store url options) = Responded response
             /\ ok response = false
             /\ n = resp_status response).
Proof.
  intros Hrejected.
  destruct (fetch (fetchJson_request store url options)) as [response|name message]
    eqn:Hfetch.
  - destruct (ok response) eqn:Hok.
    + unfold fetchJson, await_fetch, fetchJson_then in Hrejected.
      rewrite Hfetch in Hrejected. cbn [mbind Completion_bind] in Hrejected.
      rewrite Hok in Hrejected. discriminate Hrejected.
    + destruct (fetchJson_not_ok fetch JSON_parse store url options response Hfetch Hok)
        as (fields & n & Heq & Hstatus & Hurl & Hn).
      rewrite Heq in Hrejected. injection Hrejected as <-.
      exists fields, n. repeat split; auto.
      destruct Hn as [->| ->]; [now left | right; eauto].
  - unfold fetchJson, await_fetch in Hrejected. rewrite Hfetch in Hrejected.
    cbn [mbind Completion_bind try_catch] in Hrejected.
    rewrite fetchJson_catch_Error in Hrejected. injection Hrejected as <-.
    do 2 eexists. split; [reflexivity|]. repeat split. now left.
Qed.

Lemma fetchJson_rejects_with_status_witness :
  exists fields n,
    VObj [("status", VNum 404); ("statusText", VStr "Not Found");
          ("message", VStr "Resource not found."); ("body", VObj []);
          ("url", VStr "http://localhost:8000/users/7")]
    = VObj fields
    /\ lookup_field "status" fields = VNum n
    /\ lookup_field "url" fields = VStr "http://localhost:8000/users/7"
    /\ (n = 0
        \/ exists response,
             always not_found
               (fetchJson_request admin_session "http://localhost:8000/users/7" no_options)
             = Responded response
             /\ ok response = false
             /\ n = resp_status response).
Proof.
  apply (fetchJson_rejects_with_status (always not_found) parse_literal admin_session
           "http://localhost:8000/users/7" no_options).
  reflexivity.
Defined.

(** X9.  [fetchJson] resolves exactly for the responses that are [ok], and
    then with the status, the headers and the parsed body; a body that is
    empty parses to the empty object, and a body that is not JSON to an
    object with the text under [message] and [detail]: an [ok] response is
    never rejected for its body. *)
Theorem fetchJson_resolves_iff_ok fetch JSON_parse store url options result :
  fetchJson fetch JSON_parse store url options = Resolved result
  <-> exists response,
        fetch (fetchJson_request store url options) = Responded response
        /\ ok response = true
        /\ result = {| status := resp_status response;
                       headers := resp_headers response;
                       json :=
                         if String.eqb (resp_body response) "" then VObj []
                         else match JSON_parse (resp_body response) with
                              | Resolved json => json
                              | Rejected _ =>
                                  VObj [("message", VStr (resp_body response));
                                        ("detail", VStr (resp_body response))]
                              end |}.
Proof.
  assert (forall text,
            parse_body JSON_parse text
            = if String.eqb text "" then VObj []
              else match JSON_parse text with
                   | Resolved json => json
                   | Rejected _ => VObj [("message", VStr text); ("detail", VStr text)]
                   end) as Hparse.
  { intros text. unfold parse_body, or_else. cbn [truthy].
    destruct (String.eqb text ""); cbn [negb]; [reflexivity|].
    destruct (JSON_parse text); reflexivity. }
  split.
  - intros Hresolved.
    destruct (fetch (fetchJson_request store url options)) as [response|name message]
      eqn:Hfetch.
    + destruct (ok response) eqn:Hok.
      * exists response. split; [reflexivity|]. split; [exact Hok|].
        unfold fetchJson, await_fetch, fetchJson_then in Hresolved.
        rewrite Hfetch in Hresolved. cbn [mbind Completion_bind] in Hresolved.
        rewrite Hok in Hresolved. cbn [negb] in Hresolved. cbv zeta in Hresolved.
        injection Hresolved as <-. now rewrite Hparse.
      * destruct (fetchJson_not_ok fetch JSON_parse store url options response Hfetch Hok)
          as (fields & n & Heq & _).
        rewrite Heq in Hresolved. discriminate.
    + unfold fetchJson, await_fetch in Hresolved. rewrite Hfetch in Hresolved.
      cbn [mbind Completion_bind try_catch] in Hresolved.
      rewrite fetchJson_catch_Error in Hresolved. discriminate.
  - intros (response & Hfetch & Hok & ->).
    unfold fetchJson, await_fetch, fetchJson_then. rewrite Hfetch.
    cbn [mbind Completion_bind]. rewrite Hok. cbn [negb]. cbv zeta.
    now rewrite Hparse.
Qed.

(** X10.  When [fetch] itself fails, [fetchJson] rejects with status 0 and
    the failure's message under [body.error]; the message of the rejection
    is the connectivity message only for a TypeError whose message contains
    [fetch], and otherwise the failure's own message, or a generic one when
    that is empty. *)
Theorem fetchJson_network_failure fetch JSON_parse store url options name message :
  fetch (fetchJson_request store url options) = Failed name message ->
  fetchJson fetch JSON_parse store url options
  = Rejected (VObj
      [("status", VNum 0);
       ("message",
        if String.eqb name "TypeError" && includes "fetch" message
        then VStr "Network error. Please check your connection and try again."
        else if String.eqb message "" then VStr "An unexpected error occurred"
        else VStr message);
       ("body", VObj [("error", VStr message)]);
       ("url", VStr url)]).
Proof.
  intros Hfetch. unfold fetchJson, await_fetch. rewrite Hfetch.
  cbn [mbind Completion_bind try_catch]. rewrite fetchJson_catch_Error.
  unfold or_else. cbn [truthy].
  destruct (String.eqb message ""); reflexivity.
Qed.

Lemma fetchJson_network_failure_witness :
  fetchJson load_failed parse_literal admin_session "http://localhost:8000/users" no_options
  = Rejected (VObj
      [("status", VNum 0);
       ("message",
        if String.eqb "TypeError" "TypeError" && includes "fetch" "Load failed"
        then VStr "Network error. Please check your connection and try again."
        else if String.eqb "Load failed" "" then VStr "An unexpected error occurred"
        else VStr "Load failed");
       ("body", VObj [("error", VStr "Load failed")]);
       ("url", VStr "http://localhost:8000/users")]).
Proof.
  apply (fetchJson_network_failure load_failed parse_literal admin_session
           "http://localhost:8000/users" no_options "TypeError" "Load failed").
  reflexivity.
Defined.

(** X11.  For a response that is not [ok], with a status other than 401 and
    503 and a body that does not parse to [null], the message of the
    rejection is the [detail] of the body when it is truthy, else the
    [message] of the body when it is truthy, else the text fixed by the
    status: one text each for 400, 403, 404, 422 and 500, and
    [An error occurred] with the status for every other; the status and the
    parsed body are carried along. *)
Theorem fetchJson_error_message fetch JSON_parse store url options response :
  fetch (fetchJson_request store url options) = Responded response ->
  ok response = false ->
  is_nullish (parse_body JSON_parse (resp_body response)) = false ->
  resp_status response <> 401 ->
  resp_status response <> 503 ->
  exists fields,
    fetchJson fetch JSON_parse store url options = Rejected (VObj fields)
    /\ lookup_field "status" fields = VNum (resp_status response)
    /\ lookup_field "body" fields = parse_body JSON_parse (resp_body response)
    /\ lookup_field "message" fields
       = (if truthy (get_opt (parse_body JSON_parse (resp_body response)) "detail")
          then get_opt (parse_body JSON_parse (resp_body response)) "detail"
          else if truthy (get_opt (parse_body JSON_parse (resp_body response)) "message")
          then get_opt (parse_body JSON_parse (resp_body response)) "message"
          else VStr (if resp_status response =? 400
                     then "Bad request. Please check your input."
                     else if resp_status response =? 403
                     then "You do not have permission to perform this action."
                     else if resp_status response =? 404
                     then "Resource not found."
                     else if resp_status response =? 422
                     then "Validation error. Please check your input."
                     else if resp_status response =? 500
                     then "Internal server error. Please try again later."
                     else "An error occurred (" ++ Z_to_string (resp_status response)
                          ++ ")")).
Proof.
  intros Hfetch Hok Hjson H401 H503.
  unfold fetchJson, await_fetch. rewrite Hfetch. cbn [mbind Completion_bind].
  destruct (fetchJson_then_rejected JSON_parse url response Hok Hjson)
    as (fields & -> & Hkeep & Hmessage).
  cbn [try_catch]. rewrite fetchJson_catch_structured.
  - exists fields. split; [reflexivity|].
    rewrite !Hkeep by discriminate. split; [reflexivity|]. split; [reflexivity|].
    rewrite (Hmessage H401 H503). reflexivity.
  - now rewrite Hkeep by discriminate.
  - rewrite Hkeep by discriminate. discriminate.
Qed.

Lemma fetchJson_error_message_witness :
  exists fields,
    fetchJson (always not_found) parse_literal admin_session
      "http://localhost:8000/users" no_options = Rejected (VObj fields)
    /\ lookup_field "status" fields = VNum (resp_status not_found)
    /\ lookup_field "body" fields = parse_body parse_literal (resp_body not_found)
    /\ lookup_field "message" fields
       = (if truthy (get_opt (parse_body parse_literal (resp_body not_found)) "detail")
          then get_opt (parse_body parse_literal (resp_body not_found)) "detail"
          else if truthy (get_opt (parse_body parse_literal (resp_body not_found))
                            "message")
          then get_opt (parse_body parse_literal (resp_body not_found)) "message"
          else VStr (if resp_status not_found =? 400
                     then "Bad request. Please check your input."
                     else if resp_status not_found =? 403
                     then "You do not have permission to perform this action."
                     else if resp_status not_found =? 404
                     then "Resource not found."
                     else if resp_status not_found =? 422
                     then "Validation error. Please check your input."
                     else if resp_status not_found =? 500
                     then "Internal server error. Please try again later."
                     else "An error occurred (" ++ Z_to_string (resp_status not_found)
                          ++ ")")).
Proof.
  apply (fetchJson_error_message (always not_found) parse_literal admin_session
           "http://localhost:8000/users" no_options not_found);
    first [reflexivity | discriminate].
Defined.

(** X12.  For a 422 response whose body has a sequence under [detail], the
    rejection carries that sequence under [validationErrors], and under
    [message] as well; when the [detail] is not a sequence the rejection has
    no [validationErrors]. *)
Theorem fetchJson_validation_errors fetch JSON_parse store url options response :
  fetch (fetchJson_request store url options) = Responded response ->
  resp_status response = 422 ->
  is_nullish (parse_body JSON_parse (resp_body response)) = false ->
  (forall items,
     get_opt (parse_body JSON_parse (resp_body response)) "detail" = VArr items ->
     fetchJson fetch JSON_parse store url options
     = Rejected (VObj [("status", VNum 422);
                       ("statusText", VStr (resp_statusText response));
                       ("message", VArr items);
                       ("body", parse_body JSON_parse (resp_body response));
                       ("url", VStr url);
                       ("validationErrors", VArr items)]))
  /\ (Array_isArray (get_opt (parse_body JSON_parse (resp_body response)) "detail") = false ->
      exists fields,
        fetchJson fetch JSON_parse store url options = Rejected (VObj fields)
        /\ lookup_field "validationErrors" fields = VUndefined).
Proof.
  intros Hfetch Hstatus Hjson.
  unfold fetchJson, await_fetch. rewrite Hfetch. cbn [mbind Completion_bind].
  unfold fetchJson_then, ok, status_message. rewrite Hstatus.
  cbn [Z.leb Z.compare Pos.compare Pos.compare_cont andb negb].
  set (json := parse_body JSON_parse (resp_body response)) in *. cbv zeta.
  rewrite !(detail_or_message_non_nullish _ _ Hjson), (get_non_nullish _ _ Hjson).
  cbn [mbind Completion_bind].
  split.
  - intros items Hdetail. rewrite Hdetail. cbn. reflexivity.
  - intros Hnot. rewrite Hnot, andb_false_r. cbn [try_catch].
    rewrite fetchJson_catch_structured.
    + eexists. split; [reflexivity|].
      rewrite lookup_set_field_ne by discriminate. reflexivity.
    + rewrite lookup_set_field_ne by discriminate. reflexivity.
    + rewrite lookup_set_field_ne by discriminate. discriminate.
Qed.

Lemma fetchJson_validation_errors_witness :
  fetchJson (always unprocessable) parse_detail_list admin_session
    "http://localhost:8000/users" no_options
  = Rejected (VObj [("status", VNum 422);
                    ("statusText", VStr (resp_statusText unprocessable));
                    ("message", VArr [VObj [("loc", VStr "email"); ("msg", VStr "taken")]]);
                    ("body", parse_body parse_detail_list (resp_body unprocessable));
                    ("url", VStr "http://localhost:8000/users");
                    ("validationErrors",
                     VArr [VObj [("loc", VStr "email"); ("msg", VStr "taken")]])]).
Proof.
  apply (proj1 (fetchJson_validation_errors (always unprocessable) parse_detail_list
                  admin_session "http://localhost:8000/users" no_options unprocessable
                  eq_refl eq_refl eq_refl)).
  reflexivity.
Defined.

Import TransferSamples.

(** ** [login] on a refusal *)

(** X13.  When the login endpoint answers with a response that is not
    [ok], [login] rejects with the error [Login failed], whatever the
    status and the body of the response, and the storage is as it was. *)
Theorem login_refused_message REACT_APP_API_URL fetch JSON_parse JSON_stringify
    (credentials : Val) (store : gmap string string) (response : Response) :
  is_nullish credentials = false ->
  fetch (login_request REACT_APP_API_URL JSON_stringify credentials) = Responded response ->
  ok response = false ->
  login REACT_APP_API_URL fetch JSON_parse JSON_stringify credentials store
  = (Rejected (VError "Error" "Login failed"), store).
Proof.
  intros Hcredentials Hfetch Hok. unfold login, login_try.
  assert (forall k, destructure_parameter credentials k = Resolved (get_opt credentials k))
    as Hparameter.
  { intros k. unfold get_opt. destruct credentials; try discriminate; reflexivity. }
  rewrite !Hparameter. cbn [mbind Completion_bind].
  unfold authAPI_login, await_fetch. unfold login_request in Hfetch. rewrite Hfetch.
  cbn [mbind Completion_bind]. rewrite Hok. reflexivity.
Qed.

Lemma login_refused_message_witness :
  login None (always server_error) parse_literal stringify_literal credentials admin_session
  = (Rejected (VError "Error" "Login failed"), admin_session).
Proof.
  apply (login_refused_message None (always server_error) parse_literal stringify_literal
           credentials admin_session server_error);
    reflexivity.
Defined.

(** ** [trim] *)

Lemma trimStart_no_leading_space (s : string) : no_leading_space (trimStart s).
Proof.
  induction s as [|c s IH]; cbn; [exact I|].
  destruct (is_space c) eqn:Hc; [exact IH | exact Hc].
Qed.

Lemma trimStart_id (s : string) : no_leading_space s -> trimStart s = s.
Proof. destruct s as [|c s]; cbn; [reflexivity|]. now intros ->. Qed.

Lemma trimEnd_no_leading_space (s : string) :
  no_leading_space s -> no_leading_space (trimEnd s).
Proof.
  destruct s as [|c s]; cbn; [auto|]. intros Hc.
  destruct (trimEnd s); cbn; [rewrite Hc; exact Hc | exact Hc].
Qed.

Lemma trimEnd_idempotent (s : string) : trimEnd (trimEnd s) = trimEnd s.
Proof.
  induction s as [|c s IH]; cbn; [reflexivity|].
  destruct (trimEnd s) as [|d t] eqn:Ht.
  - destruct (is_space c) eqn:Hc; cbn; [reflexivity | now rewrite Hc].
  - cbn [trimEnd]. cbn [trimEnd] in IH. rewrite IH. reflexivity.
Qed.

Lemma trim_idempotent (s : string) : trim (trim s) = trim s.
Proof.
  unfold trim.
  rewrite (trimStart_id (trimEnd (trimStart s))).
  - apply trimEnd_idempotent.
  - apply trimEnd_no_leading_space, trimStart_no_leading_space.
Qed.

(** ** The query of the export *)

Lemma getStringValue_cases (value : Val) :
  getStringValue value = VNull
  \/ (is_nullish value = false
      /\ getStringValue value = VStr (trim (ToString value))
      /\ trim (ToString value) <> "").
Proof.
  unfold getStringValue, or_else. destruct (is_nullish value); [now left|].
  cbn [truthy]. destruct (String.eqb_spec (trim (ToString value)) "") as [->|Hne];
    cbn [negb]; [now left | right; auto].
Qed.

Lemma append_truthy_parameter_if (name : string) (value : Val) (params : URLSearchParams) :
  append_truthy name value params = (params ++ parameter_if name value)%list.
Proof.
  unfold append_truthy, parameter_if, append.
  destruct (truthy value); [reflexivity | now rewrite app_nil_r].
Qed.

(** The parameters of the export, one group after the other. *)
Lemma exportCSV_params_parts (filters sort : Val) :
  exportCSV_params filters sort
  = (parameter_if "role" (getStringValue (get_opt filters "role"))
     ++ parameter_if "status" (getStringValue (get_opt filters "status"))
     ++ parameter_if "account_role" (getStringValue (get_opt filters "account_role"))
     ++ parameter_if "search" (getStringValue (get_opt filters "search"))
     ++ (if truthy (getStringValue (get_opt sort "field"))
         then [("sort_field", ToString (getStringValue (get_opt sort "field")));
               ("sort_order", export_order sort)]
         else []))%list.
Proof.
  unfold exportCSV_params. rewrite !append_truthy_parameter_if. cbn [app].
  rewrite <- !app_assoc.
  destruct (truthy (getStringValue (get_opt sort "field"))).
  - unfold append, export_order. cbn [ToString].
    set (lowered := toLowerCase (ToString (or_else (get_opt sort "order") (VStr "DESC")))).
    destruct (String.eqb_spec lowered "asc") as [->|Hasc]; cbn [orb].
    + now rewrite <- !app_assoc.
    + destruct (String.eqb_spec lowered "desc") as [->|Hdesc];
        now rewrite <- !app_assoc.
  - now rewrite app_nil_r.
Qed.

Lemma parameter_if_In (name : string) (source : Val) (n v : string) :
  In (n, v) (parameter_if name (getStringValue source)) ->
  n = name /\ v = trim (ToString source) /\ v <> "" /\ is_nullish source = false.
Proof.
  unfold parameter_if.
  destruct (getStringValue_cases source) as [->|(Hnullish & -> & Hne)]; cbn;
    [intros []|].
  destruct (String.eqb (trim (ToString source)) ""); cbn; [intros []|].
  intros [[= <- <-]|[]]. auto.
Qed.

(** X14.  The export writes a parameter only for the filters [role],
    [status], [account_role] and [search] and for the sort: whatever it
    writes for a filter or for [sort_field] is the value as a string with
    the white space around it removed, and is not empty, so that a value of
    white space alone is left out; and no name is written twice. *)
Theorem exportCSV_params_values (filters sort : Val) (name value : string) :
  In (name, value) (exportCSV_params filters sort) ->
  ((In name export_filters /\ value = trim (ToString (get_opt filters name)))
   \/ (name = "sort_field" /\ value = trim (ToString (get_opt sort "field")))
   \/ (name = "sort_order" /\ (value = "asc" \/ value = "desc")))
  /\ value <> ""
  /\ trim value = value
  /\ NoDup (List.map fst (exportCSV_params filters sort)).
Proof.
  intros Hin. split; [|split; [|split]].
  - rewrite exportCSV_params_parts in Hin. unfold export_filters.
    repeat (apply in_app_or in Hin; destruct Hin as [Hin|Hin];
            [apply parameter_if_In in Hin; destruct Hin as (-> & -> & _);
             left; split; [cbn; auto 6 | reflexivity]|]).
    destruct (getStringValue_cases (get_opt sort "field")) as [Hnull|(_ & Hvalue & Hne)];
      rewrite ?Hnull, ?Hvalue in Hin; cbn [truthy] in Hin; [destruct Hin|].
    apply String.eqb_neq in Hne. rewrite Hne in Hin. cbn in Hin.
    destruct Hin as [[= <- <-]|[[= <- <-]|[]]].
    + right. left. auto.
    + right. right. split; [reflexivity|]. unfold export_order.
      destruct (String.eqb _ "asc"); auto.
  - rewrite exportCSV_params_parts in Hin.
    repeat (apply in_app_or in Hin; destruct Hin as [Hin|Hin];
            [apply parameter_if_In in Hin; tauto|]).
    destruct (getStringValue_cases (get_opt sort "field")) as [Hnull|(_ & Hvalue & Hne)];
      rewrite ?Hnull, ?Hvalue in Hin; cbn [truthy] in Hin; [destruct Hin|].
    pose proof Hne as Hne'. apply String.eqb_neq in Hne'. rewrite Hne' in Hin.
    cbn in Hin. destruct Hin as [[= <- <-]|[[= <- <-]|[]]]; [exact Hne|].
    unfold export_order. destruct (String.eqb _ "asc"); discriminate.
  - rewrite exportCSV_params_parts in Hin.
    repeat (apply in_app_or in Hin; destruct Hin as [Hin|Hin];
            [apply parameter_if_In in Hin; destruct Hin as (_ & -> & _);
             apply trim_idempotent|]).
    destruct (getStringValue_cases (get_opt sort "field")) as [Hnull|(_ & Hvalue & Hne)];
      rewrite ?Hnull, ?Hvalue in Hin; cbn [truthy] in Hin; [destruct Hin|].
    apply String.eqb_neq in Hne. rewrite Hne in Hin. cbn in Hin.
    destruct Hin as [[= <- <-]|[[= <- <-]|[]]]; [apply trim_idempotent|].
    unfold export_order. destruct (String.eqb _ "asc"); reflexivity.
  - rewrite exportCSV_params_parts. unfold parameter_if.
    repeat match goal with
           | |- context [if truthy ?v then _ else _] => destruct (truthy v)
           end;
      cbn [app List.map fst];
      repeat (apply NoDup_cons_2;
              [intros Hmem; apply list_elem_of_In in Hmem; cbn in Hmem;
               intuition discriminate|]);
      apply NoDup_nil_2.
Qed.

Lemma exportCSV_params_values_witness :
  ((In "role" export_filters
    /\ "team lead" = trim (ToString (get_opt padded_filters "role")))
   \/ ("role" = "sort_field" /\ "team lead" = trim (ToString (get_opt sort_by_name_up "field")))
   \/ ("role" = "sort_order" /\ ("team lead" = "asc" \/ "team lead" = "desc")))
  /\ "team lead" <> ""
  /\ trim "team lead" = "team lead"
  /\ NoDup (List.map fst (exportCSV_params padded_filters sort_by_name_up)).
Proof.
  apply (exportCSV_params_values padded_filters sort_by_name_up "role" "team lead").
  vm_compute. left. reflexivity.
Defined.

Lemma sort_parameters_In (sort : Val) (n v : string) :
  In (n, v)
     (if truthy (getStringValue (get_opt sort "field"))
      then [("sort_field", ToString (getStringValue (get_opt sort "field")));
            ("sort_order", export_order sort)]
      else []) ->
  truthy (getStringValue (get_opt sort "field")) = true
  /\ ((n = "sort_field" /\ v = ToString (getStringValue (get_opt sort "field")))
      \/ (n = "sort_order" /\ v = export_order sort)).
Proof.
  destruct (truthy (getStringValue (get_opt sort "field"))); [|intros []].
  intros [[= <- <-]|[[= <- <-]|[]]]; auto.
Qed.

(** X15.  The export writes [sort_order] exactly when it writes
    [sort_field], and its value is [asc] when the order of the sort, in
    lower case, is [asc], and [desc] in every other case: for the order
    [desc], for an order that is not given, and for any other order. *)
Theorem exportCSV_sort_order (filters sort : Val) :
  ((exists order, In ("sort_order", order) (exportCSV_params filters sort))
   <-> (exists field, In ("sort_field", field) (exportCSV_params filters sort)))
  /\ (forall order,
        In ("sort_order", order) (exportCSV_params filters sort) ->
        (order = "asc" \/ order = "desc")
        /\ (order = "asc"
            <-> toLowerCase (ToString (or_else (get_opt sort "order") (VStr "DESC")))
                = "asc")
        /\ (truthy (get_opt sort "order") = false -> order = "desc")).
Proof.
  rewrite exportCSV_params_parts.
  assert (forall n v,
            In (n, v)
               (parameter_if "role" (getStringValue (get_opt filters "role"))
                ++ parameter_if "status" (getStringValue (get_opt filters "status"))
                ++ parameter_if "account_role"
                     (getStringValue (get_opt filters "account_role"))
                ++ parameter_if "search" (getStringValue (get_opt filters "search"))
                ++ (if truthy (getStringValue (get_opt sort "field"))
                    then [("sort_field",
                           ToString (getStringValue (get_opt sort "field")));
                          ("sort_order", export_order sort)]
                    else []))%list ->
            n = "sort_field" \/ n = "sort_order" ->
            truthy (getStringValue (get_opt sort "field")) = true
            /\ (n = "sort_order" -> v = export_order sort)) as Hsort.
  { intros n v Hin Hn.
    repeat (apply in_app_or in Hin; destruct Hin as [Hin|Hin];
            [apply parameter_if_In in Hin; destruct Hin as (-> & _);
             destruct Hn; discriminate|]).
    apply sort_parameters_In in Hin. destruct Hin as (Htruthy & Hcases).
    split; [exact Htruthy|]. intros ->.
    destruct Hcases as [[[=] _]|[_ ->]]. reflexivity. }
  assert (truthy (getStringValue (get_opt sort "field")) = true ->
          forall n v,
            In (n, v) [("sort_field", ToString (getStringValue (get_opt sort "field")));
                       ("sort_order", export_order sort)] ->
            In (n, v)
               (parameter_if "role" (getStringValue (get_opt filters "role"))
                ++ parameter_if "status" (getStringValue (get_opt filters "status"))
                ++ parameter_if "account_role"
                     (getStringValue (get_opt filters "account_role"))
                ++ parameter_if "search" (getStringValue (get_opt filters "search"))
                ++ (if truthy (getStringValue (get_opt sort "field"))
                    then [("sort_field",
                           ToString (getStringValue (get_opt sort "field")));
                          ("sort_order", export_order sort)]
                    else []))%list) as Hpresent.
  { intros -> n v Hin. repeat (apply in_or_app; right). exact Hin. }
  split; [split|].
  - intros (order & Hin). destruct (Hsort _ _ Hin (or_intror eq_refl)) as [Htruthy _].
    eexists. apply (Hpresent Htruthy). left. reflexivity.
  - intros (field & Hin). destruct (Hsort _ _ Hin (or_introl eq_refl)) as [Htruthy _].
    eexists. apply (Hpresent Htruthy). right. left. reflexivity.
  - intros order Hin. destruct (Hsort _ _ Hin (or_intror eq_refl)) as [_ Horder].
    rewrite (Horder eq_refl). unfold export_order.
    split; [|split].
    + destruct (String.eqb _ "asc"); auto.
    + destruct (String.eqb_spec
                  (toLowerCase (ToString (or_else (get_opt sort "order") (VStr "DESC"))))
                  "asc") as [Heq|Hne]; [tauto|].
      split; [discriminate | contradiction].
    + intros Hfalsy. unfold or_else. rewrite Hfalsy. reflexivity.
Qed.

(** ** The answer of the export and of the upload *)

(** X16.  For a response that is not [ok], the export never resolves with
    a blob: it rejects with an error, whose message, when the response is
    not declared as JSON, is the body, or the status line when the body is
    empty. *)
Theorem exportCSV_not_ok REACT_APP_API_URL fetch JSON_parse store filters sort response :
  fetch (exportCSV_request REACT_APP_API_URL store filters sort) = Responded response ->
  ok response = false ->
  exists message,
    exportCSV REACT_APP_API_URL fetch JSON_parse store filters sort
    = Rejected (VError "Error" message)
    /\ (includes_in "application/json" (headers_get "content-type" response) = false ->
        message = if String.eqb (resp_body response) ""
                  then "HTTP " ++ Z_to_string (resp_status response) ++ ": "
                       ++ resp_statusText response
                  else resp_body response).
Proof.
  intros Hfetch Hok. unfold exportCSV, await_fetch. rewrite Hfetch.
  cbn [mbind Completion_bind]. unfold exportCSV_response. rewrite Hok. cbn [negb].
  eexists. split; [reflexivity|].
  intros Hjson. unfold export_errorMessage. rewrite Hjson, andb_false_r.
  unfold or_else, http_line. cbn [truthy].
  destruct (String.eqb (resp_body response) ""); reflexivity.
Qed.

Lemma exportCSV_not_ok_witness :
  exists message,
    exportCSV None (always bad_gateway) parse_literal admin_session VUndefined VUndefined
    = Rejected (VError "Error" message)
    /\ (includes_in "application/json" (headers_get "content-type" bad_gateway) = false ->
        message = if String.eqb (resp_body bad_gateway) ""
                  then "HTTP " ++ Z_to_string (resp_status bad_gateway) ++ ": "
                       ++ resp_statusText bad_gateway
                  else resp_body bad_gateway).
Proof.
  apply (exportCSV_not_ok None (always bad_gateway) parse_literal admin_session
           VUndefined VUndefined bad_gateway);
    reflexivity.
Defined.

Lemma includes_after (x p q : string) :
  includes x q = true -> includes x (p ++ q) = true.
Proof.
  intros Hq. induction p as [|c p IH]; [exact Hq|].
  rewrite append_cons, includes_unfold, IH. apply orb_true_r.
Qed.

Lemma append_not_empty (a x b : string) : x <> "" -> a ++ x ++ b <> "".
Proof.
  intros Hx. destruct a as [|c a]; [|discriminate].
  rewrite append_nil_l. destruct x as [|c x]; [contradiction | discriminate].
Qed.

(** X17.  A filter of the export reaches the address of the request
    escaped once: the address contains the name, an equals sign and the
    trimmed value as the serializer of [URLSearchParams] escapes it. *)
Theorem exportCSV_request_escapes_once REACT_APP_API_URL store (filters sort : Val)
    (name s : string) :
  In name export_filters ->
  get_opt filters name = VStr s ->
  trim s <> "" ->
  includes (name ++ "=" ++ form_urlencode (trim s))
           (req_url (exportCSV_request REACT_APP_API_URL store filters sort)) = true.
Proof.
  intros Hname Hvalue Hne.
  assert (is_undefined filters = false) as Hdefined.
  { destruct filters; try reflexivity. discriminate Hvalue. }
  unfold exportCSV_request. rewrite Hdefined. cbn [req_url].
  set (sort' := if is_undefined sort then VObj [] else sort).
  assert (In (name, trim s) (exportCSV_params filters sort')) as Hin.
  { rewrite exportCSV_params_parts.
    assert (parameter_if name (getStringValue (get_opt filters name)) = [(name, trim s)])
      as Hparameter.
    { unfold parameter_if, getStringValue, or_else. rewrite Hvalue.
      cbn [is_nullish is_undefined is_null orb ToString truthy].
      apply String.eqb_neq in Hne. rewrite Hne. cbn [negb truthy].
      now rewrite Hne. }
    unfold export_filters in Hname. cbn in Hname.
    destruct Hname as [<-|[<-|[<-|[<-|[]]]]]; rewrite Hparameter;
      repeat first [ apply in_or_app; left; left; reflexivity
                   | apply in_or_app; right ]. }
  unfold URLSearchParams_toString.
  destruct (join_member "&" (form_urlencode name ++ "=" ++ form_urlencode (trim s))
              (List.map (fun nv => form_urlencode (fst nv) ++ "=" ++ form_urlencode (snd nv))
                 (exportCSV_params filters sort')))
    as (a & b & Hjoin).
  { apply in_map_iff. exists (name, trim s). split; [reflexivity | exact Hin]. }
  assert (form_urlencode name = name) as Hsafe.
  { unfold export_filters in Hname. cbn in Hname.
    destruct Hname as [<-|[<-|[<-|[<-|[]]]]]; reflexivity. }
  rewrite Hsafe in Hjoin. rewrite Hjoin.
  assert (truthy (VStr (a ++ (name ++ "=" ++ form_urlencode (trim s)) ++ b)) = true)
    as ->.
  { cbn [truthy]. apply negb_true_iff, String.eqb_neq, append_not_empty.
    destruct name; discriminate. }
  do 3 apply includes_after. apply includes_append.
Qed.

Lemma exportCSV_request_escapes_once_witness :
  includes ("role" ++ "=" ++ form_urlencode (trim "  team lead "))
           (req_url (exportCSV_request None admin_session padded_filters sort_by_name_up))
  = true.
Proof.
  apply (exportCSV_request_escapes_once None admin_session padded_filters sort_by_name_up
           "role" "  team lead ").
  - left. reflexivity.
  - reflexivity.
  - vm_compute. discriminate.
Defined.

(** X18.  For a response that is not [ok], the upload rejects: with the
    error [Upload failed] when the body is not JSON; when the body is JSON,
    with an error whose message is the [detail] of the body if that is
    truthy and [Upload failed] if not; except that for the JSON body [null]
    reading the [detail] throws, and the upload rejects with that
    TypeError. *)
Theorem uploadCSV_not_ok REACT_APP_API_URL fetch JSON_parse store file response :
  fetch (Upload.uploadCSV_request REACT_APP_API_URL store file) = Responded response ->
  ok response = false ->
  (forall reason,
     JSON_parse (resp_body response) = Rejected reason ->
     Upload.uploadCSV REACT_APP_API_URL fetch JSON_parse store file
     = Rejected (VError "Error" "Upload failed"))
  /\ (forall errorData,
        JSON_parse (resp_body response) = Resolved errorData ->
        Upload.uploadCSV REACT_APP_API_URL fetch JSON_parse store file
        = Rejected (if is_nullish errorData
                    then VError "TypeError"
                           ("Cannot read properties of " ++ ToString errorData
                            ++ " (reading 'detail')")
                    else VError "Error"
                           (if truthy (get_opt errorData "detail")
                            then ToString (get_opt errorData "detail")
                            else "Upload failed")))
  /\ (JSON_parse (resp_body response) = Resolved VNull ->
      Upload.uploadCSV REACT_APP_API_URL fetch JSON_parse store file
      = Rejected (VError "TypeError" "Cannot read properties of null (reading 'detail')")).
Proof.
  intros Hfetch Hok. unfold Upload.uploadCSV. rewrite Hfetch.
  cbn [mbind Completion_bind]. unfold Upload.uploadCSV_response, Upload.json_or_empty.
  rewrite Hok. cbn [negb]. split; [|split].
  - intros reason ->. reflexivity.
  - intros errorData ->. destruct (is_nullish errorData) eqn:Hnullish.
    + destruct errorData; try discriminate Hnullish; reflexivity.
    + rewrite (get_non_nullish _ _ Hnullish).
      cbn [mbind Completion_bind]. unfold new_Error, or_else.
      destruct (truthy (get_opt errorData "detail")) eqn:Htruthy; [|reflexivity].
      destruct (get_opt errorData "detail"); try discriminate Htruthy; reflexivity.
  - intros ->. reflexivity.
Qed.

Lemma uploadCSV_not_ok_witness :
  Upload.uploadCSV None (always_form refused_null) parse_literal admin_session users_csv
  = Rejected (VError "TypeError" "Cannot read properties of null (reading 'detail')").
Proof.
  apply (proj2 (proj2 (uploadCSV_not_ok None (always_form refused_null) parse_literal
                         admin_session users_csv refused_null eq_refl eq_refl))).
  reflexivity.
Defined.

Import BatchSamples.

(** ** [getList]: the pagination and the answer *)

(** X19.  When a pagination is given, the query begins with [page] and
    [page_size], whatever the sort and the filter add; a page that is
    missing or 0 is written as 1, and a page size that is missing or 0 as
    10. *)
Theorem buildQueryParams_pagination (params : Val) (entries : URLSearchParams) :
  DataProvider.buildQueryParams_entries params = Resolved entries ->
  truthy (get_opt params "pagination") = true ->
  (exists rest,
     entries
     = ("page", ToString (or_else (get_opt (get_opt params "pagination") "page") (VNum 1)))
       :: ("page_size",
           ToString (or_else (get_opt (get_opt params "pagination") "perPage") (VNum 10)))
       :: rest)
  /\ (truthy (get_opt (get_opt params "pagination") "page") = false ->
      In ("page", "1") entries)
  /\ (truthy (get_opt (get_opt params "pagination") "perPage") = false ->
      In ("page_size", "10") entries).
Proof.
  intros Hentries Hpagination.
  assert (is_nullish params = false) as Hparams.
  { unfold DataProvider.buildQueryParams_entries in Hentries.
    destruct (destructure "params" params "pagination") eqn:Hd; [|discriminate].
    eapply destructure_resolved; eauto. }
  rewrite (buildQueryParams_entries_parts params Hparams) in Hentries.
  destruct (DataProvider.add_sort (get_opt params "sort") []) as [sorted|];
    cbn in Hentries; [|discriminate].
  injection Hentries as <-.
  unfold DataProvider.add_pagination, append. rewrite Hpagination. cbn [app].
  split; [eauto|]. split.
  - intros Hpage. unfold or_else. rewrite Hpage. left. reflexivity.
  - intros HperPage. unfold or_else at 2. rewrite HperPage. right. left. reflexivity.
Qed.

Lemma buildQueryParams_pagination_witness :
  (exists rest,
     [("page", "1"); ("page_size", "10")]
     = ("page", ToString (or_else (get_opt (get_opt first_page "pagination") "page") (VNum 1)))
       :: ("page_size",
           ToString (or_else (get_opt (get_opt first_page "pagination") "perPage")
                       (VNum 10)))
       :: rest)
  /\ (truthy (get_opt (get_opt first_page "pagination") "page") = false ->
      In ("page", "1") [("page", "1"); ("page_size", "10")])
  /\ (truthy (get_opt (get_opt first_page "pagination") "perPage") = false ->
      In ("page_size", "10") [("page", "1"); ("page_size", "10")]).
Proof.
  apply (buildQueryParams_pagination first_page [("page", "1"); ("page_size", "10")]);
    reflexivity.
Defined.

Section FurtherAdapter.

Variable REACT_APP_API_URL : option string.
Variable fetch : Request -> FetchOutcome.
Variable JSON_parse : string -> Completion Val.
Variable JSON_stringify : Val -> option string.
Variable settled : list nat.
Variable store : gmap string string.

(** [fetchJson] rejects with an object, of which [message] can be read. *)
Lemma fetchJson_rejected_object url options reason :
  fetchJson fetch JSON_parse store url options = Rejected reason ->
  exists fields, reason = VObj fields.
Proof.
  intros Hrejected.
  destruct (fetch (fetchJson_request store url options)) as [response|name message]
    eqn:Hfetch.
  - destruct (ok response) eqn:Hok.
    + unfold fetchJson, await_fetch, fetchJson_then in Hrejected.
      rewrite Hfetch in Hrejected. cbn [mbind Completion_bind] in Hrejected.
      rewrite Hok in Hrejected. discriminate Hrejected.
    + destruct (fetchJson_not_ok fetch JSON_parse store url options response Hfetch Hok)
        as (fields & n & Heq & _).
      rewrite Heq in Hrejected. injection Hrejected as <-. eauto.
  - unfold fetchJson, await_fetch in Hrejected. rewrite Hfetch in Hrejected.
    cbn [mbind Completion_bind try_catch] in Hrejected.
    rewrite fetchJson_catch_Error in Hrejected. injection Hrejected as <-. eauto.
Qed.

Lemma rethrow_object {A} (context : string) (fields : list (string * Val)) :
  @DataProvider.rethrow A context (VObj fields)
  = Rejected (VError "Error"
                (context ++ ": " ++ ToString (get_opt (VObj fields) "message"))).
Proof. reflexivity. Qed.

End FurtherAdapter.

(** X20.  When the request of [getList] succeeds, the list and the total
    are the [items] and the [total] of the body, with the empty list and 0
    for what is missing; but a body that is the JSON [null] makes the call
    fail although the response was [ok]. *)
Theorem getList_answer REACT_APP_API_URL fetch JSON_parse store resource params
    queryString response :
  DataProvider.buildQueryParams params = Resolved queryString ->
  fetchJson fetch JSON_parse store
    (API_URL REACT_APP_API_URL ++ "/" ++ resource
     ++ (if truthy (VStr queryString) then "?" ++ queryString else ""))
    no_options = Resolved response ->
  (is_nullish (json response) = false ->
   DataProvider.getList REACT_APP_API_URL fetch JSON_parse store resource params
   = Resolved (VObj [("data", if truthy (get_opt (json response) "items")
                              then get_opt (json response) "items" else VArr []);
                     ("total", if truthy (get_opt (json response) "total")
                               then get_opt (json response) "total" else VNum 0)]))
  /\ (json response = VNull ->
      DataProvider.getList REACT_APP_API_URL fetch JSON_parse store resource params
      = Rejected (VError "Error"
                    (("Failed to fetch " ++ resource ++ " list") ++ ": "
                     ++ "Cannot read properties of null (reading 'items')"))).
Proof.
  intros Hquery Hfetch. unfold DataProvider.getList. rewrite Hquery.
  cbn [mbind Completion_bind]. rewrite Hfetch. cbn [mbind Completion_bind]. split.
  - intros Hjson. rewrite !(get_non_nullish _ _ Hjson). reflexivity.
  - intros ->. reflexivity.
Qed.

Lemma getList_answer_witness :
  (is_nullish VNull = false ->
   DataProvider.getList None (always ok_null) parse_literal admin_session "users" (VObj [])
   = Resolved (VObj [("data", if truthy (get_opt VNull "items")
                              then get_opt VNull "items" else VArr []);
                     ("total", if truthy (get_opt VNull "total")
                               then get_opt VNull "total" else VNum 0)]))
  /\ (VNull = VNull ->
      DataProvider.getList None (always ok_null) parse_literal admin_session "users" (VObj [])
      = Rejected (VError "Error"
                    (("Failed to fetch " ++ "users" ++ " list") ++ ": "
                     ++ "Cannot read properties of null (reading 'items')"))).
Proof.
  apply (getList_answer None (always ok_null) parse_literal admin_session "users" (VObj [])
           "" {| status := 200; headers := ∅; json := VNull |});
    reflexivity.
Defined.

(** ** The batches *)

Lemma first_rejection_None {A} (promises : list (Completion A)) :
  (forall c, In c promises -> exists a, c = Resolved a) ->
  DataProvider.first_rejection promises = None.
Proof.
  induction promises as [|c promises IH]; intros Hall; [reflexivity|].
  destruct (Hall c (or_introl eq_refl)) as [a ->]. cbn.
  apply IH. intros c' Hin. apply Hall. now right.
Qed.

Lemma first_rejection_Some {A} (promises : list (Completion A)) (reason : Val) :
  In (Rejected reason) promises ->
  exists first, DataProvider.first_rejection promises = Some first.
Proof.
  induction promises as [|[a|e] promises IH]; cbn; [intros [] | | eauto].
  intros [[=]|Hin]. auto.
Qed.

Lemma omap_lookup_In {A} (promises : list (Completion A)) (settled : list nat)
    (c : Completion A) :
  In c (omap (fun i => promises !! i) settled) -> In c promises.
Proof.
  intros Hin. apply list_elem_of_In, list_elem_of_omap in Hin.
  destruct Hin as (i & _ & Hi). apply list_elem_of_In.
  eapply list_elem_of_lookup_2. exact Hi.
Qed.

Lemma fulfilled_map {A B} (f : A -> Completion B) (g : Completion B -> Val)
    (h : B -> Val) (l : list A) :
  (forall x, In x l -> exists b, f x = Resolved b) ->
  (forall b, g (Resolved b) = h b) ->
  List.map h (DataProvider.fulfilled (List.map f l)) = List.map (fun x => g (f x)) l.
Proof.
  intros Hall Hg. induction l as [|x l IH]; [reflexivity|].
  cbn [List.map]. destruct (Hall x (or_introl eq_refl)) as [b Hb]. rewrite Hb.
  cbn [DataProvider.fulfilled List.map]. rewrite Hg. f_equal.
  apply IH. intros y Hy. apply Hall. now right.
Qed.

(** When all promises resolve, [Promise.all] resolves whatever the order
    in which they settle. *)
Lemma Promise_all_resolved {A} (settled : list nat) (promises : list (Completion A)) :
  (forall c, In c promises -> exists a, c = Resolved a) ->
  DataProvider.Promise_all settled promises
  = Resolved (DataProvider.fulfilled promises).
Proof.
  intros Hall. unfold DataProvider.Promise_all.
  rewrite first_rejection_None; [reflexivity|].
  intros c Hin. apply in_app_or in Hin. destruct Hin as [Hin|Hin].
  - apply Hall. eapply omap_lookup_In. exact Hin.
  - now apply Hall.
Qed.

(** When a promise rejects, [Promise.all] rejects with the reason of one of
    them. *)
Lemma Promise_all_fails {A} (settled : list nat) (promises : list (Completion A))
    (reason : Val) :
  In (Rejected reason) promises ->
  exists first,
    DataProvider.Promise_all settled promises = Rejected first
    /\ In (Rejected first) promises.
Proof.
  intros Hin. unfold DataProvider.Promise_all.
  destruct (first_rejection_Some
              (omap (fun i => promises !! i) settled ++ promises) reason)
    as [first Hfirst].
  { apply in_or_app. now right. }
  rewrite Hfirst. exists first. split; [reflexivity|].
  apply first_rejection_In in Hfirst. apply in_app_or in Hfirst.
  destruct Hfirst as [H|H]; [eapply omap_lookup_In; exact H | exact H].
Qed.

(** X21.  When every request of [getMany] succeeds, the records come in the
    order of the ids, one for each id, whatever the order in which the
    requests settle. *)
Theorem getMany_in_order REACT_APP_API_URL fetch JSON_parse settled store resource
    params ids :
  get params "ids" = Resolved (VArr ids) ->
  (forall id, In id ids ->
     exists response,
       fetchJson fetch JSON_parse store (record_url REACT_APP_API_URL resource id)
         no_options = Resolved response) ->
  DataProvider.getMany REACT_APP_API_URL fetch JSON_parse settled store resource params
  = Resolved (VObj
      [("data",
        VArr (List.map
                (fun id =>
                   json_of (fetchJson fetch JSON_parse store
                              (record_url REACT_APP_API_URL resource id) no_options))
                ids))]).
Proof.
  intros Hids Hall. unfold DataProvider.getMany, DataProvider.ids_map.
  rewrite Hids. cbn [mbind Completion_bind].
  rewrite Promise_all_resolved.
  - cbn [mbind Completion_bind try_catch]. do 5 f_equal.
    apply (fulfilled_map
             (fun id => fetchJson fetch JSON_parse store
                          (record_url REACT_APP_API_URL resource id) no_options)
             json_of json ids); [exact Hall | reflexivity].
  - intros c Hin. apply in_map_iff in Hin. destruct Hin as (id & <- & Hid).
    now apply Hall.
Qed.

Lemma getMany_in_order_witness :
  DataProvider.getMany None (always ok_empty) parse_literal [1; 0]%nat admin_session
    "users" ids_7_8
  = Resolved (VObj
      [("data",
        VArr (List.map
                (fun id =>
                   json_of (fetchJson (always ok_empty) parse_literal admin_session
                              (record_url None "users" id) no_options))
                [VNum 7; VNum 8]))]).
Proof.
  apply (getMany_in_order None (always ok_empty) parse_literal [1; 0]%nat admin_session
           "users" ids_7_8 [VNum 7; VNum 8]).
  - reflexivity.
  - intros id _. eexists. reflexivity.
Defined.

Lemma batch_fails (f : Val -> Completion JsonResponse) (context : string)
    (k : list JsonResponse -> Completion Val) (ids : list Val) (settled : list nat)
    (reason : Val) :
  (forall id e, f id = Rejected e -> exists fields, e = VObj fields) ->
  In (Rejected reason) (List.map f ids) ->
  batch_failure context (List.map f ids)
    (try_catch (responses ← DataProvider.Promise_all settled (List.map f ids); k responses)
               (fun error => DataProvider.rethrow context error)).
Proof.
  intros Hobject Hin.
  destruct (Promise_all_fails settled (List.map f ids) reason Hin) as (first & -> & Hfirst).
  cbn [mbind Completion_bind try_catch]. exists first. split; [exact Hfirst|].
  apply in_map_iff in Hfirst. destruct Hfirst as (id & Hid & _).
  destruct (Hobject id first Hid) as [fields ->]. apply rethrow_object.
Qed.

(** X22.  The batches are all or nothing: when one of the requests of
    [getMany], [updateMany] or [deleteMany] is rejected, the whole call is
    rejected, with an error that has the message of one of the rejected
    requests behind the name of the batch; the answers of the other
    requests are dropped. *)
Theorem batch_all_or_nothing REACT_APP_API_URL fetch JSON_parse JSON_stringify settled
    store resource params ids failing reason :
  get params "ids" = Resolved (VArr ids) ->
  In failing ids ->
  (fetchJson fetch JSON_parse store (record_url REACT_APP_API_URL resource failing)
     no_options = Rejected reason ->
   batch_failure ("Failed to fetch multiple " ++ resource)
     (List.map (fun id => fetchJson fetch JSON_parse store
                            (record_url REACT_APP_API_URL resource id) no_options) ids)
     (DataProvider.getMany REACT_APP_API_URL fetch JSON_parse settled store
        resource params))
  /\ (fetchJson fetch JSON_parse store (record_url REACT_APP_API_URL resource failing)
        (put (JSON_stringify (get_opt params "data"))) = Rejected reason ->
      batch_failure ("Failed to update multiple " ++ resource)
        (List.map (fun id => fetchJson fetch JSON_parse store
                               (record_url REACT_APP_API_URL resource id)
                               (put (JSON_stringify (get_opt params "data")))) ids)
        (DataProvider.updateMany REACT_APP_API_URL fetch JSON_parse JSON_stringify
           settled store resource params))
  /\ (fetchJson fetch JSON_parse store (record_url REACT_APP_API_URL resource failing)
        delete_options = Rejected reason ->
      batch_failure ("Failed to delete multiple " ++ resource)
        (List.map (fun id => fetchJson fetch JSON_parse store
                               (record_url REACT_APP_API_URL resource id)
                               delete_options) ids)
        (DataProvider.deleteMany REACT_APP_API_URL fetch JSON_parse settled store
           resource params)).
Proof.
  intros Hids Hfailing.
  split; [|split]; intros Hrejected;
    [ unfold DataProvider.getMany
    | unfold DataProvider.updateMany
    | unfold DataProvider.deleteMany ];
    unfold DataProvider.ids_map; rewrite Hids; cbn [mbind Completion_bind];
    apply (batch_fails _ _ _ _ _ reason);
    try (intros id e He; eapply fetchJson_rejected_object; exact He);
    apply in_map_iff; exists failing; split; assumption.
Qed.

Lemma batch_all_or_nothing_witness :
  batch_failure ("Failed to delete multiple " ++ "users")
    (List.map (fun id => fetchJson (always forbidden) parse_literal admin_session
                           (record_url None "users" id) delete_options)
       [VNum 7; VNum 8])
    (DataProvider.deleteMany None (always forbidden) parse_literal [1; 0]%nat admin_session
       "users" ids_7_8).
Proof.
  apply (proj2 (proj2 (batch_all_or_nothing None (always forbidden) parse_literal
                         stringify_literal [1; 0]%nat admin_session "users" ids_7_8
                         [VNum 7; VNum 8] (VNum 8)
                         (VObj [("status", VNum 403); ("statusText", VStr "Forbidden");
                                ("message",
                                 VStr "You do not have permission to perform this action.");
                                ("body", VObj []);
                                ("url", VStr "http://localhost:8000/users/8")])
                         eq_refl (or_intror (or_introl eq_refl))))).
  reflexivity.
Defined.

(** X23.  A batch without ids sends no request and resolves with the empty
    list, whatever the server would answer. *)
Theorem batch_without_ids REACT_APP_API_URL fetch JSON_parse JSON_stringify settled
    store resource params :
  get params "ids" = Resolved (VArr []) ->
  DataProvider.getMany REACT_APP_API_URL fetch JSON_parse settled store resource params
  = Resolved (VObj [("data", VArr [])])
  /\ DataProvider.updateMany REACT_APP_API_URL fetch JSON_parse JSON_stringify settled
       store resource params
     = Resolved (VObj [("data", VArr [])])
  /\ DataProvider.deleteMany REACT_APP_API_URL fetch JSON_parse settled store
       resource params
     = Resolved (VObj [("data", VArr [])]).
Proof.
  intros Hids.
  unfold DataProvider.getMany, DataProvider.updateMany, DataProvider.deleteMany,
    DataProvider.ids_map.
  rewrite !Hids. cbn [mbind Completion_bind List.map].
  rewrite !Promise_all_resolved by (intros c []).
  repeat split; reflexivity.
Qed.

Lemma batch_without_ids_witness :
  DataProvider.getMany None unreachable parse_literal [] admin_session "users" no_ids
  = Resolved (VObj [("data", VArr [])])
  /\ DataProvider.updateMany None unreachable parse_literal stringify_literal []
       admin_session "users" no_ids
     = Resolved (VObj [("data", VArr [])])
  /\ DataProvider.deleteMany None unreachable parse_literal [] admin_session "users" no_ids
     = Resolved (VObj [("data", VArr [])]).
Proof.
  apply (batch_without_ids None unreachable parse_literal stringify_literal []
           admin_session "users" no_ids).
  reflexivity.
Defined.

(** ** [getManyReference], [create] and [delete] *)

Lemma get_opt_object (fields : list (string * Val)) (k : string) :
  get_opt (VObj fields) k = lookup_field k fields.
Proof. reflexivity. Qed.

(** X24.  [getManyReference] is [getList] on the same arguments with one
    filter more: under the name of the target the filter holds the id of
    the reference, also when the caller's filter had an entry of that name;
    the other filters, the pagination and the sort are the caller's; and
    what [getList] resolves or rejects with is passed on as it is. *)
Theorem getManyReference_filter REACT_APP_API_URL fetch JSON_parse store resource params :
  is_nullish params = false ->
  exists params',
    DataProvider.getManyReference REACT_APP_API_URL fetch JSON_parse store resource params
    = DataProvider.getList REACT_APP_API_URL fetch JSON_parse store resource params'
    /\ get_opt (get_opt params' "filter") (ToString (get_opt params "target"))
       = get_opt params "id"
    /\ (forall k, k <> ToString (get_opt params "target") ->
          get_opt (get_opt params' "filter") k
          = lookup_field k (own_fields (get_opt params "filter")))
    /\ (forall k, k <> "filter" -> get_opt params' k = lookup_field k (own_fields params)).
Proof.
  intros Hparams. unfold DataProvider.getManyReference.
  rewrite !(get_non_nullish _ _ Hparams). cbn [mbind Completion_bind].
  eexists. split; [reflexivity|].
  rewrite !get_opt_object, lookup_set_field_eq, get_opt_object.
  split; [apply lookup_set_field_eq|]. split.
  - intros k Hk. rewrite get_opt_object. now apply lookup_set_field_ne.
  - intros k Hk. now apply lookup_set_field_ne.
Qed.

Lemma getManyReference_filter_witness :
  exists params',
    DataProvider.getManyReference None (always ok_empty) parse_literal admin_session
      "comments" comments_of_post
    = DataProvider.getList None (always ok_empty) parse_literal admin_session
        "comments" params'
    /\ get_opt (get_opt params' "filter") (ToString (get_opt comments_of_post "target"))
       = get_opt comments_of_post "id"
    /\ (forall k, k <> ToString (get_opt comments_of_post "target") ->
          get_opt (get_opt params' "filter") k
          = lookup_field k (own_fields (get_opt comments_of_post "filter")))
    /\ (forall k, k <> "filter" ->
          get_opt params' k = lookup_field k (own_fields comments_of_post)).
Proof.
  apply (getManyReference_filter None (always ok_empty) parse_literal admin_session
           "comments" comments_of_post).
  reflexivity.
Defined.

(** X25.  A failed [create] rejects with an error that begins with
    [Validation error] when the request was rejected with status 400 or
    422, and with [Failed to create] and the resource for every other
    status, 403 included; the message of the rejected request follows. *)
Theorem create_rejection REACT_APP_API_URL fetch JSON_parse JSON_stringify store
    resource params data underlying :
  get params "data" = Resolved data ->
  fetchJson fetch JSON_parse store (API_URL REACT_APP_API_URL ++ "/" ++ resource)
    (post (JSON_stringify data)) = Rejected underlying ->
  DataProvider.create REACT_APP_API_URL fetch JSON_parse JSON_stringify store
    resource params
  = Rejected (VError "Error"
      ((if is_number 400 (get_opt underlying "status")
           || is_number 422 (get_opt underlying "status")
        then "Validation error"
        else "Failed to create " ++ resource)
       ++ ": " ++ ToString (get_opt underlying "message"))).
Proof.
  intros Hdata Hfetch.
  destruct (fetchJson_rejected_object _ _ _ _ _ _ Hfetch) as [fields ->].
  unfold DataProvider.create. rewrite Hdata. cbn [mbind Completion_bind].
  unfold post in Hfetch. rewrite Hfetch. cbn [mbind Completion_bind try_catch get own_fields].
  rewrite get_opt_object.
  destruct (is_number 400 (lookup_field "status" fields)
            || is_number 422 (lookup_field "status" fields));
    apply rethrow_object.
Qed.

Lemma create_rejection_witness :
  DataProvider.create None (always forbidden) parse_literal stringify_literal admin_session
    "users" new_user
  = Rejected (VError "Error"
      ((if is_number 400 (VNum 403) || is_number 422 (VNum 403)
        then "Validation error"
        else "Failed to create " ++ "users")
       ++ ": " ++ ToString (VStr "You do not have permission to perform this action."))).
Proof.
  apply (create_rejection None (always forbidden) parse_literal stringify_literal
           admin_session "users" new_user (VObj [])
           (VObj [("status", VNum 403); ("statusText", VStr "Forbidden");
                  ("message", VStr "You do not have permission to perform this action.");
                  ("body", VObj []);
                  ("url", VStr "http://localhost:8000/users")]));
    reflexivity.
Defined.

(** X26.  [delete] resolves with the id it was given, whatever the body of
    the answer; when the request is rejected it rejects with an error that
    begins with [Permission denied] for status 403, with
    [Resource not found] for status 404, and with [Failed to delete], the
    resource and the id for every other status. *)
Theorem delete_outcome REACT_APP_API_URL fetch JSON_parse store resource params id :
  get params "id" = Resolved id ->
  (forall response,
     fetchJson fetch JSON_parse store (record_url REACT_APP_API_URL resource id)
       delete_options = Resolved response ->
     DataProvider.delete REACT_APP_API_URL fetch JSON_parse store resource params
     = Resolved (VObj [("data", VObj [("id", id)])]))
  /\ (forall underlying,
        fetchJson fetch JSON_parse store (record_url REACT_APP_API_URL resource id)
          delete_options = Rejected underlying ->
        DataProvider.delete REACT_APP_API_URL fetch JSON_parse store resource params
        = Rejected (VError "Error"
            ((if is_number 403 (get_opt underlying "status") then "Permission denied"
              else if is_number 404 (get_opt underlying "status")
              then "Resource not found"
              else "Failed to delete " ++ resource ++ " with id " ++ ToString id)
             ++ ": " ++ ToString (get_opt underlying "message")))).
Proof.
  intros Hid. unfold DataProvider.delete. rewrite Hid. cbn [mbind Completion_bind].
  unfold record_url, delete_options. split.
  - intros response ->. reflexivity.
  - intros underlying Hfetch.
    destruct (fetchJson_rejected_object _ _ _ _ _ _ Hfetch) as [fields ->].
    rewrite Hfetch. cbn [mbind Completion_bind try_catch get own_fields].
    rewrite get_opt_object.
    destruct (is_number 403 (lookup_field "status" fields));
      [apply rethrow_object|].
    destruct (is_number 404 (lookup_field "status" fields));
      [apply rethrow_object|].
    apply rethrow_object.
Qed.

Lemma delete_outcome_witness :
  DataProvider.delete None (always not_found) parse_literal admin_session "users" user_7
  = Rejected (VError "Error"
      ((if is_number 403 (VNum 404) then "Permission denied"
        else if is_number 404 (VNum 404) then "Resource not found"
        else "Failed to delete " ++ "users" ++ " with id " ++ ToString (VNum 7))
       ++ ": " ++ ToString (VStr "Resource not found."))).
Proof.
  apply (proj2 (delete_outcome None (always not_found) parse_literal admin_session
                  "users" user_7 (VNum 7) eq_refl)
           (VObj [("status", VNum 404); ("statusText", VStr "Not Found");
                  ("message", VStr "Resource not found."); ("body", VObj []);
                  ("url", VStr "http://localhost:8000/users/7")])).
  reflexivity.
Defined.

(** ** Lower case and white space *)

Lemma lower_unit_idempotent (c : ascii) : lower_unit (lower_unit c) = lower_unit c.
Proof. destruct c as [[] [] [] [] [] [] [] []]; reflexivity. Qed.

Lemma is_space_lower_unit (c : ascii) : is_space (lower_unit c) = is_space c.
Proof. destruct c as [[] [] [] [] [] [] [] []]; reflexivity. Qed.

Lemma toLowerCase_idempotent (s : string) : toLowerCase (toLowerCase s) = toLowerCase s.
Proof.
  induction s as [|c s IH]; cbn; [reflexivity|].
  now rewrite lower_unit_idempotent, IH.
Qed.

Lemma toLowerCase_empty (s : string) : toLowerCase s = "" <-> s = "".
Proof. destruct s; cbn; split; congruence. Qed.

Lemma trimStart_toLowerCase (s : string) :
  trimStart (toLowerCase s) = toLowerCase (trimStart s).
Proof.
  induction s as [|c s IH]; cbn; [reflexivity|].
  rewrite is_space_lower_unit. destruct (is_space c); [exact IH | reflexivity].
Qed.

Lemma trimEnd_toLowerCase (s : string) :
  trimEnd (toLowerCase s) = toLowerCase (trimEnd s).
Proof.
  induction s as [|c s IH]; cbn; [reflexivity|].
  rewrite IH, is_space_lower_unit.
  destruct (trimEnd s) as [|d t]; cbn; [|reflexivity].
  destruct (is_space c); reflexivity.
Qed.

Lemma trim_toLowerCase (s : string) : trim (toLowerCase s) = toLowerCase (trim s).
Proof. unfold trim. now rewrite trimStart_toLowerCase, trimEnd_toLowerCase. Qed.

Import Regex Users FormSamples.

(** ** The submission of a new user *)

Lemma set_field_not_nil (k : string) (v : Val) (fs : list (string * Val)) :
  set_field k v fs <> [].
Proof.
  unfold set_field. destruct (has_field k fs) eqn:Hhas.
  - destruct fs as [|[k' v'] fs]; [discriminate Hhas|].
    cbn [replace_field]. destruct (String.eqb k' k); discriminate.
  - destruct (array_index k) as [n|].
    + destruct fs as [|[k' v'] fs]; cbn [insert_index]; [discriminate|].
      destruct (array_index k') as [m|]; [destruct (m <? n)%N|]; discriminate.
    + destruct fs; discriminate.
Qed.

Ltac field_cases data k :=
  destruct (get_opt data k) as [| |[]|[|?|?]|[|? ?]|?|?|? ?] eqn:?.

Lemma check_name_resolved (data : Val) (errors errors' : list (string * Val)) :
  check_name data errors = Resolved errors' ->
  is_nullish data = false
  /\ (errors' <> []
      \/ (errors' = errors
          /\ exists s, get_opt data "name" = VStr s
                       /\ (2 <= String.length (trim s) <= 100)%nat)).
Proof.
  unfold check_name. destruct (is_nullish data) eqn:Hdata.
  { destruct data; try discriminate Hdata; discriminate. }
  rewrite (get_non_nullish _ _ Hdata). cbn [mbind Completion_bind].
  intros Hcheck. split; [reflexivity|].
  field_cases data "name";
    cbn [truthy negb call_trim mbind Completion_bind Z.eqb String.eqb] in Hcheck;
    try discriminate Hcheck;
    try (injection Hcheck as <-; left; apply set_field_not_nil).
  destruct (String.length (trim (String a s)) <? 2)%nat eqn:Hshort;
    destruct (100 <? String.length (trim (String a s)))%nat eqn:Hlong;
    injection Hcheck as <-;
    try (left; apply set_field_not_nil).
  right. split; [reflexivity|]. eexists. split; [reflexivity|].
  apply Nat.ltb_ge in Hshort, Hlong. lia.
Qed.

Lemma check_email_resolved (data : Val) (errors errors' : list (string * Val)) :
  check_email data errors = Resolved errors' ->
  errors' <> []
  \/ (errors' = errors
      /\ exists s, get_opt data "email" = VStr s
                   /\ trim s <> ""
                   /\ test emailPattern (toLowerCase (trim s)) = true).
Proof.
  unfold check_email. destruct (is_nullish data) eqn:Hdata.
  { destruct data; try discriminate Hdata; discriminate. }
  rewrite (get_non_nullish _ _ Hdata). cbn [mbind Completion_bind].
  intros Hcheck.
  field_cases data "email";
    cbn [truthy negb call_trim mbind Completion_bind Z.eqb String.eqb] in Hcheck;
    try discriminate Hcheck;
    try (injection Hcheck as <-; left; apply set_field_not_nil).
  destruct (String.eqb_spec (trim (String a s)) "") as [Hempty|Hne];
    cbn [negb mbind Completion_bind] in Hcheck.
  - injection Hcheck as <-. left. apply set_field_not_nil.
  - destruct (test emailPattern (toLowerCase (trim (String a s)))) eqn:Htest;
      cbn [negb] in Hcheck; injection Hcheck as <-.
    + right. split; [reflexivity|]. eauto.
    + left. apply set_field_not_nil.
Qed.

Lemma check_password_resolved (data : Val) (errors errors' : list (string * Val)) :
  check_password data errors = Resolved errors' ->
  errors' <> []
  \/ (errors' = errors
      /\ exists s, get_opt data "password" = VStr s
                   /\ (1 <= String.length (trim s))%nat).
Proof.
  unfold check_password. destruct (is_nullish data) eqn:Hdata.
  { destruct data; try discriminate Hdata; discriminate. }
  rewrite (get_non_nullish _ _ Hdata). cbn [mbind Completion_bind].
  intros Hcheck.
  field_cases data "password";
    cbn [truthy negb call_trim mbind Completion_bind Z.eqb String.eqb] in Hcheck;
    try discriminate Hcheck;
    try (injection Hcheck as <-; left; apply set_field_not_nil).
  destruct (String.length (trim (String a s)) <? 1)%nat eqn:Hshort;
    injection Hcheck as <-.
  - left. apply set_field_not_nil.
  - right. split; [reflexivity|]. eexists. split; [reflexivity|].
    apply Nat.ltb_ge in Hshort. exact Hshort.
Qed.

Lemma trim_not_empty (s : string) : (1 <= String.length (trim s))%nat -> s <> "".
Proof. intros Hlen ->. cbn in Hlen. lia. Qed.

(** [onSubmit] returns exactly for acceptable data. *)
Lemma onSubmit_resolved_iff (data out : Val) :
  UserCreate_onSubmit data = Resolved out
  <-> exists name email password,
        acceptable data name email password
        /\ out = normalized data name email password.
Proof.
  split.
  - unfold UserCreate_onSubmit. intros Hsubmit.
    destruct (check_name data []) as [errors1|] eqn:Hname; [|discriminate].
    cbn [mbind Completion_bind] in Hsubmit.
    destruct (check_email data errors1) as [errors2|] eqn:Hemail; [|discriminate].
    cbn [mbind Completion_bind] in Hsubmit.
    destruct (check_password data errors2) as [errors3|] eqn:Hpassword; [|discriminate].
    cbn [mbind Completion_bind] in Hsubmit.
    apply check_name_resolved in Hname. destruct Hname as [Hdata Hname].
    apply check_email_resolved in Hemail. apply check_password_resolved in Hpassword.
    destruct errors3 as [|e3 errors3]; [|discriminate Hsubmit].
    destruct Hpassword as [[]|(<- & p & Hp & Hplen)]; [reflexivity|].
    destruct Hemail as [[]|(<- & e & He & Hene & Hetest)]; [reflexivity|].
    destruct Hname as [[]|(_ & n & Hn & Hnlen)]; [reflexivity|].
    exists n, e, p. split; [unfold acceptable; auto 10|].
    cbn [Object_keys own_fields List.map length Nat.ltb Nat.leb] in Hsubmit.
    rewrite !(get_non_nullish _ _ Hdata), Hn, He, Hp in Hsubmit.
    cbn [mbind Completion_bind call_trim] in Hsubmit.
    injection Hsubmit as <-. reflexivity.
  - intros (n & e & p & (Hdata & Hn & He & Hp & Hnlen & Hene & Hetest & Hplen) & ->).
    assert (n <> "") as Hn0 by (apply trim_not_empty; lia).
    assert (e <> "") as He0 by (intros ->; now apply Hene).
    assert (p <> "") as Hp0 by (apply trim_not_empty; lia).
    apply String.eqb_neq in Hn0, He0, Hp0.
    unfold UserCreate_onSubmit, check_name, check_email, check_password.
    rewrite !(get_non_nullish _ _ Hdata), Hn, He, Hp.
    cbn [mbind Completion_bind call_trim truthy]. rewrite Hn0, He0, Hp0.
    cbn [negb mbind Completion_bind call_trim truthy].
    assert ((String.length (trim n) <? 2)%nat = false) as -> by (apply Nat.ltb_ge; lia).
    assert ((100 <? String.length (trim n))%nat = false) as -> by (apply Nat.ltb_ge; lia).
    assert ((String.length (trim p) <? 1)%nat = false) as -> by (apply Nat.ltb_ge; lia).
    apply String.eqb_neq in Hene. rewrite Hene, Hetest.
    cbn [negb mbind Completion_bind]. reflexivity.
Qed.

Lemma bound_lookup (k : string) (v : Val) (fs : list (string * Val)) :
  bound k v fs -> lookup_field k fs = v.
Proof.
  induction fs as [|[k' v'] fs IH]; cbn; [intros []|].
  destruct (String.eqb k' k); auto.
Qed.

Lemma bound_iff (k : string) (v : Val) (fs : list (string * Val)) :
  bound k v fs <-> has_field k fs = true /\ lookup_field k fs = v.
Proof.
  induction fs as [|[k' v'] fs IH]; [split; [intros [] | intros [[=] _]]|].
  rewrite has_field_cons. cbn [bound lookup_field].
  destruct (String.eqb k' k); [|exact IH].
  split; [intros ->; now split | now intros [_ ->]].
Qed.

Lemma has_field_replace_field (k k0 : string) (v : Val) (fs : list (string * Val)) :
  has_field k (replace_field k0 v fs) = has_field k fs.
Proof.
  induction fs as [|[k' v'] fs IH]; [reflexivity|].
  cbn [replace_field]. destruct (String.eqb_spec k' k0) as [->|Hne].
  - now rewrite !has_field_cons.
  - now rewrite !has_field_cons, IH.
Qed.

Lemma has_field_insert_index (n : N) (k k0 : string) (v : Val) (fs : list (string * Val)) :
  has_field k (insert_index n k0 v fs) = String.eqb k0 k || has_field k fs.
Proof.
  induction fs as [|[k' v'] fs IH]; [reflexivity|].
  cbn [insert_index].
  destruct (array_index k') as [m|]; [destruct (m <? n)%N|]; try reflexivity.
  rewrite !has_field_cons, IH.
  destruct (String.eqb k' k), (String.eqb k0 k); reflexivity.
Qed.

Lemma has_field_app (k : string) (fs gs : list (string * Val)) :
  has_field k (fs ++ gs)%list = has_field k fs || has_field k gs.
Proof. apply existsb_app. Qed.

Lemma has_field_set_field (k k0 : string) (v : Val) (fs : list (string * Val)) :
  has_field k (set_field k0 v fs) = String.eqb k0 k || has_field k fs.
Proof.
  unfold set_field. destruct (has_field k0 fs) eqn:Hhas.
  - rewrite has_field_replace_field.
    destruct (String.eqb_spec k0 k) as [<-|]; [now rewrite Hhas | reflexivity].
  - destruct (array_index k0) as [n|].
    + apply has_field_insert_index.
    + rewrite has_field_app, has_field_cons. cbn.
      destruct (has_field k fs), (String.eqb k0 k); reflexivity.
Qed.

Lemma bound_set_field_eq (k : string) (v : Val) (fs : list (string * Val)) :
  bound k v (set_field k v fs).
Proof.
  apply bound_iff. split.
  - now rewrite has_field_set_field, String.eqb_refl.
  - apply lookup_set_field_eq.
Qed.

Lemma bound_set_field_ne (k k0 : string) (v v0 : Val) (fs : list (string * Val)) :
  k <> k0 -> bound k v fs -> bound k v (set_field k0 v0 fs).
Proof.
  intros Hne [Hhas Hlookup]%bound_iff. apply bound_iff. split.
  - rewrite has_field_set_field, Hhas. apply orb_true_r.
  - now rewrite lookup_set_field_ne.
Qed.

Lemma replace_field_bound (k : string) (v : Val) (fs : list (string * Val)) :
  bound k v fs -> replace_field k v fs = fs.
Proof.
  induction fs as [|[k' v'] fs IH]; cbn [bound replace_field]; [intros []|].
  destruct (String.eqb_spec k' k) as [->|Hne]; [now intros -> | intros H; now rewrite IH].
Qed.

(** Writing to a property the value it has leaves the object as it is. *)
Lemma set_field_bound (k : string) (v : Val) (fs : list (string * Val)) :
  bound k v fs -> set_field k v fs = fs.
Proof.
  intros Hbound. unfold set_field.
  rewrite (proj1 (proj1 (bound_iff _ _ _) Hbound)). now apply replace_field_bound.
Qed.

Lemma length_toLowerCase (s : string) : String.length (toLowerCase s) = String.length s.
Proof. induction s as [|c s IH]; cbn; [reflexivity | now rewrite IH]. Qed.

(** X27.  What [onSubmit] of the form of [UserCreate] returns is
    normalized: the name has no white space around it and 2 to 100
    characters; the email is trimmed, in lower case, and matches the
    pattern; the password is trimmed and not empty; every other field is as
    it was submitted. *)
Theorem UserCreate_onSubmit_normalized (data out : Val) :
  UserCreate_onSubmit data = Resolved out ->
  exists name email password,
    get_opt out "name" = VStr name
    /\ trim name = name /\ (2 <= String.length name <= 100)%nat
    /\ get_opt out "email" = VStr email
    /\ trim email = email /\ toLowerCase email = email
    /\ test emailPattern email = true
    /\ get_opt out "password" = VStr password
    /\ trim password = password /\ (1 <= String.length password)%nat
    /\ (forall k, k <> "name" -> k <> "email" -> k <> "password" ->
          get_opt out k = lookup_field k (own_fields data)).
Proof.
  intros Hsubmit. apply onSubmit_resolved_iff in Hsubmit.
  destruct Hsubmit
    as (n & e & p & (Hdata & Hn & He & Hp & Hnlen & Hene & Hetest & Hplen) & ->).
  exists (trim n), (toLowerCase (trim e)), (trim p). unfold normalized.
  rewrite !get_opt_object.
  repeat split.
  - rewrite !lookup_set_field_ne by discriminate. apply lookup_set_field_eq.
  - apply trim_idempotent.
  - lia.
  - lia.
  - rewrite lookup_set_field_ne by discriminate. apply lookup_set_field_eq.
  - rewrite trim_toLowerCase. now rewrite trim_idempotent.
  - apply toLowerCase_idempotent.
  - exact Hetest.
  - apply lookup_set_field_eq.
  - apply trim_idempotent.
  - exact Hplen.
  - intros k Hname Hemail Hpassword. rewrite get_opt_object.
    now rewrite !lookup_set_field_ne by assumption.
Qed.

Lemma UserCreate_onSubmit_normalized_witness :
  exists name email password,
    get_opt (normalized ann " Ann " " Ann@Ex.ORG " " pw ") "name" = VStr name
    /\ trim name = name /\ (2 <= String.length name <= 100)%nat
    /\ get_opt (normalized ann " Ann " " Ann@Ex.ORG " " pw ") "email" = VStr email
    /\ trim email = email /\ toLowerCase email = email
    /\ test emailPattern email = true
    /\ get_opt (normalized ann " Ann " " Ann@Ex.ORG " " pw ") "password" = VStr password
    /\ trim password = password /\ (1 <= String.length password)%nat
    /\ (forall k, k <> "name" -> k <> "email" -> k <> "password" ->
          get_opt (normalized ann " Ann " " Ann@Ex.ORG " " pw ") k
          = lookup_field k (own_fields ann)).
Proof.
  apply (UserCreate_onSubmit_normalized ann (normalized ann " Ann " " Ann@Ex.ORG " " pw ")).
  vm_compute. reflexivity.
Defined.

(** X28.  Submitting what [onSubmit] returned changes nothing: the result
    is accepted again and returned as it is. *)
Theorem UserCreate_onSubmit_idempotent (data out : Val) :
  UserCreate_onSubmit data = Resolved out ->
  UserCreate_onSubmit out = Resolved out.
Proof.
  intros Hsubmit. apply onSubmit_resolved_iff in Hsubmit.
  destruct Hsubmit
    as (n & e & p & (Hdata & Hn & He & Hp & Hnlen & Hene & Hetest & Hplen) & ->).
  apply onSubmit_resolved_iff.
  exists (trim n), (toLowerCase (trim e)), (trim p).
  set (fields := set_field "password" (VStr (trim p))
                   (set_field "email" (VStr (toLowerCase (trim e)))
                      (set_field "name" (VStr (trim n)) (own_fields data)))).
  assert (bound "name" (VStr (trim n)) fields) as Hbn.
  { subst fields. do 2 (apply bound_set_field_ne; [discriminate|]).
    apply bound_set_field_eq. }
  assert (bound "email" (VStr (toLowerCase (trim e))) fields) as Hbe.
  { subst fields. apply bound_set_field_ne; [discriminate|]. apply bound_set_field_eq. }
  assert (bound "password" (VStr (trim p)) fields) as Hbp.
  { subst fields. apply bound_set_field_eq. }
  assert (trim (toLowerCase (trim e)) = toLowerCase (trim e)) as Htrim.
  { rewrite trim_toLowerCase. now rewrite trim_idempotent. }
  unfold normalized. fold fields. split.
  - unfold acceptable. rewrite !get_opt_object.
    rewrite (bound_lookup _ _ _ Hbn), (bound_lookup _ _ _ Hbe), (bound_lookup _ _ _ Hbp).
    rewrite Htrim, !trim_idempotent, toLowerCase_idempotent.
    repeat split; try assumption; try lia.
    intros Hempty. apply Hene. now apply (proj1 (toLowerCase_empty _)).
  - cbn [own_fields]. rewrite Htrim, !trim_idempotent, toLowerCase_idempotent.
    rewrite (set_field_bound _ _ _ Hbn), (set_field_bound _ _ _ Hbe),
      (set_field_bound _ _ _ Hbp).
    reflexivity.
Qed.

Lemma UserCreate_onSubmit_idempotent_witness :
  UserCreate_onSubmit (normalized ann " Ann " " Ann@Ex.ORG " " pw ")
  = Resolved (normalized ann " Ann " " Ann@Ex.ORG " " pw ").
Proof.
  apply (UserCreate_onSubmit_idempotent ann).
  vm_compute. reflexivity.
Defined.

(** X29.  [validatePasswordOptional] never reports an error: for every
    string, blank or not, and for every falsy value it returns
    [undefined], and whenever it returns at all it returns [undefined]. *)
Theorem validatePasswordOptional_never_reports (value result : Val) (s : string) :
  validatePasswordOptional (VStr s) = Resolved VUndefined
  /\ (truthy value = false -> validatePasswordOptional value = Resolved VUndefined)
  /\ (validatePasswordOptional value = Resolved result -> result = VUndefined).
Proof.
  assert (forall t, validatePasswordOptional (VStr t) = Resolved VUndefined) as Hstring.
  { intros t. unfold validatePasswordOptional. cbn [truthy].
    destruct (String.eqb_spec t "") as [->|Hne]; [reflexivity|].
    cbn [negb call_trim mbind Completion_bind].
    destruct (String.eqb (trim t) ""); [reflexivity|].
    cbn [string_length]. destruct t; [contradiction | reflexivity]. }
  split; [apply Hstring|]. split.
  - intros Hfalsy. unfold validatePasswordOptional. rewrite Hfalsy. reflexivity.
  - destruct value as [| |[]|[|?|?]|t|?|?|? ?]; try (intros [= <-]; reflexivity);
      try discriminate.
    rewrite Hstring. now intros [= <-].
Qed.


(** ** The patterns of the validators *)

Lemma append_empty (s1 s2 : string) : s1 ++ s2 = "" -> s1 = "" /\ s2 = "".
Proof. destruct s1; [intros H; now split | discriminate]. Qed.

Lemma nullable_Matches (r : regex) : nullable r = true <-> Matches r "".
Proof.
  split.
  - induction r; cbn; try discriminate; intros H.
    + constructor.
    + apply andb_true_iff in H as [H1 H2].
      change "" with ("" ++ "")%string. constructor; auto.
    + apply orb_true_iff in H as [H|H]; [apply MAltL | apply MAltR]; auto.
    + constructor.
  - remember "" as s eqn:E. induction 1; cbn; try reflexivity; try discriminate.
    + apply append_empty in E as [-> ->]. now rewrite IHMatches1, IHMatches2.
    + now rewrite IHMatches.
    + rewrite IHMatches by assumption. apply orb_true_r.
Qed.

Lemma Matches_derivative (r : regex) (cs : string) :
  Matches r cs -> forall c s, cs = String c s -> Matches (derivative c r) s.
Proof.
  induction 1 as [|member d Hd|r1 r2 s1 s2 H1 IH1 H2 IH2|r1 r2 s0 H IH|r1 r2 s0 H IH
                 |r|r s1 s2 H1 IH1 H2 IH2]; intros c s E; cbn [derivative].
  - discriminate.
  - injection E as -> <-. rewrite Hd. constructor.
  - destruct s1 as [|c1 s1].
    + apply nullable_Matches in H1 as ->. apply MAltR. now apply IH2.
    + injection E as -> <-.
      assert (Matches (Cat (derivative c r1) r2) (s1 ++ s2)) as Hcat
        by (constructor; [now apply IH1 | assumption]).
      destruct (nullable r1); [now apply MAltL | assumption].
  - apply MAltL. now apply IH.
  - apply MAltR. now apply IH.
  - discriminate.
  - destruct s1 as [|c1 s1].
    + now apply IH2.
    + injection E as -> <-. constructor; [now apply IH1 | assumption].
Qed.

Lemma derivative_Matches (c : ascii) (r : regex) (s : string) :
  Matches (derivative c r) s -> Matches r (String c s).
Proof.
  revert s. induction r as [| |member|r1 IH1 r2 IH2|r1 IH1 r2 IH2|r IH];
    intros s; cbn [derivative]; intros H.
  - inversion H.
  - inversion H.
  - destruct (member c) eqn:Hc; inversion H; subst. now constructor.
  - assert (forall t, Matches (Cat (derivative c r1) r2) t -> Matches (Cat r1 r2) (String c t))
      as Hcat.
    { intros t Ht. inversion Ht; subst.
      change (String c (s1 ++ s2)) with (String c s1 ++ s2)%string.
      constructor; auto. }
    destruct (nullable r1) eqn:Hnull; [|now apply Hcat].
    inversion H; subst; [now apply Hcat|].
    change (String c s) with ("" ++ String c s)%string.
    constructor; [now apply nullable_Matches | auto].
  - inversion H; subst; [apply MAltL | apply MAltR]; auto.
  - inversion H; subst.
    change (String c (s1 ++ s2)) with (String c s1 ++ s2)%string.
    constructor; auto.
Qed.

(** The matcher decides the language of the pattern. *)
Lemma test_Matches (r : regex) (s : string) : test r s = true <-> Matches r s.
Proof.
  revert r. induction s as [|c s IH]; intros r; cbn [test].
  - apply nullable_Matches.
  - rewrite IH. split; [apply derivative_Matches|].
    intros H. now apply (Matches_derivative r (String c s)).
Qed.

Lemma Matches_Class (member : ascii -> bool) (s : string) :
  Matches (Class member) s <-> exists c, s = String c "" /\ member c = true.
Proof.
  split.
  - inversion 1; subst. eauto.
  - intros (c & -> & Hc). now constructor.
Qed.

Lemma all_in_append (member : ascii -> bool) (s1 s2 : string) :
  all_in member (s1 ++ s2) = all_in member s1 && all_in member s2.
Proof.
  induction s1 as [|c s1 IH]; [reflexivity|].
  change (String c s1 ++ s2)%string with (String c (s1 ++ s2)).
  cbn [all_in]. now rewrite IH, andb_assoc.
Qed.

Lemma Matches_Star_Class (member : ascii -> bool) (s : string) :
  Matches (Star (Class member)) s <-> all_in member s = true.
Proof.
  split.
  - remember (Star (Class member)) as r eqn:E.
    induction 1 as [| | | | | |r0 s1 s2 H1 _ H2 IH2]; try discriminate; [reflexivity|].
    injection E as ->. apply Matches_Class in H1 as (c & -> & Hc).
    rewrite all_in_append. cbn [all_in]. rewrite Hc. now apply IH2.
  - induction s as [|c s IH]; cbn [all_in]; [constructor|].
    intros [Hc Hs]%andb_true_iff.
    change (String c s) with (String c "" ++ s)%string.
    constructor; [now constructor | auto].
Qed.

Lemma Matches_Cat (r1 r2 : regex) (s : string) :
  Matches (Cat r1 r2) s <-> exists s1 s2, s = (s1 ++ s2)%string /\ Matches r1 s1 /\ Matches r2 s2.
Proof.
  split.
  - inversion 1; subst. eauto.
  - intros (s1 & s2 & -> & H1 & H2). now constructor.
Qed.

Lemma Matches_plus_Class (member : ascii -> bool) (s : string) :
  Matches (plus (Class member)) s <-> s <> "" /\ all_in member s = true.
Proof.
  unfold plus. rewrite Matches_Cat. split.
  - intros (s1 & s2 & -> & (c & -> & Hc)%Matches_Class & H2%Matches_Star_Class).
    change (String c "" ++ s2)%string with (String c s2).
    split; [discriminate|]. cbn [all_in]. now rewrite Hc.
  - intros [Hne Hall]. destruct s as [|c s]; [contradiction|].
    cbn [all_in] in Hall. apply andb_true_iff in Hall as [Hc Hs].
    exists (String c ""), s. split; [reflexivity|]. split.
    + now constructor.
    + now apply Matches_Star_Class.
Qed.

Lemma Matches_two_or_more_Class (member : ascii -> bool) (s : string) :
  Matches (two_or_more (Class member)) s
  <-> (2 <= String.length s)%nat /\ all_in member s = true.
Proof.
  unfold two_or_more. rewrite Matches_Cat. split.
  - intros (s1 & s2 & -> & (c & -> & Hc)%Matches_Class & H2).
    apply (Matches_plus_Class member) in H2 as [Hne Hall].
    destruct s2 as [|d s2]; [contradiction|].
    change (String c "" ++ String d s2)%string with (String c (String d s2)).
    cbn [String.length]. split; [lia|].
    cbn [all_in] in Hall |- *. now rewrite Hc, Hall.
  - intros [Hlen Hall]. destruct s as [|c [|d s]]; cbn in Hlen; try lia.
    cbn [all_in] in Hall. apply andb_true_iff in Hall as [Hc Hs].
    exists (String c ""), (String d s). split; [reflexivity|]. split.
    + now constructor.
    + apply (Matches_plus_Class member). split; [discriminate | exact Hs].
Qed.

Lemma Matches_char (c : ascii) (s : string) : Matches (char c) s <-> s = String c "".
Proof.
  unfold char. rewrite Matches_Class. split.
  - intros (d & -> & ->%Ascii.eqb_eq). reflexivity.
  - intros ->. exists c. split; [reflexivity | apply Ascii.eqb_refl].
Qed.

Lemma emailPattern_address (s : string) : test emailPattern s = true <-> address s.
Proof.
  rewrite test_Matches. unfold emailPattern, address. split.
  - intros (l & s1 & -> & Hl & H1)%Matches_Cat.
    apply Matches_Cat in H1 as (at_ & s2 & -> & ->%Matches_char & H2).
    apply Matches_Cat in H2 as (d & s3 & -> & Hd & H3).
    apply Matches_Cat in H3 as (dot & t & -> & ->%Matches_char & Ht).
    apply Matches_plus_Class in Hl as [Hl1 Hl2].
    apply Matches_plus_Class in Hd as [Hd1 Hd2].
    apply Matches_two_or_more_Class in Ht as [Ht1 Ht2].
    exists l, d, t. repeat split; assumption.
  - intros (l & d & t & -> & Hl1 & Hl2 & Hd1 & Hd2 & Ht1 & Ht2).
    constructor; [now apply Matches_plus_Class|].
    change ("@" ++ d ++ "." ++ t)%string with (String "@" "" ++ d ++ String "." "" ++ t)%string.
    constructor; [now apply Matches_char|].
    constructor; [now apply Matches_plus_Class|].
    constructor; [now apply Matches_char|].
    now apply Matches_two_or_more_Class.
Qed.

(** X30.  The function at the end of [validateEmail] accepts a string
    exactly when it is empty or when, trimmed and in lower case, it has at
    most 100 characters and is a local part, [@], a domain, a dot and at
    least two letters; so neither the case of the letters nor white space
    around the address matters. *)
Theorem validateEmail_format_accepts (value : string) :
  validateEmail_format (VStr value) = Resolved VUndefined
  <-> value = ""
      \/ ((String.length (trim value) <= 100)%nat
          /\ address (toLowerCase (trim value))).
Proof.
  unfold validateEmail_format. cbn [truthy].
  destruct (String.eqb_spec value "") as [->|Hne]; cbn [negb].
  - split; [now left | reflexivity].
  - cbn [call_trim mbind Completion_bind]. cbv zeta.
    rewrite length_toLowerCase, <- emailPattern_address.
    destruct (Nat.ltb_spec 100 (String.length (trim value))) as [Hlong|Hshort].
    + split; [discriminate|]. intros [?|[? _]]; [contradiction | lia].
    + destruct (test emailPattern (toLowerCase (trim value))); cbn [negb].
      * split; [right; split; [lia | reflexivity] | reflexivity].
      * split; [discriminate|]. intros [?|[_ ?]]; [contradiction | discriminate].
Qed.

(** * The rejections of the data provider *)

Import AdapterRequests.



Section RequestRejections.

Variable REACT_APP_API_URL : option string.
Variable fetch : Request -> FetchOutcome.
Variable JSON_parse : string -> Completion Val.
Variable JSON_stringify : Val -> option string.
Variable settled : list nat.
Variable store : gmap string string.




End RequestRejections.



